(** * dv_midterm: the LDA topic pipeline and the Doc2Vec script

    A shallow embedding of [lda_model.py] and [doc2vec_model.py].

    The repository is glue around third-party libraries (gensim, numpy,
    matplotlib) and around the collaborator module [joining_the_sheeple].
    Their operations are not re-implemented: they appear as the fields of
    interface classes ([Gensim], [Matplotlib], [Sheeple]), and whatever a
    theorem needs from them is a hypothesis of that theorem.  Three
    behaviours of the libraries decide what the code returns and are
    written out after the libraries' own code: gensim's tokenizer on ASCII
    text, the trainer's refusal of a vocabulary without terms, and the word
    cloud's refusal of a dict without words.  The code of the repository
    itself is embedded function by function, exceptions included, in the
    error monad [result].

    Conventions
    - Python integers are [Z]; lengths and topic counts are [nat].
    - A topic proportion is a rational [Q]: every finite float is one, and
      the matrix builder only copies proportions, it never computes on
      them.  Sums of proportions are exact sums.
    - Python [str] is [string], a sequence of bytes.  The text functions
      are written out for ASCII text; what the tokenizer does with a
      character beyond ASCII (lower case, accents and letters after the
      Unicode tables) is a field of [Gensim]. *)

From Stdlib Require Import Ascii String QArith Lqa Sorted.
From stdpp Require Import gmap strings list pretty.

Open Scope Z_scope.

(** ** Python exceptions and the error monad *)

Inductive exn : Set :=
| IndexError
| KeyError
| TypeError
| ValueError
| ZeroDivisionError.

Inductive result (A : Type) : Type :=
| Ok (a : A)
| Raise (e : exn).
Arguments Ok {A} a.
Arguments Raise {A} e.

#[global] Instance result_ret : MRet result := λ A a, Ok a.
#[global] Instance result_bind : MBind result := λ A B f r,
  match r with
  | Ok a => f a
  | Raise e => Raise e
  end.

(** [l[i]] for a Python list or a numpy array: a negative index counts
    from the end, anything outside [-len, len) raises [IndexError]. *)
Definition py_index {A} (l : list A) (i : Z) : option nat :=
  let n := Z.of_nat (length l) in
  if decide (0 ≤ i < n) then Some (Z.to_nat i)
  else if decide (- n ≤ i < 0) then Some (Z.to_nat (i + n))
  else None.

Definition py_getitem {A} (l : list A) (i : Z) : result A :=
  match py_index l i with
  | Some k => match l !! k with Some x => Ok x | None => Raise IndexError end
  | None => Raise IndexError
  end.

Definition py_setitem {A} (l : list A) (i : Z) (x : A) : result (list A) :=
  match py_index l i with
  | Some k => Ok (<[k := x]> l)
  | None => Raise IndexError
  end.

(** [np.zeros(n)] *)
Definition np_zeros (n : nat) : list Q := replicate n 0%Q.

(** ** The gensim interface *)

(** A bag-of-words vector: (term id, count) pairs. *)
Definition bow : Type := list (Z * Z).

(** A sparse topic distribution: (topic id, proportion) pairs. *)
Definition topic_dist : Type := list (Z * Q).

(** What [lda_model[doc]] evaluates to.  With [per_word_topics=True] it is
    the triple (topic_percs, wordid_topics, wordid_phivalues), otherwise
    the bare list of pairs. *)
Inductive inference : Type :=
| PerWord (topic_percs : topic_dist)
          (wordid_topics : list (Z * list Z))
          (wordid_phivalues : list (Z * list (Z * Q)))
| Plain (topic_percs : topic_dist).

(** The keyword arguments of [gensim.models.ldamodel.LdaModel(...)]. *)
Record LdaArgs (dictionary : Type) : Type := mkLdaArgs {
  corpus : list bow;
  id2word : dictionary;
  num_topics : nat;
  random_state : option Z;
  update_every : Z;
  chunksize : Z;
  passes : Z;
  alpha : string;
  per_word_topics : bool
}.
Arguments mkLdaArgs {dictionary}.
Arguments corpus {dictionary}.
Arguments id2word {dictionary}.
Arguments num_topics {dictionary}.
Arguments random_state {dictionary}.
Arguments update_every {dictionary}.
Arguments chunksize {dictionary}.
Arguments passes {dictionary}.
Arguments alpha {dictionary}.
Arguments per_word_topics {dictionary}.

(** The part of gensim the pipeline calls.  [entropy] stands for the
    process-wide random state that the trainer falls back on when it is
    given no seed; every run of the program starts with its own. *)
Class Gensim : Type := {
  dictionary : Type;
  lda : Type;
  entropy : Type;
  (** [gensim.utils.simple_preprocess(doc, deacc=True)] on a text that has
      a character beyond ASCII *)
  simple_preprocess_unicode : string → list string;
  (** [corpora.Dictionary(data)] *)
  Dictionary : list (list string) → dictionary;
  (** [id2word.doc2bow(text)] *)
  doc2bow : dictionary → list string → bow;
  (** [id2word[wd]]; [None] is [KeyError] *)
  dictionary_getitem : dictionary → Z → option string;
  (** [LdaModel(corpus=..., ...)], given a vocabulary that has a term *)
  LdaModel : entropy → LdaArgs dictionary → lda;
  (** [lda_model.num_topics] *)
  lda_num_topics : lda → nat;
  (** [lda_model.id2word] *)
  lda_id2word : lda → dictionary;
  (** [lda_model[doc]] *)
  lda_getitem : lda → bow → inference
}.

(** ** Topic distribution as a matrix ([getLDATopicDistMatrix]) *)

Section TopicMatrix.

Context `{G : Gensim}.

(** The pairs the loop [for tp, score in lda_model[doc][0]] runs over.
    On a triple, component 0 is the list of pairs.  On a bare list,
    component 0 is its first pair, whose first item is an integer and
    cannot be unpacked; an empty list has no component 0. *)
Definition doc_topic_pairs (r : inference) : result topic_dist :=
  match r with
  | PerWord topic_percs _ _ => Ok topic_percs
  | Plain [] => Raise IndexError
  | Plain (_ :: _) => Raise TypeError
  end.

(** [for tp, score in ...: topicScore[tp] = score] *)
Fixpoint fill_scores (topicScore : list Q) (pairs : topic_dist)
  : result (list Q) :=
  match pairs with
  | [] => Ok topicScore
  | (tp, score) :: rest =>
      topicScore' ← py_setitem topicScore tp score;
      fill_scores topicScore' rest
  end.

(** The body of the loop over the corpus. *)
Definition topic_row (lda_model : lda) (doc : bow) : result (list Q) :=
  let topicScore := np_zeros (lda_num_topics lda_model) in
  pairs ← doc_topic_pairs (lda_getitem lda_model doc);
  fill_scores topicScore pairs.

Fixpoint matrix_loop (lda_model : lda) (docs : list bow)
    (topic_matrix : list (list Q)) : result (list (list Q)) :=
  match docs with
  | [] => Ok topic_matrix
  | doc :: rest =>
      topicScore ← topic_row lda_model doc;
      matrix_loop lda_model rest (topic_matrix ++ [topicScore])
  end.

Definition getLDATopicDistMatrix {D : Type}
    (lda_model : lda) (corpus : list bow) (data : D)
  : result (list (list Q)) :=
  matrix_loop lda_model corpus [].

End TopicMatrix.

(** ** The tokenizer ([sent_to_words]) *)

Definition is_upper (c : ascii) : bool :=
  let n := nat_of_ascii c in (65 <=? n)%nat && (n <=? 90)%nat.

Definition is_lower (c : ascii) : bool :=
  let n := nat_of_ascii c in (97 <=? n)%nat && (n <=? 122)%nat.


Definition to_lower (c : ascii) : ascii :=
  if is_upper c then ascii_of_nat (nat_of_ascii c + 32) else c.

(** Ends the token being read, if there is one. *)
Definition flush_token (cur : string) (rest : list string) : list string :=
  match cur with
  | EmptyString => rest
  | _ => cur :: rest
  end.

(** Every character of [s] passes the test [P]. *)
Fixpoint string_forall (P : ascii → bool) (s : string) : bool :=
  match s with
  | EmptyString => true
  | String c s' => P c && string_forall P s'
  end.

Definition is_ascii (c : ascii) : bool := (nat_of_ascii c <? 128)%nat.

(** [text.lower()], on ASCII text. *)
Fixpoint str_lower (text : string) : string :=
  match text with
  | EmptyString => EmptyString
  | String c text' => String (to_lower c) (str_lower text')
  end.

(** The characters gensim's pattern [PAT_ALPHABETIC], one or more of
    [(?![\d])\w], takes into a token, among the ASCII characters: the
    letters and the underscore, not the digits. *)
Definition is_word_char (c : ascii) : bool :=
  is_lower c || is_upper c || (nat_of_ascii c =? 95)%nat.

(** [simple_tokenize(text)]: the matches of the pattern from left to
    right, which are the maximal runs of word characters.  [cur] is the
    run being read. *)
Fixpoint simple_tokenize (cur : string) (text : string) : list string :=
  match text with
  | EmptyString => flush_token cur []
  | String c text' =>
      if is_word_char c
      then simple_tokenize (cur +:+ String c EmptyString) text'
      else flush_token cur (simple_tokenize EmptyString text')
  end.

(** [token.startswith('_')] *)
Definition startswith_underscore (token : string) : bool :=
  match token with
  | String c _ => (nat_of_ascii c =? 95)%nat
  | EmptyString => false
  end.

(** The test of the comprehension in [simple_preprocess], with the
    defaults [min_len=2] and [max_len=15]:
    [min_len <= len(token) <= max_len and not token.startswith('_')]. *)
Definition keeps_token (token : string) : bool :=
  (2 <=? String.length token)%nat && (String.length token <=? 15)%nat
  && negb (startswith_underscore token).

(** [gensim.utils.simple_preprocess(doc, deacc=True)] on ASCII text, after
    the library's code: the text in lower case, where [deaccent] finds no
    accent to remove, is cut into the runs of letters and underscores, and
    a run is kept when it has 2 to 15 characters and does not start with an
    underscore.  Digits, white space and any other character separate the
    runs. *)
Definition simple_preprocess_ascii (doc : string) : list string :=
  List.filter keeps_token (simple_tokenize EmptyString (str_lower doc)).

(** [gensim.utils.simple_preprocess(doc, deacc=True)], a function of the
    third-party gensim library. *)
Definition simple_preprocess `{G : Gensim} (doc : string) : list string :=
  if string_forall is_ascii doc then simple_preprocess_ascii doc
  else simple_preprocess_unicode doc.

(** The generator [sent_to_words], as the list of what it yields.  The
    sentences are already [str], so [str(sentence)] is [sentence]. *)
Definition sent_to_words `{G : Gensim} (sentences : list string)
  : list (list string) :=
  (λ sentence, simple_preprocess sentence) <$> sentences.

(** ** The collaborator module [joining_the_sheeple] *)

(** One split of the data set: [dats.data] and [dats.target]. *)
Record Bunch : Type := mkBunch {
  Bunch_data : list string;
  Bunch_target : list Z
}.

Class Sheeple : Type := {
  (** [fetch_data()]: the train and the test split *)
  fetch_data : Bunch * Bunch;
  (** [create_new_labels(target)] *)
  create_new_labels : list Z → list Z;
  (** [vocab1], the dict the Doc2Vec script reads *)
  vocab1 : gmap string (list string)
}.

(** ** Get data for LDA ([getDataHayle]) *)

(** [for i in range(0, len(sentences))], with the two lists being built. *)
Fixpoint getData_loop (sentences : list (list string)) (dats_target : list Z)
    (range : list nat) (data : list (list string)) (target : list Z)
  : result (list (list string) * list Z) :=
  match range with
  | [] => Ok (data, target)
  | i :: range' =>
      sentence ← py_getitem sentences (Z.of_nat i);
      if bool_decide (sentence ≠ [])
      then
        label ← py_getitem dats_target (Z.of_nat i);
        getData_loop sentences dats_target range'
                     (data ++ [sentence]) (target ++ [label])
      else getData_loop sentences dats_target range' data target
  end.

Definition getDataHayle `{G : Gensim} `{S : Sheeple} (getTrain : bool)
  : result (list (list string) * list Z) :=
  let dats := if getTrain then fetch_data.1 else fetch_data.2 in
  let sentences := sent_to_words (Bunch_data dats) in
  '(data, target) ← getData_loop sentences (Bunch_target dats)
                       (seq 0 (length sentences)) [] [];
  Ok (data, create_new_labels target).

(** ** Build the actual model ([buildModel]) *)

(** [len(id2word) = 0] for [id2word = corpora.Dictionary(data)]: the
    vocabulary has one term per distinct token, so it has none exactly when
    no document of [data] has a token. *)
Definition no_terms (data : list (list string)) : Prop := concat data = [].

(** The run's ambient random state [e] is an explicit argument.  The
    constructor of the model refuses a vocabulary without terms with
    [ValueError] (cannot compute LDA over an empty collection), and
    [buildModel] catches nothing. *)
Definition buildModel `{G : Gensim} (e : entropy) (data : list (list string))
  : result (lda * list bow * dictionary) :=
  let id2word := Dictionary data in
  let corpus := (λ text, doc2bow id2word text) <$> data in
  lda_model ←
    (if decide (no_terms data) then Raise ValueError
     else Ok (LdaModel e {| corpus := corpus;
                            id2word := id2word;
                            num_topics := 12;
                            random_state := Some 100;
                            update_every := 1;
                            chunksize := 100;
                            passes := 10;
                            alpha := "auto";
                            per_word_topics := true |}));
  Ok (lda_model, corpus, id2word).

(** ** Sentence colouring ([sentences_chart]) *)

(** The part of matplotlib the chart reads: [mcolors.TABLEAU_COLORS], a
    dict from colour names to colours, in insertion order. *)
Class Matplotlib : Type := {
  TABLEAU_COLORS : list (string * string)
}.

(** What is drawn on one axes object, in drawing order.  Positions are
    exact rationals; on them [round(x, 3)] changes nothing, all positions
    being multiples of 1/1000. *)
Inductive artist : Type :=
| AxisOff
| Text (x y : Q) (s : string) (color : string)
| RectangleBorder (color : string).

(** [l[start:stop]]: both bounds are clamped, a negative bound counts
    from the end. *)
Definition py_slice {A} (l : list A) (start stop : Z) : list A :=
  let n := Z.of_nat (length l) in
  let clamp (i : Z) := if decide (i < 0) then Z.max 0 (i + n) else Z.min i n in
  take (Z.to_nat (clamp stop - clamp start)) (drop (Z.to_nat (clamp start)) l).

(** [a % b] on Python integers; [Z.modulo] takes the sign of the divisor,
    as Python does. *)
Definition py_mod (a b : Z) : result Z :=
  if decide (b = 0) then Raise ZeroDivisionError else Ok (a `mod` b).

(** [plt.subplots(nrows, 1, ...)] followed by the first use [axes[0]]: for
    two rows or more the axes come as an array, a single row gives one
    axes object that cannot be indexed, and no row is refused. *)
Definition plt_subplots (nrows : Z) : result (list (list artist)) :=
  if decide (nrows ≤ 0) then Raise ValueError
  else if decide (nrows = 1) then Raise TypeError
  else Ok (replicate (Z.to_nat nrows) []).

(** [sorted(topic_percs, key=lambda x: (x[1]), reverse=True)]: a stable
    sort, pairs of equal proportion keep their order. *)
Fixpoint insert_by_score (x : Z * Q) (l : topic_dist) : topic_dist :=
  match l with
  | [] => [x]
  | y :: l' =>
      if Qle_bool y.2 x.2 then x :: y :: l' else y :: insert_by_score x l'
  end.

Definition sorted_by_score (l : topic_dist) : topic_dist :=
  foldr insert_by_score [] l.

(** The topic id the border colour is looked up with:
    [topic_percs_sorted[0][0]]. *)
Definition dominant_topic (topic_percs : topic_dist) : result Z :=
  top ← py_getitem (sorted_by_score topic_percs) 0;
  Ok top.1.

(** [topic_percs, wordid_topics, wordid_phivalues = lda_model[corp_cur]].
    A bare list unpacks only if it has three pairs, and then the loop
    over [wordid_topics] meets an integer where it expects a pair. *)
Definition unpack_inference (r : inference)
  : result (topic_dist * list (Z * list Z) * list (Z * list (Z * Q))) :=
  match r with
  | PerWord topic_percs wordid_topics wordid_phivalues =>
      Ok (topic_percs, wordid_topics, wordid_phivalues)
  | Plain l => if decide (length l = 3%nat) then Raise TypeError
               else Raise ValueError
  end.

Section SentencesChart.

Context `{G : Gensim} `{M : Matplotlib}.

(** [for wd, topic in wordid_topics: if len(topic) > 0: ...append(...)] *)
Fixpoint dominant_words (id2word : dictionary)
    (wordid_topics : list (Z * list Z))
    (word_dominanttopic : list (string * Z)) : result (list (string * Z)) :=
  match wordid_topics with
  | [] => Ok word_dominanttopic
  | (wd, topic) :: rest =>
      match topic with
      | [] => dominant_words id2word rest word_dominanttopic
      | topic0 :: _ =>
          match dictionary_getitem id2word wd with
          | None => Raise KeyError
          | Some word =>
              dominant_words id2word rest
                             (word_dominanttopic ++ [(word, topic0)])
          end
      end
  end.

(** [for j, (word, topics) in enumerate(word_dominanttopic)] *)
Fixpoint draw_words (mycolors : list string) (j : nat) (word_pos : Q)
    (words : list (string * Z)) (ax : list artist)
  : result (Q * list artist) :=
  match words with
  | [] => Ok (word_pos, ax)
  | (word, topics) :: rest =>
      if decide (j < 14)%nat
      then
        k ← py_mod topics (Z.of_nat (length mycolors));
        color ← py_getitem mycolors k;
        draw_words mycolors (S j)
          (word_pos + 0.025 * inject_Z (Z.of_nat (String.length word)))%Q
          rest (ax ++ [Text word_pos 0.5 word color; AxisOff])
      else draw_words mycolors (S j) word_pos rest ax
  end.

(** The body of the loop over the axes for [i > 0]: what is drawn for
    document [i - 1] of the slice. *)
Definition chart_doc (lda_model : lda) (mycolors : list string)
    (corp : list bow) (i : nat) (ax : list artist) : result (list artist) :=
  corp_cur ← py_getitem corp (Z.of_nat i - 1);
  '(topic_percs, wordid_topics, wordid_phivalues) ←
    unpack_inference (lda_getitem lda_model corp_cur);
  word_dominanttopic ← dominant_words (lda_id2word lda_model) wordid_topics [];
  let ax := ax ++ [Text 0.01 0.5 ("Doc " +:+ pretty (Z.of_nat i - 1) +:+ ": ")
                        "black"] in
  (* Draw Rectangle *)
  topic ← dominant_topic topic_percs;
  color ← py_getitem mycolors topic;
  let ax := ax ++ [RectangleBorder color] in
  '(word_pos, ax) ← draw_words mycolors 0 0.2%Q word_dominanttopic ax;
  Ok (ax ++ [Text word_pos 0.5 ". . ." "black"]).

(** [for i, ax in enumerate(axes)] *)
Fixpoint chart_loop (lda_model : lda) (mycolors : list string)
    (corp : list bow) (i : nat) (axes drawn : list (list artist))
  : result (list (list artist)) :=
  match axes with
  | [] => Ok drawn
  | ax :: axes' =>
      if decide (0 < i)%nat
      then
        ax' ← chart_doc lda_model mycolors corp i ax;
        chart_loop lda_model mycolors corp (S i) axes' (drawn ++ [ax'])
      else chart_loop lda_model mycolors corp (S i) axes' (drawn ++ [ax])
  end.

(** The figure as the list of its axes; the title and the layout calls
    that follow the loop draw on no axes and are left out. *)
Definition sentences_chart (lda_model : lda) (corpus : list bow)
    (start end_ : Z) : result (list (list artist)) :=
  let corp := py_slice corpus start end_ in
  let mycolors := TABLEAU_COLORS.*2 in
  axes ← plt_subplots (end_ - start);
  let axes := alter (λ ax, ax ++ [AxisOff]) 0%nat axes in
  chart_loop lda_model mycolors corp 0 axes [].

End SentencesChart.

(** ** The Doc2Vec script ([doc2vec_model.py]) *)

(** [gensim.models.doc2vec.TaggedDocument(words, tags)] *)
Record TaggedDocument : Type := mkTaggedDocument {
  words : list string;
  tags : list Z
}.

(** Python's white space among the ASCII characters. *)
Definition is_space (c : ascii) : bool :=
  let n := nat_of_ascii c in
  ((9 <=? n)%nat && (n <=? 13)%nat) || ((28 <=? n)%nat && (n <=? 32)%nat).

Fixpoint split_words (cur : string) (line : string) : list string :=
  match line with
  | EmptyString => flush_token cur []
  | String c line' =>
      if is_space c
      then flush_token cur (split_words EmptyString line')
      else split_words (cur +:+ String c EmptyString) line'
  end.

(** [line.split()] *)
Definition str_split (line : string) : list string :=
  split_words EmptyString line.

(** [for word in line.split(): sentence.append(word)] *)
Definition append_words (sentence : list string) (line : string)
  : list string :=
  foldl (λ sentence word, sentence ++ [word]) sentence (str_split line).

(** [for line in vocab["data"]], with the counter [i] and the list being
    built.  Each pass ends by binding [sentence] to a new empty list, so
    no two documents share their word list. *)
Fixpoint tagged_loop (lines : list string) (i : Z)
    (documents : list TaggedDocument) : list TaggedDocument :=
  match lines with
  | [] => documents
  | line :: lines' =>
      let sentence := append_words [] line in
      tagged_loop lines' (i + 1)
                  (documents ++ [mkTaggedDocument sentence [i]])
  end.

Definition create_tagged_documents (vocab : gmap string (list string))
  : result (list TaggedDocument) :=
  match vocab !! "data" with
  | None => Raise KeyError
  | Some lines => Ok (tagged_loop lines 0 [])
  end.

(** The calls a script can make on gensim's [Doc2Vec]. *)
Inductive doc2vec_call : Type :=
| Doc2Vec_init (documents : option (list TaggedDocument))
               (vector_size min_count epochs : Z)
| Doc2Vec_build_vocab (documents : list TaggedDocument)
| Doc2Vec_train (documents : list TaggedDocument) (epochs : Z)
| Doc2Vec_save (fname : string)
| Doc2Vec_load (fname : string).

(** The calls that run training: [train], and the constructor when it is
    handed the documents. *)
Definition is_training (c : doc2vec_call) : bool :=
  match c with
  | Doc2Vec_train _ _ => true
  | Doc2Vec_init (Some _) _ _ _ => true
  | _ => false
  end.

Definition d2v_model : string :=
  "C:\Users\Zacha\PycharmProjects\dv_midterm\d2v.model".

(** The module-level statements, as the calls they make, in order. *)
Definition doc2vec_script `{S : Sheeple} : result (list doc2vec_call) :=
  train_data ← create_tagged_documents vocab1;
  Ok [ Doc2Vec_init None 5 5 20;
       Doc2Vec_build_vocab train_data;
       Doc2Vec_save d2v_model;
       Doc2Vec_load d2v_model ].

(** ** Notions the statements use *)

(** The exact sum of a row or of a list of proportions. *)
Definition Qsum (l : list Q) : Q := foldr Qplus 0%Q l.

(** What the matrix builder relies on from gensim for one document of a
    model: inference gives the per-word triple, and its topic ids are
    topics of the model. *)
Definition inference_in_range `{G : Gensim} (lda_model : lda) (doc : bow)
  : Prop :=
  ∃ topic_percs wordid_topics wordid_phivalues,
    lda_getitem lda_model doc
      = PerWord topic_percs wordid_topics wordid_phivalues ∧
    Forall (λ p, 0 ≤ p.1 < Z.of_nat (lda_num_topics lda_model)) topic_percs.

(** The positions of the documents whose tokenization is not empty, in
    increasing order. *)
Definition surviving (sentences : list (list string)) : list nat :=
  filter (λ i, sentences !! i ≠ Some []) (seq 0 (length sentences)).

(** A trainer honours its seed when, given one, it does not consult the
    ambient random state. *)
Definition honours_seed (G : Gensim) : Prop :=
  ∀ (e1 e2 : entropy) (args : LdaArgs dictionary),
    random_state args ≠ None → LdaModel e1 args = LdaModel e2 args.





(** The script trains if one of its calls runs training. *)
Definition trains (calls : list doc2vec_call) : Prop :=
  Exists (λ c, is_training c = true) calls.

(** ** A small instance of the interfaces

    A library and a data set small enough to run the pipeline on by
    evaluation; the statements with hypotheses are exercised on them. *)

Module Small.

Record model : Type := mkModel {
  model_args : LdaArgs (list string);
  model_seed : Z
}.

(** Term ids are positions in the list of distinct tokens. *)
Definition count_terms (id2word : list string) (text : list string) : bow :=
  filter (λ p, 0 <? p.2)
         (imap (λ i w, (Z.of_nat i, Z.of_nat (count_occ string_dec text w)))
               id2word).

(** A document goes to the topic given by its length and the seed, with
    three quarters of the mass, the next topic taking the rest. *)
Definition infer (m : model) (doc : bow) : inference :=
  let K := Z.of_nat (num_topics (model_args m)) in
  let t := (model_seed m + foldr Z.add 0 doc.*2) `mod` K in
  let topic_percs :=
    if decide (K = 0) then []
    else if decide (K = 1) then [(0, 1%Q)]
    else [((t + 1) `mod` K, 0.25%Q); (t, 0.75%Q)] in
  if per_word_topics (model_args m)
  then PerWord topic_percs ((λ p, (p.1, [t])) <$> doc) []
  else Plain topic_percs.

#[export] Instance gensim : Gensim := {|
  dictionary := list string;
  lda := model;
  entropy := Z;
  (* the small library is given ASCII text only *)
  simple_preprocess_unicode doc := [];
  Dictionary data := remove_dups (concat data);
  doc2bow := count_terms;
  dictionary_getitem id2word wd :=
    if decide (0 ≤ wd) then id2word !! Z.to_nat wd else None;
  LdaModel e args := mkModel args (default e (random_state args));
  lda_num_topics m := num_topics (model_args m);
  lda_id2word m := id2word (model_args m);
  lda_getitem := infer
|}.

#[export] Instance matplotlib : Matplotlib := {|
  TABLEAU_COLORS :=
    [ ("tab:blue", "#1f77b4"); ("tab:orange", "#ff7f0e");
      ("tab:green", "#2ca02c"); ("tab:red", "#d62728");
      ("tab:purple", "#9467bd"); ("tab:brown", "#8c564b");
      ("tab:pink", "#e377c2"); ("tab:gray", "#7f7f7f");
      ("tab:olive", "#bcbd22"); ("tab:cyan", "#17becf") ]
|}.

(** Twenty labels folded into four. *)
Definition relabel (label : Z) : Z := label `mod` 4.

#[export] Instance sheeple : Sheeple := {|
  fetch_data :=
    (mkBunch ["cat dog cat"; "car engine wheel"; ""] [7; 3; 5],
     mkBunch ["Dogs, running!"; "!!"; "a1 b2"] [1; 2; 0]);
  create_new_labels := fmap relabel;
  vocab1 := {[ "data" := ["hello  world"; "foo"; " bar baz "] ]}
|}.

(** The same data with a test split in which no document has a word of
    two letters. *)
Definition sheeple_blank_test : Sheeple := {|
  fetch_data :=
    (mkBunch ["cat dog cat"; "car engine wheel"; ""] [7; 3; 5],
     mkBunch ["!!"; "a1 b2"] [2; 0]);
  create_new_labels := fmap relabel;
  vocab1 := ∅
|}.

(** Two bags of words, of three and of six tokens. *)
Definition corpus3 : list bow := [[(0, 2); (1, 1)]].
Definition corpus6 : list bow := [[(0, 2); (1, 1)]; [(0, 4); (2, 2)]].

Definition args12 (corpus : list bow) : LdaArgs (list string) :=
  {| corpus := corpus; id2word := ["cat"; "dog"; "car"];
     num_topics := 12; random_state := Some 100; update_every := 1;
     chunksize := 100; passes := 10; alpha := "auto";
     per_word_topics := true |}.

(** The model [buildModel] would hand back for that corpus. *)
Definition lda12 (corpus : list bow) : lda := LdaModel 0 (args12 corpus).

End Small.

(** * The rest of the pipeline *)

(** ** More notions for the statements *)

(** The column an index selects in a row of [K] entries. *)
Definition column (K : nat) (tp : Z) : Z :=
  if decide (tp < 0) then tp + Z.of_nat K else tp.

(** The proportion of the last pair written to column [t], 0 when no pair
    is. *)
Definition last_score (K : nat) (pairs : list (Z * Q)) (t : nat) : Q :=
  match last (filter (λ p, column K p.1 = Z.of_nat t) pairs) with
  | Some p => p.2
  | None => 0%Q
  end.

(** ** A second small library

    Its inference reads the topic pairs off the document itself: the bag
    [(t, c)] gives topic [t] the proportion [c / 100].  Any list of pairs,
    well formed or not, is then the inference of some document. *)

Module Echo.

Record model : Type := mkModel {
  model_topics : nat;
  model_per_word : bool;
  model_words : list string
}.

Definition infer (m : model) (doc : bow) : inference :=
  let topic_percs := (λ p, (p.1, Qmake p.2 100)) <$> doc in
  if model_per_word m
  then PerWord topic_percs ((λ p, (p.1, [p.1])) <$> doc) []
  else Plain topic_percs.

#[export] Instance gensim : Gensim := {|
  dictionary := list string;
  lda := model;
  entropy := unit;
  (* ASCII text only, as for the first library *)
  simple_preprocess_unicode doc := [];
  Dictionary data := remove_dups (concat data);
  doc2bow id2word text :=
    (λ w, (Z.of_nat (String.length w), 1)) <$> text;
  dictionary_getitem id2word wd :=
    if decide (0 ≤ wd) then id2word !! Z.to_nat wd else None;
  LdaModel e args :=
    mkModel (num_topics args) (per_word_topics args) (id2word args);
  lda_num_topics := model_topics;
  lda_id2word := model_words;
  lda_getitem := infer
|}.

(** Four topics, per-word inference, three known words. *)
Definition lda4 : lda := mkModel 4 true ["cat"; "dog"; "car"].

(** The same without per-word inference. *)
Definition lda4_plain : lda := mkModel 4 false ["cat"; "dog"; "car"].

End Echo.

(** ** Order by proportion *)

(** [x] comes before [y] in decreasing order of proportion. *)
Definition score_ge (x y : Z * Q) : Prop := (y.2 <= x.2)%Q.

#[global] Instance Qeq_decision (x y : Q) : Decision (x == y)%Q := Qeq_dec x y.

(** ** Reading a drawing *)

(** The words written on an axes object, each with its colour. *)
Definition drawn_texts (ax : list artist) : list (string * string) :=
  omap (λ a, match a with
             | Text _ _ s color => Some (s, color)
             | _ => None
             end) ax.


(** ** The reporting functions *)

(** What the reporting functions call besides the operations of [Gensim]:
    two more methods of the model, inference on a whole corpus, and
    Python's rounding of a float to four decimals. *)
Class Reporting `{G : Gensim} : Type := {
  (** [lda_model.show_topics(formatted=False, num_topics=n, num_words=w)] *)
  show_topics : lda → nat → nat → list (Z * list (string * Q));
  (** [ldamodel.show_topic(topic_num)] *)
  show_topic : lda → Z → list (string * Q);
  (** [ldamodel[corpus]], as the list of what it yields *)
  lda_apply : lda → list bow → list inference;
  (** [round(prop_topic, 4)] *)
  round4 : Q → Q
}.

(** A loop that draws one thing per item and stops at the first
    exception. *)
Fixpoint for_each {A B : Type} (f : A → result B) (l : list A)
  : result (list B) :=
  match l with
  | [] => Ok []
  | x :: l' =>
      y ← f x;
      ys ← for_each f l';
      Ok (y :: ys)
  end.

(** [range(0, n)] *)
Definition py_range (n : nat) : list Z := Z.of_nat <$> seq 0 n.

(** *** Word counts and weights ([makeWordWeightImportanceVisualization]) *)

(** [Counter(data_flat)]: one count per distinct word. *)
Definition Counter (items : list string) : gmap string nat :=
  foldl (λ counter w, <[w := S (default 0%nat (counter !! w))]> counter)
        ∅ items.

(** [counter[word]]: a word never counted has count 0. *)
Definition Counter_getitem (counter : gmap string nat) (word : string) : nat :=
  default 0%nat (counter !! word).

(** A row of [out]: [[word, i, weight, counter[word]]]. *)
Record importance_row : Type := mkImportanceRow {
  word : string;
  topic_id : Z;
  importance : Q;
  word_count : nat
}.

#[global] Instance importance_row_topic_dec (idx : Z) (r : importance_row) :
  Decision (topic_id r = idx) := decide (topic_id r = idx).

(** [for word, weight in topic: out.append(...)] *)
Fixpoint importance_topic (counter : gmap string nat) (i : Z)
    (topic : list (string * Q)) (out : list importance_row)
  : list importance_row :=
  match topic with
  | [] => out
  | (word, weight) :: topic' =>
      importance_topic counter i topic'
        (out ++ [mkImportanceRow word i weight (Counter_getitem counter word)])
  end.

(** [for i, topic in topics: ...] *)
Fixpoint importance_out (counter : gmap string nat)
    (topics : list (Z * list (string * Q))) (out : list importance_row)
  : list importance_row :=
  match topics with
  | [] => out
  | (i, topic) :: topics' =>
      importance_out counter topics' (importance_topic counter i topic out)
  end.

(** One axes object of the figure: its title, the colour of its bars,
    and the rows the two bar charts are drawn from. *)
Record importance_axes : Type := mkImportanceAxes {
  ia_title : string;
  ia_color : string;
  ia_rows : list importance_row
}.

Section WordImportance.

Context `{R : Reporting} `{M : Matplotlib}.

(** The body of the loop over the axes of one figure. *)
Definition importance_axes_at (df : list importance_row) (cols : list string)
    (idx : Z) : result importance_axes :=
  let rows := filter (λ r, topic_id r = idx) df in
  k ← py_mod idx (Z.of_nat (length cols));
  color ← py_getitem cols k;
  Ok (mkImportanceAxes ("Topic: " +:+ pretty idx) color rows).

(** The three figures, each the list of its four axes. *)
Definition makeWordWeightImportanceVisualization (lda_model : lda)
    (data : list (list string)) : result (list (list importance_axes)) :=
  let topics := show_topics lda_model 12 20 in
  let data_flat := concat data in
  let counter := Counter data_flat in
  let out := importance_out counter topics [] in
  let df := out in
  for_each (λ j,
    let cols := TABLEAU_COLORS.*2 in
    for_each (λ i, let idx := i + j * 4 in importance_axes_at df cols idx)
             (py_range 4))
    (py_range 3).

End WordImportance.

(** The table of the figure written as a comprehension: one row per word
    of each listed topic, in order, with the number of times the word
    occurs in the documents. *)
Definition importance_table (topics : list (Z * list (string * Q)))
    (data : list (list string)) : list importance_row :=
  t ← topics;
  (λ p, mkImportanceRow p.1 t.1 p.2
          (length (filter (λ w, w = p.1) (concat data)))) <$> t.2.

(** *** The dominant topic of each document ([format_topics_sentences]) *)

(** [row_list[0] if ldamodel.per_word_topics else row_list]: the attribute
    says which of the two shapes inference has, so the conditional picks
    the list of pairs in both. *)
Definition selected_row (row_list : inference) : topic_dist :=
  match row_list with
  | PerWord topic_percs _ _ => topic_percs
  | Plain topic_percs => topic_percs
  end.

(** [sep.join(items)] *)
Fixpoint py_join (sep : string) (items : list string) : string :=
  match items with
  | [] => EmptyString
  | [s] => s
  | s :: items' => s +:+ sep +:+ py_join sep items'
  end.

(** A row of the data frame returned: a missing value (NaN) is [None];
    [Text_] is the column 'Text'. *)
Record dominant_row : Type := mkDominantRow {
  Document_No : nat;
  Dominant_Topic : option Z;
  Topic_Perc_Contrib : option Q;
  Keywords : option string;
  Text_ : option (list string)
}.

(** [pd.concat([sent_topics_df, contents], axis=1)] followed by
    [reset_index()]: the rows of the two are put side by side by position,
    the shorter one being completed with missing values. *)
Definition concat_columns (sent_topics_df : list (Z * Q * string))
    (contents : list (list string)) : list dominant_row :=
  (λ i, mkDominantRow i ((λ r, r.1.1) <$> sent_topics_df !! i)
                        ((λ r, r.1.2) <$> sent_topics_df !! i)
                        ((λ r, r.2) <$> sent_topics_df !! i)
                        (contents !! i))
    <$> seq 0 (length sent_topics_df `max` length contents).

(** One axes object of the word count figure. *)
Record histogram_axes : Type := mkHistogramAxes {
  ha_title : string;
  ha_color : string;
  ha_doc_lens : list nat;
  ha_density : bool
}.

(** The part of the wordcloud library the clouds need. *)
Class WordCloudLib : Type := {
  cloud_image : Type;
  (** What [generate_from_frequencies(frequencies, max_font_size=300)] does
      once it has found a word in [frequencies]: the layout of at most
      [max_words] of them, each in the colour [color_func] gives.  The
      arguments are [max_words], [frequencies] and what a call of
      [color_func] comes to. *)
  cloud_layout : nat → list (string * Q) → result string → result cloud_image
}.

(** One word cloud on its axes: the title and the image shown. *)
Record cloud_axes `{W : WordCloudLib} : Type := mkCloudAxes {
  ca_title : string;
  ca_image : cloud_image
}.
Arguments mkCloudAxes {W}.
Arguments ca_title {W}.
Arguments ca_image {W}.

(** [dict(pairs)]: a later pair replaces the value of an earlier one with
    the same key, which keeps its place. *)
Fixpoint dict_set (d : list (string * Q)) (k : string) (v : Q)
  : list (string * Q) :=
  match d with
  | [] => [(k, v)]
  | (k', v') :: d' =>
      if decide (k' = k) then (k, v) :: d' else (k', v') :: dict_set d' k v
  end.

Definition py_dict (pairs : list (string * Q)) : list (string * Q) :=
  foldl (λ d p, dict_set d p.1 p.2) [] pairs.

Section Reports.

Context `{R : Reporting} `{M : Matplotlib}.

(** [for i, row_list in enumerate(ldamodel[corpus])]: only the first pair
    of the sorted row passes [j == 0], and a document without pairs adds
    no row. *)
Fixpoint dominant_loop (ldamodel : lda) (rows : list inference)
    (sent_topics_df : list (Z * Q * string)) : list (Z * Q * string) :=
  match rows with
  | [] => sent_topics_df
  | row_list :: rows' =>
      let row := selected_row row_list in
      let row := sorted_by_score row in
      match row with
      | [] => dominant_loop ldamodel rows' sent_topics_df
      | (topic_num, prop_topic) :: _ =>
          let wp := show_topic ldamodel topic_num in
          let topic_keywords := py_join ", " wp.*1 in
          dominant_loop ldamodel rows'
            (sent_topics_df ++ [(topic_num, round4 prop_topic, topic_keywords)])
      end
  end.

(** Naming the three columns of a frame that has none, because no row was
    appended, is refused. *)
Definition format_topics_sentences (ldamodel : lda) (corpus : list bow)
    (data : list (list string)) : result (list dominant_row) :=
  let sent_topics_df := dominant_loop ldamodel (lda_apply ldamodel corpus) [] in
  match sent_topics_df with
  | [] => Raise ValueError
  | _ => Ok (concat_columns sent_topics_df data)
  end.

(** *** Word counts per dominant topic ([makeWordsPerDocVisualization]) *)

(** [[len(d) for d in df_dominant_topic_sub.Text]]: a missing text has no
    length. *)
Fixpoint doc_lens_of (sub : list dominant_row) : result (list nat) :=
  match sub with
  | [] => Ok []
  | r :: sub' =>
      match Text_ r with
      | None => Raise TypeError
      | Some d => lens ← doc_lens_of sub'; Ok (length d :: lens)
      end
  end.

(** The body of the loop over the axes of one figure. *)
Definition histogram_axes_at (df_dominant_topic : list dominant_row)
    (cols : list string) (idx : Z) : result histogram_axes :=
  let df_dominant_topic_sub :=
    filter (λ r, Dominant_Topic r = Some idx) df_dominant_topic in
  doc_lens ← doc_lens_of df_dominant_topic_sub;
  k ← py_mod idx (Z.of_nat (length cols));
  color ← py_getitem cols k;
  Ok (mkHistogramAxes ("Topic: " +:+ pretty idx) color doc_lens
                      (bool_decide (1 < length doc_lens)%nat)).

(** The two figures, each the list of its six axes. *)
Definition makeWordsPerDocVisualization
    (df_dominant_topic : list dominant_row)
  : result (list (list histogram_axes)) :=
  let cols := TABLEAU_COLORS.*2 in
  for_each (λ j,
    for_each (λ i, let idx := i + j * 6 in
                   histogram_axes_at df_dominant_topic cols idx)
             (py_range 6))
    (py_range 2).

(** *** Word clouds ([makeWordCloudVisualization]) *)

(** [cloud.generate_from_frequencies(frequencies, max_font_size=300)] for a
    cloud made with [max_words] and [color_func]: a dict without any word
    is refused with [ValueError] (at least 1 word is needed to plot a word
    cloud), before anything is laid out. *)
Definition generate_from_frequencies `{W : WordCloudLib} (max_words : nat)
    (color_func : result string) (frequencies : list (string * Q))
  : result cloud_image :=
  match frequencies with
  | [] => Raise ValueError
  | _ :: _ => cloud_layout max_words frequencies color_func
  end.

(** The body of the loop over the axes of one figure.  The colour function
    of the cloud is [lambda *args, **kwargs: cols[i]]: it reads [cols] at
    [i], the position of the axes in its figure at the time the cloud is
    generated, where the topic is the one listed at [idx]. *)
Definition cloud_axes_at `{W : WordCloudLib}
    (topics : list (Z * list (string * Q))) (cols : list string)
    (words_in_cloud : nat) (i idx : Z) : result cloud_axes :=
  topic ← py_getitem topics idx;
  let topic_words := py_dict topic.2 in
  image ← generate_from_frequencies words_in_cloud (py_getitem cols i)
                                    topic_words;
  Ok (mkCloudAxes ("Topic " +:+ pretty idx) image).

(** The three figures, each the list of its four clouds. *)
Definition makeWordCloudVisualization `{W : WordCloudLib} (lda_model : lda)
    (words_in_cloud : nat) : result (list (list cloud_axes)) :=
  let cols := TABLEAU_COLORS.*2 in
  let topics := show_topics lda_model 12 words_in_cloud in
  for_each (λ j,
    for_each (λ i, let idx := i + j * 4 in
                   cloud_axes_at topics cols words_in_cloud i idx)
             (py_range 4))
    (py_range 3).

End Reports.

(** ** Run everything (the first lines of the script) *)

(** The data, the two models and the two matrices, up to the calls of
    [cluster] and [train_]: the matrices and the labels handed to them.
    [e] and [e_test] are the ambient random states at the two trainings. *)
Definition main_features `{G : Gensim} `{S : Sheeple} (e e_test : entropy)
  : result (list (list Q) * list (list Q) * list Z * list Z) :=
  '(data, target) ← getDataHayle true;
  '(dataTest, targetTest) ← getDataHayle false;
  '(lda_model, corpus, id2word) ← buildModel e data;
  '(lda_model_test, corpus_test, id2word_test) ← buildModel e_test dataTest;
  mat ← getLDATopicDistMatrix lda_model corpus data;
  matTest ← getLDATopicDistMatrix lda_model_test corpus_test dataTest;
  Ok (mat, matTest, target, targetTest).

(** ** The reporting methods of the small library *)

Module SmallReport.

(** Each topic lists the vocabulary from its own position on. *)
Definition topic_words (m : Small.model) (t : Z) : list (string * Q) :=
  (λ w, (w, 0.125%Q)) <$> drop (Z.to_nat t) (id2word (Small.model_args m)).

Definition listed_topics (m : Small.model) (n w : nat)
  : list (Z * list (string * Q)) :=
  (λ k, (Z.of_nat k, take w (topic_words m (Z.of_nat k))))
    <$> seq 0 (n `min` num_topics (Small.model_args m)).

Definition infer_all (m : Small.model) (corpus : list bow) : list inference :=
  Small.infer m <$> corpus.

#[export] Instance reporting : @Reporting Small.gensim :=
  @Build_Reporting Small.gensim listed_topics
    (λ m t, take 10 (topic_words m t)) infer_all Qred.

End SmallReport.

(** ** A small word cloud library *)

Module SmallCloud.

(** The image is the colour and the words drawn.  As in the library, the
    words are cut at [max_words] and the first one is then needed. *)
Definition layout (max_words : nat) (frequencies : list (string * Q))
    (color_func : result string) : result (string * list string) :=
  match take max_words frequencies with
  | [] => Raise IndexError
  | words => color ← color_func; Ok (color, words.*1)
  end.

#[export] Instance wordcloud : WordCloudLib := {|
  cloud_image := string * list string;
  cloud_layout := layout
|}.

(** Models over a vocabulary of twelve words, so that each of the first
    twelve topics lists a word: one of twelve topics, one of five. *)
Definition args_wide (num_topics : nat) : LdaArgs (list string) :=
  {| corpus := [];
     id2word := ["ant"; "bee"; "cat"; "dog"; "eel"; "fox"; "gnu"; "hen";
                 "ibis"; "jay"; "kiwi"; "lynx"];
     num_topics := num_topics; random_state := Some 100; update_every := 1;
     chunksize := 100; passes := 10; alpha := "auto";
     per_word_topics := true |}.

Definition lda_wide : Small.model := Small.mkModel (args_wide 12) 100.

Definition lda_five : Small.model := Small.mkModel (args_wide 5) 100.

End SmallCloud.

(** ** Notions for the reports *)

(** The line a document adds to the table of dominant topics, none when
    inference gives it no pair. *)
Definition dominant_line `{R : Reporting} (ldamodel : lda)
    (row_list : inference) : option (Z * Q * string) :=
  match sorted_by_score (selected_row row_list) with
  | [] => None
  | (topic_num, prop_topic) :: _ =>
      Some (topic_num, round4 prop_topic,
            py_join ", " (show_topic ldamodel topic_num).*1)
  end.

(** The reporting methods of the second small library. *)
Module EchoReport.

Definition topic_words (m : Echo.model) (t : Z) : list (string * Q) :=
  (λ w, (w, 0.5%Q)) <$> take 2 (drop (Z.to_nat t) (Echo.model_words m)).

Definition listed_topics (m : Echo.model) (n w : nat)
  : list (Z * list (string * Q)) :=
  (λ k, (Z.of_nat k, take w (topic_words m (Z.of_nat k))))
    <$> seq 0 (n `min` Echo.model_topics m).

Definition infer_all (m : Echo.model) (corpus : list bow) : list inference :=
  Echo.infer m <$> corpus.

#[export] Instance reporting : @Reporting Echo.gensim :=
  @Build_Reporting Echo.gensim listed_topics topic_words infer_all Qred.

End EchoReport.

(** ** Documents the chart can draw *)

(** What [sentences_chart] needs of a document to draw it with [n]
    colours: per-word inference, a vocabulary entry for every word that has
    a topic, and a dominant topic that is a position of the colour list. *)
Definition chartable `{G : Gensim} (lda_model : lda) (n : nat) (doc : bow)
  : Prop :=
  ∃ tp wt phi t,
    lda_getitem lda_model doc = PerWord tp wt phi ∧
    Forall (λ p, p.2 ≠ [] →
                 is_Some (dictionary_getitem (lda_id2word lda_model) p.1)) wt ∧
    dominant_topic tp = Ok t ∧
    - Z.of_nat n ≤ t < Z.of_nat n.

(** * Properties *)

(** A [Forall] over a list written out in full, element by element. *)
Ltac concrete_Forall tac :=
  repeat (apply List.Forall_cons; [simpl; tac|]); apply List.Forall_nil.

(** ** Indexing *)

Lemma bind_Ok {A B} (a : A) (f : A → result B) : Ok a ≫= f = f a.
Proof. reflexivity. Qed.

Lemma py_index_nonneg {A} (l : list A) (i : Z) :
  0 ≤ i < Z.of_nat (length l) → py_index l i = Some (Z.to_nat i).
Proof. intros Hi. unfold py_index. by rewrite decide_True. Qed.

Lemma py_index_beyond {A} (l : list A) (i : Z) :
  Z.of_nat (length l) ≤ i → py_index l i = None.
Proof.
  intros Hi. unfold py_index.
  rewrite decide_False by lia. by rewrite decide_False by lia.
Qed.

Lemma py_index_lt {A} (l : list A) (i : Z) (k : nat) :
  py_index l i = Some k → (k < length l)%nat.
Proof.
  unfold py_index. intros Hk.
  repeat case_decide; simplify_eq; lia.
Qed.

Lemma py_getitem_nonneg {A} (l : list A) (i : nat) (x : A) :
  l !! i = Some x → py_getitem l (Z.of_nat i) = Ok x.
Proof.
  intros Hx. unfold py_getitem.
  rewrite py_index_nonneg by (apply lookup_lt_Some in Hx; lia).
  by rewrite Nat2Z.id, Hx.
Qed.

Lemma py_getitem_beyond {A} (l : list A) (i : Z) :
  Z.of_nat (length l) ≤ i → py_getitem l i = Raise IndexError.
Proof. intros Hi. unfold py_getitem. by rewrite py_index_beyond. Qed.

Lemma py_setitem_nonneg {A} (l : list A) (i : Z) (x : A) :
  0 ≤ i < Z.of_nat (length l) →
  py_setitem l i x = Ok (<[Z.to_nat i := x]> l).
Proof. intros Hi. unfold py_setitem. by rewrite py_index_nonneg. Qed.

(** ** Filling one row *)

Lemma fill_scores_defined (pairs : topic_dist) (row : list Q) :
  Forall (λ p, 0 ≤ p.1 < Z.of_nat (length row)) pairs →
  ∃ row', fill_scores row pairs = Ok row' ∧ length row' = length row.
Proof.
  revert row. induction pairs as [|[tp score] rest IH]; intros row Hin.
  - by exists row.
  - apply Forall_cons in Hin as [Htp Hrest]. simpl in Htp. simpl.
    rewrite py_setitem_nonneg by done. simpl.
    destruct (IH (<[Z.to_nat tp := score]> row)) as (row' & Hfill & Hlen).
    { by rewrite length_insert. }
    exists row'. split; [done|]. by rewrite Hlen, length_insert.
Qed.

(** A column none of the pairs names keeps what it held. *)
Lemma fill_scores_untouched (pairs : topic_dist) (row row' : list Q) (t : nat) :
  Forall (λ p, 0 ≤ p.1) pairs →
  fill_scores row pairs = Ok row' →
  Z.of_nat t ∉ pairs.*1 →
  row' !! t = row !! t.
Proof.
  revert row. induction pairs as [|[tp score] rest IH]; intros row Hpos Hfill Ht.
  - simpl in Hfill. by simplify_eq.
  - apply Forall_cons in Hpos as [Htp Hrest]. simpl in Htp.
    simpl in Hfill, Ht. apply not_elem_of_cons in Ht as [Hne Ht].
    unfold py_setitem in Hfill.
    destruct (py_index row tp) as [k|] eqn:Hk; [|done]. simpl in Hfill.
    rewrite (IH _ Hrest Hfill Ht).
    apply list_lookup_insert_ne.
    unfold py_index in Hk. repeat case_decide; simplify_eq; lia.
Qed.

(** With distinct topic ids, the column of a pair holds its proportion. *)
Lemma fill_scores_written (pairs : topic_dist) (row row' : list Q)
    (tp : Z) (score : Q) :
  Forall (λ p, 0 ≤ p.1 < Z.of_nat (length row)) pairs →
  NoDup pairs.*1 →
  fill_scores row pairs = Ok row' →
  (tp, score) ∈ pairs →
  row' !! Z.to_nat tp = Some score.
Proof.
  revert row. induction pairs as [|[tp0 score0] rest IH];
    intros row Hin Hnd Hfill Hel.
  - by apply elem_of_nil in Hel.
  - apply Forall_cons in Hin as [Htp Hrest]. simpl in Htp.
    simpl in Hnd. apply NoDup_cons in Hnd as [Hfresh Hnd].
    simpl in Hfill. rewrite py_setitem_nonneg in Hfill by done.
    simpl in Hfill.
    apply elem_of_cons in Hel as [Heq|Hel].
    + simplify_eq.
      rewrite (fill_scores_untouched rest (<[Z.to_nat tp0 := score0]> row)
                 row' (Z.to_nat tp0)); [| |done|].
      * apply list_lookup_insert_eq. lia.
      * eapply Forall_impl; [exact Hrest|]. simpl. intros; lia.
      * by rewrite Z2Nat.id by lia.
    + eapply IH; [|done|exact Hfill|done].
      by rewrite length_insert.
Qed.

(** Every entry of the filled row was in the row or is a proportion. *)
Lemma fill_scores_entries (pairs : topic_dist) (row row' : list Q)
    (t : nat) (x : Q) :
  fill_scores row pairs = Ok row' →
  row' !! t = Some x →
  row !! t = Some x ∨ x ∈ pairs.*2.
Proof.
  revert row. induction pairs as [|[tp score] rest IH]; intros row Hfill Hx.
  - simpl in Hfill. simplify_eq. by left.
  - simpl in Hfill. unfold py_setitem in Hfill.
    destruct (py_index row tp) as [k|] eqn:Hk; [|done]. simpl in Hfill.
    destruct (IH _ Hfill Hx) as [Hrow|Hrest].
    + destruct (decide (k = t)) as [->|Hne].
      * rewrite list_lookup_insert_eq in Hrow
          by (by apply py_index_lt in Hk).
        simplify_eq. right. simpl. apply elem_of_cons. by left.
      * rewrite list_lookup_insert_ne in Hrow by done. by left.
    + right. simpl. apply elem_of_cons. by right.
Qed.

Lemma np_zeros_lookup (n t : nat) (x : Q) :
  np_zeros n !! t = Some x → x = 0%Q.
Proof. unfold np_zeros. intros Hx. by apply lookup_replicate in Hx as [-> _]. Qed.

Lemma np_zeros_length (n : nat) : length (np_zeros n) = n.
Proof. apply length_replicate. Qed.

(** ** The rows of the matrix *)

Section MatrixFacts.

Context `{G : Gensim}.

Lemma topic_row_defined (lda_model : lda) (doc : bow) :
  inference_in_range lda_model doc →
  ∃ row, topic_row lda_model doc = Ok row ∧
         length row = lda_num_topics lda_model.
Proof.
  intros (tp & wt & phi & Hinf & Hin). unfold topic_row. rewrite Hinf. simpl.
  destruct (fill_scores_defined tp (np_zeros (lda_num_topics lda_model)))
    as (row & Hfill & Hlen).
  { by rewrite np_zeros_length. }
  exists row. split; [done|]. by rewrite Hlen, np_zeros_length.
Qed.

(** The loop appends one row per document, in order, or raises what the
    first failing document raises. *)
Lemma matrix_loop_rows (lda_model : lda) (docs : list bow)
    (topic_matrix : list (list Q)) :
  Forall (λ doc, ∃ row, topic_row lda_model doc = Ok row) docs →
  ∃ rows, matrix_loop lda_model docs topic_matrix = Ok (topic_matrix ++ rows) ∧
          Forall2 (λ doc row, topic_row lda_model doc = Ok row) docs rows.
Proof.
  revert topic_matrix.
  induction docs as [|doc rest IH]; intros topic_matrix Hall.
  - exists []. split; [|constructor]. simpl. by rewrite app_nil_r.
  - apply Forall_cons in Hall as [[row Hrow] Hrest].
    destruct (IH (topic_matrix ++ [row]) Hrest) as (rows & Hloop & Hrows).
    exists (row :: rows). split; [|by constructor].
    simpl. rewrite Hrow. simpl. rewrite Hloop. by rewrite <- app_assoc.
Qed.

Lemma matrix_defined {D : Type} (lda_model : lda) (corpus : list bow)
    (data : D) :
  (∀ doc, doc ∈ corpus → inference_in_range lda_model doc) →
  ∃ topic_matrix,
    getLDATopicDistMatrix lda_model corpus data = Ok topic_matrix ∧
    Forall2 (λ doc row, topic_row lda_model doc = Ok row) corpus topic_matrix.
Proof.
  intros Hin. unfold getLDATopicDistMatrix.
  destruct (matrix_loop_rows lda_model corpus []) as (rows & Hloop & Hrows).
  - apply Forall_forall. intros doc Hdoc.
    destruct (topic_row_defined lda_model doc (Hin doc Hdoc)) as (row & ? & _).
    by exists row.
  - by exists rows.
Qed.

End MatrixFacts.

(** C1.  For a model whose inference gives, on each document of the corpus,
    the per-word triple with distinct topic ids below K and proportions in
    [0,1]: the matrix is built, and the row of each document has exactly
    K = lda_model.num_topics entries; the column of each returned
    (topic id, proportion) pair holds that proportion, every column no
    pair names is exactly 0, and every entry is in [0,1]. *)
Theorem topic_row_entries `{G : Gensim} {D : Type}
    (lda_model : lda) (corpus : list bow) (data : D) :
  (∀ doc, doc ∈ corpus →
     inference_in_range lda_model doc ∧
     ∀ tp wt phi, lda_getitem lda_model doc = PerWord tp wt phi →
       NoDup tp.*1 ∧ Forall (λ p, (0 <= p.2 <= 1)%Q) tp) →
  ∃ topic_matrix,
    getLDATopicDistMatrix lda_model corpus data = Ok topic_matrix ∧
    ∀ i doc tp wt phi,
      corpus !! i = Some doc →
      lda_getitem lda_model doc = PerWord tp wt phi →
      ∃ row,
        topic_matrix !! i = Some row ∧
        length row = lda_num_topics lda_model ∧
        (∀ t score, (t, score) ∈ tp → row !! Z.to_nat t = Some score) ∧
        (∀ t, (t < lda_num_topics lda_model)%nat → Z.of_nat t ∉ tp.*1 →
              row !! t = Some 0%Q) ∧
        (∀ t x, row !! t = Some x → (0 <= x <= 1)%Q).
Proof.
  intros Hlib.
  destruct (matrix_defined lda_model corpus data) as (M & HM & Hrows).
  { intros doc Hdoc. by apply Hlib. }
  exists M. split; [done|].
  intros i doc tp wt phi Hdoc Hinf.
  destruct (Forall2_lookup_l _ _ _ _ _ Hrows Hdoc) as (row & Hrow & Hfill).
  assert (doc ∈ corpus) as Hel by (by eapply list_elem_of_lookup_2).
  destruct (Hlib doc Hel) as [(tp' & wt' & phi' & Hinf' & Hin) Hdist].
  rewrite Hinf in Hinf'. symmetry in Hinf'. simplify_eq.
  destruct (Hdist _ _ _ Hinf) as [Hnd Hprops].
  unfold topic_row in Hfill. rewrite Hinf in Hfill. simpl in Hfill.
  set (K := lda_num_topics lda_model) in *.
  assert (Forall (λ p, 0 ≤ p.1 < Z.of_nat (length (np_zeros K))) tp) as Hin'.
  { by rewrite np_zeros_length. }
  destruct (fill_scores_defined tp (np_zeros K) Hin') as (row' & Hfill' & Hlen).
  rewrite Hfill in Hfill'. simplify_eq.
  exists row'. split; [done|]. split; [by rewrite Hlen, np_zeros_length|].
  split; [|split].
  - intros t score Hts. by eapply fill_scores_written.
  - intros t Ht Hfresh.
    rewrite (fill_scores_untouched tp (np_zeros K) row' t); [|  |done|done].
    + unfold np_zeros. by apply lookup_replicate_2.
    + eapply Forall_impl; [exact Hin|]. simpl. intros; lia.
  - intros t x Hx.
    destruct (fill_scores_entries _ _ _ _ _ Hfill Hx) as [Hzero|Hprop].
    + apply np_zeros_lookup in Hzero. subst x. split; by compute.
    + apply list_elem_of_fmap in Hprop as (p & -> & Hp).
      by apply (proj1 (Forall_forall _ _) Hprops p).
Qed.

Lemma topic_row_entries_witness :
  ∃ topic_matrix,
    getLDATopicDistMatrix (Small.lda12 Small.corpus6)
                          Small.corpus6 () = Ok topic_matrix ∧
    ∀ i doc tp wt phi,
      Small.corpus6 !! i = Some doc →
      lda_getitem (Small.lda12 Small.corpus6) doc
        = PerWord tp wt phi →
      ∃ row,
        topic_matrix !! i = Some row ∧
        length row = 12%nat ∧
        (∀ t score, (t, score) ∈ tp → row !! Z.to_nat t = Some score) ∧
        (∀ t, (t < 12)%nat → Z.of_nat t ∉ tp.*1 → row !! t = Some 0%Q) ∧
        (∀ t x, row !! t = Some x → (0 <= x <= 1)%Q).
Proof.
  apply (topic_row_entries (G := Small.gensim)).
  intros doc Hdoc.
  apply list_elem_of_In in Hdoc. simpl in Hdoc.
  destruct Hdoc as [<-|[<-|[]]].
  - split.
    + eexists _, _, _. split; [by vm_compute|]. concrete_Forall lia.
    + intros tp wt phi Hinf. vm_compute in Hinf. simplify_eq. split.
      * apply NoDup_ListNoDup. repeat constructor; simpl; intuition lia.
      * concrete_Forall ltac:(by compute).
  - split.
    + eexists _, _, _. split; [by vm_compute|]. concrete_Forall lia.
    + intros tp wt phi Hinf. vm_compute in Hinf. simplify_eq. split.
      * apply NoDup_ListNoDup. repeat constructor; simpl; intuition lia.
      * concrete_Forall ltac:(by compute).
Defined.

(** C10.  The matrix depends on the model and the corpus only: whatever is
    passed for [data], of whatever type, the result is the same. *)
Theorem getLDATopicDistMatrix_ignores_data `{G : Gensim} {D1 D2 : Type}
    (lda_model : lda) (corpus : list bow) (d1 : D1) (d2 : D2) :
  getLDATopicDistMatrix lda_model corpus d1
  = getLDATopicDistMatrix lda_model corpus d2.
Proof. reflexivity. Qed.

(** ** Rows against documents *)

(** C2.  When inference stays in range on every document of the corpus, the
    matrix has one row per document, in the order of the corpus, row i
    being the row built from document i; and the corpus [buildModel]
    returns has one bag of words per document it was given, in order.
    [buildModel] returns whenever a document has a token; otherwise the
    trainer refuses the empty vocabulary with [ValueError]. *)
Theorem matrix_rows_follow_corpus `{G : Gensim} {D : Type}
    (lda_model : lda) (corpus : list bow) (data : D) :
  (∀ doc, doc ∈ corpus → inference_in_range lda_model doc) →
  (∃ topic_matrix,
     getLDATopicDistMatrix lda_model corpus data = Ok topic_matrix ∧
     length topic_matrix = length corpus ∧
     ∀ i doc, corpus !! i = Some doc →
       ∃ row, topic_matrix !! i = Some row ∧
              topic_row lda_model doc = Ok row) ∧
  (∀ (e : entropy) (texts : list (list string)),
     match buildModel e texts with
     | Ok (_, corpus', id2word') =>
         length corpus' = length texts ∧
         ∀ i text, texts !! i = Some text →
           corpus' !! i = Some (doc2bow id2word' text)
     | Raise ex => ex = ValueError ∧ no_terms texts
     end).
Proof.
  intros Hlib. split.
  - destruct (matrix_defined lda_model corpus data Hlib) as (M & HM & Hrows).
    exists M. split; [done|]. split.
    + symmetry. by eapply Forall2_length.
    + intros i doc Hdoc.
      destruct (Forall2_lookup_l _ _ _ _ _ Hrows Hdoc) as (row & ? & ?).
      by exists row.
  - intros e texts. unfold buildModel.
    destruct (decide (no_terms texts)) as [Hnone|Hsome]; simpl; [done|].
    split.
    + by rewrite length_fmap.
    + intros i text Htext. by rewrite list_lookup_fmap, Htext.
Qed.

Lemma matrix_rows_follow_corpus_witness :
  (∃ topic_matrix,
     getLDATopicDistMatrix (Small.lda12 Small.corpus6) Small.corpus6 ()
       = Ok topic_matrix ∧
     length topic_matrix = 2%nat ∧
     ∀ i doc, Small.corpus6 !! i = Some doc →
       ∃ row, topic_matrix !! i = Some row ∧
              topic_row (Small.lda12 Small.corpus6) doc = Ok row) ∧
  (∀ (e : Z) (texts : list (list string)),
     match buildModel (G := Small.gensim) e texts with
     | Ok (_, corpus', id2word') =>
         length corpus' = length texts ∧
         ∀ i text, texts !! i = Some text →
           corpus' !! i = Some (Small.count_terms id2word' text)
     | Raise ex => ex = ValueError ∧ no_terms texts
     end).
Proof.
  apply (matrix_rows_follow_corpus (G := Small.gensim)).
  intros doc Hdoc.
  apply list_elem_of_In in Hdoc. simpl in Hdoc.
  destruct Hdoc as [<-|[<-|[]]].
  - eexists _, _, _. split; [by vm_compute|]. concrete_Forall lia.
  - eexists _, _, _. split; [by vm_compute|]. concrete_Forall lia.
Defined.

(** C6.  [buildModel] calls the trainer with 12 topics, seed 100, 10 passes,
    chunks of 100 documents and the automatic prior, on the corpus and the
    vocabulary it builds from its input, and returns the trained model
    with that corpus and that vocabulary.  This is what happens whenever a
    document has a token; on an input without any token the vocabulary is
    empty, the trainer refuses it and [buildModel] raises [ValueError]. *)
Theorem buildModel_hyperparameters `{G : Gensim}
    (e : entropy) (data : list (list string)) :
  ∃ args : LdaArgs dictionary,
    id2word args = Dictionary data ∧
    corpus args = doc2bow (Dictionary data) <$> data ∧
    num_topics args = 12%nat ∧
    random_state args = Some 100 ∧
    passes args = 10 ∧
    chunksize args = 100 ∧
    alpha args = "auto" ∧
    (¬ no_terms data →
     buildModel e data = Ok (LdaModel e args, corpus args, id2word args)) ∧
    (no_terms data → buildModel e data = Raise ValueError).
Proof.
  eexists (mkLdaArgs _ _ _ _ _ _ _ _ _). repeat split.
  - intros Hsome. unfold buildModel. by rewrite decide_False.
  - intros Hnone. unfold buildModel. by rewrite decide_True.
Qed.

Lemma buildModel_hyperparameters_witness :
  (∃ args : LdaArgs (list string),
     buildModel (G := Small.gensim) 0 [["cat"; "dog"]; ["car"]]
     = Ok (LdaModel (Gensim := Small.gensim) 0 args, corpus args,
           id2word args) ∧
     id2word args = ["cat"; "dog"; "car"] ∧
     corpus args = [[(0, 1); (1, 1)]; [(2, 1)]] ∧
     num_topics args = 12%nat ∧
     random_state args = Some 100 ∧
     passes args = 10 ∧
     chunksize args = 100 ∧
     alpha args = "auto") ∧
  buildModel (G := Small.gensim) 0 [[]; []] = Raise ValueError.
Proof.
  split.
  - destruct (buildModel_hyperparameters (G := Small.gensim) 0
                [["cat"; "dog"]; ["car"]])
      as (args & Hwords & Hcorpus & Htopics & Hseed & Hpasses & Hchunk
          & Halpha & Hreturns & _).
    exists args. split; [by apply Hreturns|].
    split; [exact Hwords|]. split; [exact Hcorpus|]. done.
  - destruct (buildModel_hyperparameters (G := Small.gensim) 0 [[]; []])
      as (args & _ & _ & _ & _ & _ & _ & _ & _ & Hraises).
    by apply Hraises.
Defined.

(** C8.  With a trainer that honours its seed, two runs of [buildModel] on
    the same tokenized corpus give the same model, corpus and vocabulary,
    whatever the ambient random state of each run. *)
Theorem buildModel_deterministic (G : Gensim)
    (e1 e2 : entropy) (data : list (list string)) :
  honours_seed G →
  buildModel e1 data = buildModel e2 data.
Proof.
  intros Hseed. unfold buildModel.
  destruct (decide (no_terms data)); [done|].
  simpl. do 3 f_equal. by apply Hseed.
Qed.

(** The small trainer does consult the ambient state when it has no
    seed: honouring the seed is what makes the runs agree. *)
Lemma unseeded_runs_differ :
  let args := mkLdaArgs [] [] 12 None 1 100 10 "auto" true in
  LdaModel (Gensim := Small.gensim) 1 args
  ≠ LdaModel (Gensim := Small.gensim) 2 args.
Proof. intros args Heq. by injection Heq. Qed.

Lemma buildModel_deterministic_witness :
  buildModel (G := Small.gensim) 1 [["cat"; "dog"]; ["car"]]
  = buildModel (G := Small.gensim) 2 [["cat"; "dog"]; ["car"]].
Proof.
  apply (buildModel_deterministic Small.gensim).
  intros e1 e2 args Hseed.
  cbv [LdaModel dictionary entropy Small.gensim] in *.
  destruct (random_state args); [reflexivity|done].
Defined.

(** ** The mass of a row *)

Lemma Qsum_cons (x : Q) (l : list Q) : Qsum (x :: l) = (x + Qsum l)%Q.
Proof. reflexivity. Qed.

Lemma Qsum_insert (l : list Q) (k : nat) (old x : Q) :
  l !! k = Some old → (Qsum (<[k := x]> l) == Qsum l - old + x)%Q.
Proof.
  revert k. induction l as [|y l IH]; intros k Hk; [done|].
  destruct k as [|k].
  - injection Hk as ->. change (<[0%nat := x]> (old :: l)) with (x :: l).
    rewrite !Qsum_cons. ring.
  - change (<[S k := x]> (y :: l)) with (y :: <[k := x]> l).
    rewrite !Qsum_cons, (IH k Hk). ring.
Qed.

Lemma Qsum_zeros (n : nat) : (Qsum (np_zeros n) == 0)%Q.
Proof.
  unfold np_zeros. induction n as [|n IH]; [reflexivity|].
  change (replicate (S n) 0%Q) with (0%Q :: replicate n 0%Q).
  rewrite Qsum_cons, IH. ring.
Qed.

(** Writing distinct pairs into columns that hold 0 adds exactly their
    proportions to the sum of the row. *)
Lemma fill_scores_sum (pairs : topic_dist) (row row' : list Q) :
  Forall (λ p, 0 ≤ p.1 < Z.of_nat (length row)) pairs →
  NoDup pairs.*1 →
  (∀ p, p ∈ pairs → row !! Z.to_nat p.1 = Some 0%Q) →
  fill_scores row pairs = Ok row' →
  (Qsum row' == Qsum row + Qsum pairs.*2)%Q.
Proof.
  revert row. induction pairs as [|[tp score] rest IH];
    intros row Hin Hnd Hzero Hfill.
  - simpl in *. simplify_eq. ring.
  - apply Forall_cons in Hin as [Htp Hrest]. simpl in Htp.
    simpl in Hnd. apply NoDup_cons in Hnd as [Hfresh Hnd].
    simpl in Hfill. rewrite py_setitem_nonneg in Hfill by done.
    simpl in Hfill.
    rewrite (IH (<[Z.to_nat tp := score]> row)); [| |done| |done].
    + rewrite (Qsum_insert row (Z.to_nat tp) 0%Q score).
      * change (((tp, score) :: rest).*2) with (score :: rest.*2).
        rewrite Qsum_cons. ring.
      * apply (Hzero (tp, score)). apply elem_of_cons. by left.
    + by rewrite length_insert.
    + intros [tp' score'] Hp.
      rewrite list_lookup_insert_ne.
      * apply (Hzero (tp', score')). apply elem_of_cons. by right.
      * simpl. intros Heq.
        apply (proj1 (Forall_forall _ _) Hrest) in Hp as Hr. simpl in Hr.
        assert (tp = tp') as -> by lia.
        apply Hfresh. apply list_elem_of_fmap. by exists (tp', score').
Qed.

(** C7.  For a document whose inferred pairs have distinct topic ids and
    nonnegative proportions that sum to at most 1, the row of the matrix
    has nonnegative entries, the same sum as the pairs, and so a sum of at
    most 1: the fill adds no mass. *)
Theorem topic_row_mass `{G : Gensim} {D : Type}
    (lda_model : lda) (corpus : list bow) (data : D) :
  (∀ doc, doc ∈ corpus → inference_in_range lda_model doc) →
  ∃ topic_matrix,
    getLDATopicDistMatrix lda_model corpus data = Ok topic_matrix ∧
    ∀ i doc tp wt phi,
      corpus !! i = Some doc →
      lda_getitem lda_model doc = PerWord tp wt phi →
      NoDup tp.*1 →
      Forall (λ p, (0 <= p.2)%Q) tp →
      (Qsum tp.*2 <= 1)%Q →
      ∃ row,
        topic_matrix !! i = Some row ∧
        (∀ t x, row !! t = Some x → (0 <= x)%Q) ∧
        (Qsum row == Qsum tp.*2)%Q ∧
        (Qsum row <= 1)%Q.
Proof.
  intros Hlib.
  destruct (matrix_defined lda_model corpus data Hlib) as (M & HM & Hrows).
  exists M. split; [done|].
  intros i doc tp wt phi Hdoc Hinf Hnd Hpos Hmass.
  destruct (Forall2_lookup_l _ _ _ _ _ Hrows Hdoc) as (row & Hrow & Hfill).
  assert (doc ∈ corpus) as Hel by (by eapply list_elem_of_lookup_2).
  destruct (Hlib doc Hel) as (tp' & wt' & phi' & Hinf' & Hin).
  rewrite Hinf in Hinf'. symmetry in Hinf'. simplify_eq.
  unfold topic_row in Hfill. rewrite Hinf in Hfill. simpl in Hfill.
  set (K := lda_num_topics lda_model) in *.
  assert ((Qsum row == Qsum tp.*2)%Q) as Hsum.
  { rewrite (fill_scores_sum tp (np_zeros K) row); [| |done| |done].
    - rewrite Qsum_zeros. ring.
    - by rewrite np_zeros_length.
    - intros p Hp. unfold np_zeros. apply lookup_replicate_2.
      apply (proj1 (Forall_forall _ _) Hin) in Hp. simpl in Hp. lia. }
  exists row. split; [done|]. split; [|split; [done|by rewrite Hsum]].
  intros t x Hx.
  destruct (fill_scores_entries _ _ _ _ _ Hfill Hx) as [Hzero|Hprop].
  - apply np_zeros_lookup in Hzero. subst x. by compute.
  - apply list_elem_of_fmap in Hprop as (p & -> & Hp).
    by apply (proj1 (Forall_forall _ _) Hpos p).
Qed.

Lemma topic_row_mass_witness :
  ∃ topic_matrix row,
    getLDATopicDistMatrix (Small.lda12 Small.corpus6) Small.corpus6 ()
      = Ok topic_matrix ∧
    topic_matrix !! 1%nat = Some row ∧
    (Qsum row == 1)%Q ∧
    (Qsum row <= 1)%Q.
Proof.
  destruct (topic_row_mass (G := Small.gensim)
              (Small.lda12 Small.corpus6) Small.corpus6 ())
    as (M & HM & Hrows).
  { intros doc Hdoc.
    apply list_elem_of_In in Hdoc. simpl in Hdoc.
    destruct Hdoc as [<-|[<-|[]]].
    - eexists _, _, _. split; [by vm_compute|]. concrete_Forall lia.
    - eexists _, _, _. split; [by vm_compute|]. concrete_Forall lia. }
  destruct (Hrows 1%nat [(0, 4); (2, 2)] [(11, 0.25%Q); (10, 0.75%Q)]
              [(0, [10]); (2, [10])] [] eq_refl eq_refl)
    as (row & Hrow & _ & Hsum & Hle).
  - apply NoDup_ListNoDup. repeat constructor; simpl; intuition lia.
  - concrete_Forall ltac:(by compute).
  - by compute.
  - exists M, row. repeat split; [done|done| |done].
    rewrite Hsum. by compute.
Defined.

(** ** Documents and labels *)

(** The loop keeps, of the positions it visits, those whose tokenization
    is not empty, and appends document and label of each, in order. *)
Lemma getData_loop_lockstep (sentences : list (list string))
    (dats_target : list Z) (range : list nat)
    (data : list (list string)) (target : list Z) :
  Forall (λ i, (i < length sentences)%nat ∧ (i < length dats_target)%nat)
         range →
  ∃ kept labels,
    getData_loop sentences dats_target range data target
      = Ok (data ++ kept, target ++ labels) ∧
    Forall2 (λ i sentence, sentences !! i = Some sentence ∧ sentence ≠ [])
            (filter (λ i, sentences !! i ≠ Some []) range) kept ∧
    Forall2 (λ i label, dats_target !! i = Some label)
            (filter (λ i, sentences !! i ≠ Some []) range) labels.
Proof.
  revert data target.
  induction range as [|i range IH]; intros data target Hrange.
  - exists [], []. simpl. rewrite !app_nil_r. by repeat split; constructor.
  - apply Forall_cons in Hrange as [[Hs Hl] Hrange].
    apply lookup_lt_is_Some_2 in Hs as [sentence Hs].
    apply lookup_lt_is_Some_2 in Hl as [label Hl].
    simpl. rewrite (py_getitem_nonneg _ _ _ Hs). simpl.
    rewrite filter_cons.
    destruct (decide (sentence = [])) as [->|Hne].
    + rewrite bool_decide_false by (by intros ?).
      rewrite decide_False by (by rewrite Hs; intros ?).
      by apply IH.
    + rewrite bool_decide_true by done.
      rewrite decide_True by (rewrite Hs; congruence).
      rewrite (py_getitem_nonneg _ _ _ Hl). simpl.
      destruct (IH (data ++ [sentence]) (target ++ [label]) Hrange)
        as (kept & labels & Hloop & Hkept & Hlabels).
      exists (sentence :: kept), (label :: labels).
      rewrite Hloop, <- !app_assoc. by repeat split; constructor.
Qed.

(** C3.  [getDataHayle] keeps the documents whose tokenization is not empty
    and the labels at the same positions: the j-th document kept and the
    j-th label kept are those of the j-th surviving position, and the
    labels returned are the remapping of the labels kept, as many as the
    documents when the remapping keeps the length.  On the corpus
    ["cat dog cat", "car engine wheel", ""], two documents remain, the
    labels are those of the first two entries, and the topic matrix of the
    model built from them has two rows. *)
Theorem getDataHayle_lockstep (G : Gensim) (S : Sheeple) (getTrain : bool) :
  let dats := if getTrain then fetch_data.1 else fetch_data.2 in
  let sentences := sent_to_words (Bunch_data dats) in
  ((length (Bunch_data dats) ≤ length (Bunch_target dats))%nat →
   (∀ target, length (create_new_labels target) = length target) →
   ∃ data target,
     getDataHayle getTrain = Ok (data, create_new_labels target) ∧
     length data = length (create_new_labels target) ∧
     length data = length (surviving sentences) ∧
     length target = length (surviving sentences) ∧
     ∀ j i, surviving sentences !! j = Some i →
       ∃ sentence label,
         sentences !! i = Some sentence ∧ sentence ≠ [] ∧
         Bunch_target dats !! i = Some label ∧
         data !! j = Some sentence ∧ target !! j = Some label) ∧
  (∀ (l1 l2 l3 : Z),
     dats = mkBunch ["cat dog cat"; "car engine wheel"; ""] [l1; l2; l3] →
     let data := [["cat"; "dog"; "cat"]; ["car"; "engine"; "wheel"]] in
     getDataHayle getTrain = Ok (data, create_new_labels [l1; l2]) ∧
     ∀ e : entropy,
       ∃ lda_model corpus id2word,
         buildModel e data = Ok (lda_model, corpus, id2word) ∧
         ((∀ doc, doc ∈ corpus → inference_in_range lda_model doc) →
          ∃ topic_matrix,
            getLDATopicDistMatrix lda_model corpus data = Ok topic_matrix ∧
            length topic_matrix = 2%nat)).
Proof.
  intros dats sentences. split.
  - intros Hlen Hremap.
    destruct (getData_loop_lockstep sentences (Bunch_target dats)
                (seq 0 (length sentences)) [] [])
      as (data & target & Hloop & Hdata & Htarget).
    { apply Forall_forall. intros i Hi. apply elem_of_seq in Hi.
      unfold sentences, sent_to_words in *. rewrite length_fmap in *. lia. }
    fold (surviving sentences) in Hdata, Htarget.
    exists data, target. split; [|split; [|split; [|split]]].
    + unfold getDataHayle. fold dats. fold sentences. by rewrite Hloop.
    + rewrite Hremap.
      apply Forall2_length in Hdata, Htarget. congruence.
    + symmetry. by eapply Forall2_length.
    + symmetry. by eapply Forall2_length.
    + intros j i Hj.
      destruct (Forall2_lookup_l _ _ _ _ _ Hdata Hj) as (s & Hs & Hi & Hne).
      destruct (Forall2_lookup_l _ _ _ _ _ Htarget Hj) as (l & Hl & Hi').
      by exists s, l.
  - intros l1 l2 l3 Hdats data. split.
    + unfold getDataHayle. fold dats. by rewrite Hdats.
    + intros e. eexists _, _, _. split.
      * unfold buildModel. rewrite decide_False by done. reflexivity.
      * intros Hlib.
        destruct (matrix_defined _ _ data Hlib) as (M & HM & Hrows).
        exists M. split; [done|].
        apply Forall2_length in Hrows. by rewrite <- Hrows.
Qed.

Lemma getDataHayle_lockstep_witness :
  (∃ data target,
     getDataHayle (G := Small.gensim) (S := Small.sheeple) true
       = Ok (data, Small.relabel <$> target) ∧
     length data = length (Small.relabel <$> target) ∧
     length data = 2%nat ∧
     length target = 2%nat) ∧
  getDataHayle (G := Small.gensim) (S := Small.sheeple) true
    = Ok ([["cat"; "dog"; "cat"]; ["car"; "engine"; "wheel"]], [3; 3]) ∧
  ∃ lda_model corpus id2word topic_matrix,
    buildModel (G := Small.gensim) 0
      [["cat"; "dog"; "cat"]; ["car"; "engine"; "wheel"]]
    = Ok (lda_model, corpus, id2word) ∧
    getLDATopicDistMatrix lda_model corpus
      [["cat"; "dog"; "cat"]; ["car"; "engine"; "wheel"]]
      = Ok topic_matrix ∧
    length topic_matrix = 2%nat.
Proof.
  destruct (getDataHayle_lockstep Small.gensim Small.sheeple true)
    as [Hgeneral Hexample].
  split; [|split].
  - destruct Hgeneral as (data & target & Hrun & Hlabels & Hdata & Htarget & _).
    + simpl. lia.
    + intros target. apply length_fmap.
    + by exists data, target.
  - by destruct (Hexample 7 3 5 eq_refl) as [Hrun _].
  - destruct (Hexample 7 3 5 eq_refl) as [_ Hmatrix].
    destruct (Hmatrix 0) as (lda_model & corpus & id2word & Hbuilt & Hrows).
    vm_compute in Hbuilt. injection Hbuilt as <- <- <-.
    destruct Hrows as (topic_matrix & Hrun & Hlen).
    + intros doc Hdoc.
      apply list_elem_of_In in Hdoc. simpl in Hdoc.
      destruct Hdoc as [<-|[<-|[]]].
      * eexists _, _, _. split; [by vm_compute|]. concrete_Forall lia.
      * eexists _, _, _. split; [by vm_compute|]. concrete_Forall lia.
    + eexists _, _, _, topic_matrix. split; [by vm_compute|]. by split.
Defined.

(** ** The tokenizer *)















(** ** The tagged documents and the script *)

Lemma append_words_split (sentence : list string) (line : string) :
  append_words sentence line = sentence ++ str_split line.
Proof.
  unfold append_words. generalize (str_split line). intros ws.
  revert sentence. induction ws as [|w ws IH]; intros sentence; simpl.
  - by rewrite app_nil_r.
  - by rewrite IH, <- app_assoc.
Qed.

(** The loop appends one document per line, tagged with the counter. *)
Lemma tagged_loop_imap (lines : list string) (i : Z)
    (documents : list TaggedDocument) :
  tagged_loop lines i documents
  = documents ++
    imap (λ k line, mkTaggedDocument (str_split line) [i + Z.of_nat k]) lines.
Proof.
  revert i documents.
  induction lines as [|line lines IH]; intros i documents; simpl.
  - by rewrite app_nil_r.
  - rewrite IH, append_words_split, <- app_assoc. simpl.
    f_equal. f_equal; [by rewrite Z.add_0_r|].
    apply imap_ext. intros k line' _. simpl. do 2 f_equal. lia.
Qed.

(** C4, as the code has it.  When the vocabulary has its "data" entry, the
    script makes four calls: it creates a model of vector size 5, minimal
    count 5 and 20 epochs without handing it documents, builds the
    vocabulary from one tagged document per line (document i holding the
    words of line i and the single tag i, counted from 0), saves the model
    to the fixed absolute path and at once loads it from that same path.
    None of the calls runs training. *)
Theorem doc2vec_script_calls (S : Sheeple) (lines : list string) :
  vocab1 !! "data" = Some lines →
  ∃ train_data,
    doc2vec_script
      = Ok [ Doc2Vec_init None 5 5 20;
             Doc2Vec_build_vocab train_data;
             Doc2Vec_save d2v_model;
             Doc2Vec_load d2v_model ] ∧
    create_tagged_documents vocab1 = Ok train_data ∧
    length train_data = length lines ∧
    (∀ i line, lines !! i = Some line →
       train_data !! i
       = Some (mkTaggedDocument (str_split line) [Z.of_nat i])) ∧
    (∀ calls, doc2vec_script = Ok calls → ¬ trains calls).
Proof.
  intros Hdata.
  assert (create_tagged_documents vocab1
          = Ok (imap (λ k line, mkTaggedDocument (str_split line) [Z.of_nat k])
                     lines)) as Hdocs.
  { unfold create_tagged_documents. rewrite Hdata.
    by rewrite tagged_loop_imap. }
  eexists. split; [|split; [exact Hdocs|split; [|split]]].
  - unfold doc2vec_script. by rewrite Hdocs.
  - by rewrite length_imap.
  - intros i line Hline. by rewrite list_lookup_imap, Hline.
  - intros calls Hcalls. unfold doc2vec_script in Hcalls.
    rewrite Hdocs in Hcalls. simpl in Hcalls. simplify_eq.
    unfold trains. rewrite !Exists_cons, Exists_nil. simpl.
    intros [?|[?|[?|[?|[]]]]]; done.
Qed.

Lemma doc2vec_script_calls_witness :
  ∃ train_data,
    doc2vec_script (S := Small.sheeple)
      = Ok [ Doc2Vec_init None 5 5 20;
             Doc2Vec_build_vocab train_data;
             Doc2Vec_save d2v_model;
             Doc2Vec_load d2v_model ] ∧
    create_tagged_documents (vocab1 (Sheeple := Small.sheeple))
      = Ok train_data ∧
    length train_data = 3%nat ∧
    (∀ i line, ["hello  world"; "foo"; " bar baz "] !! i = Some line →
       train_data !! i
       = Some (mkTaggedDocument (str_split line) [Z.of_nat i])) ∧
    (∀ calls, doc2vec_script (S := Small.sheeple) = Ok calls → ¬ trains calls).
Proof.
  apply (doc2vec_script_calls Small.sheeple
           ["hello  world"; "foo"; " bar baz "]).
  by vm_compute.
Defined.

(** The script on the small vocabulary: no call of it runs training. *)
Lemma doc2vec_script_never_trains :
  ∃ calls,
    doc2vec_script (S := Small.sheeple) = Ok calls ∧ ¬ trains calls.
Proof.
  eexists. split; [by vm_compute|].
  unfold trains. rewrite !Exists_cons, Exists_nil. simpl.
  intros [?|[?|[?|[?|[]]]]]; done.
Qed.

(** ** The border colour of the sentence chart *)

Lemma py_getitem_in_range {A} (l : list A) (i : Z) :
  0 ≤ i < Z.of_nat (length l) →
  ∃ x, l !! Z.to_nat i = Some x ∧ py_getitem l i = Ok x.
Proof.
  intros Hi.
  destruct (lookup_lt_is_Some_2 l (Z.to_nat i)) as [x Hx]; [lia|].
  exists x. split; [done|].
  rewrite <- (Z2Nat.id i) by lia. by apply py_getitem_nonneg.
Qed.

Section ChartFacts.

Context `{G : Gensim} `{M : Matplotlib}.

(** The words are coloured modulo the number of colours, which never
    fails as long as there is a colour. *)
Lemma draw_words_defined (mycolors : list string)
    (words : list (string * Z)) (j : nat) (word_pos : Q) (ax : list artist) :
  mycolors ≠ [] →
  ∃ word_pos' more,
    draw_words mycolors j word_pos words ax = Ok (word_pos', ax ++ more).
Proof.
  intros Hcolors.
  assert (0 < Z.of_nat (length mycolors)) as Hlen.
  { destruct mycolors; [done|]. simpl. lia. }
  revert j word_pos ax.
  induction words as [|[word topics] rest IH]; intros j word_pos ax; simpl.
  - exists word_pos, []. by rewrite app_nil_r.
  - destruct (decide (j < 14)%nat); [|apply IH].
    unfold py_mod. rewrite decide_False by lia. simpl.
    destruct (py_getitem_in_range mycolors
                (topics `mod` Z.of_nat (length mycolors)))
      as (color & _ & ->).
    { by apply Z.mod_pos_bound. }
    simpl.
    edestruct IH as (word_pos' & more & ->).
    eexists _, _. by rewrite <- app_assoc.
Qed.

(** An exception in the drawing of a document leaves the loop, and the
    function, once the documents before it are drawn. *)
Lemma chart_loop_raise (lda_model : lda) (mycolors : list string)
    (corp : list bow) (e : exn) (before : list (list artist)) :
  ∀ (i : nat) (ax : list artist) (after drawn : list (list artist)),
    (∀ k ax_k, before !! k = Some ax_k → (0 < i + k)%nat →
       ∃ ax', chart_doc lda_model mycolors corp (i + k) ax_k = Ok ax') →
    (0 < i + length before)%nat →
    chart_doc lda_model mycolors corp (i + length before) ax = Raise e →
    chart_loop lda_model mycolors corp i (before ++ ax :: after) drawn
    = Raise e.
Proof.
  induction before as [|ax0 before IH]; intros i ax after drawn Hok Hpos Hraise.
  - simpl in *. rewrite Nat.add_0_r in Hpos, Hraise.
    rewrite decide_True by done. by rewrite Hraise.
  - assert (chart_loop lda_model mycolors corp (S i) (before ++ ax :: after)
              (drawn ++ [ax0]) = Raise e ∧
            ∀ ax', chart_loop lda_model mycolors corp (S i)
                     (before ++ ax :: after) (drawn ++ [ax']) = Raise e)
      as [Hskip Hdrawn].
    { split; [|intros ax'].
      all: apply IH; [| simpl in Hpos; lia
                      | by replace (S i + length before)%nat
                             with (i + length (ax0 :: before))%nat
                             by (simpl; lia)].
      all: intros k ax_k Hk _.
      all: replace (S i + k)%nat with (i + S k)%nat by lia.
      all: apply Hok; [done|lia]. }
    simpl. destruct (decide (0 < i)%nat) as [Hi|Hi]; [|done].
    destruct (Hok 0%nat ax0 eq_refl) as [ax' Hax']; [lia|].
    rewrite Nat.add_0_r in Hax'. rewrite Hax'. simpl. apply Hdrawn.
Qed.

(** With the default bounds the figure has 13 axes; the first is left
    empty and axes i shows document i - 1 of the slice. *)
Lemma sentences_chart_raise (lda_model : lda) (corpus : list bow)
    (i : nat) (e : exn) :
  (1 ≤ i ≤ 12)%nat →
  (∀ j, (1 ≤ j < i)%nat →
     ∃ ax', chart_doc lda_model TABLEAU_COLORS.*2
                      (py_slice corpus 0 13) j [] = Ok ax') →
  chart_doc lda_model TABLEAU_COLORS.*2 (py_slice corpus 0 13) i [] = Raise e →
  sentences_chart lda_model corpus 0 13 = Raise e.
Proof.
  intros Hi Hbefore Hraise. unfold sentences_chart.
  change (plt_subplots (13 - 0)) with (Ok (replicate 13 (@nil artist))).
  set (axes := [AxisOff] :: replicate 12 (@nil artist)).
  change (chart_loop lda_model TABLEAU_COLORS.*2 (py_slice corpus 0 13) 0
            axes [] = Raise e).
  assert (∀ k, (1 ≤ k ≤ 12)%nat → axes !! k = Some []) as Haxes.
  { intros [|k] Hk; [lia|]. unfold axes.
    change (replicate 12 (@nil artist) !! k = Some []).
    apply lookup_replicate_2. lia. }
  rewrite <- (take_drop_middle axes i [] (Haxes i Hi)).
  assert (length (take i axes) = i) as Hlen.
  { rewrite length_take. unfold axes.
    change (length ([AxisOff] :: replicate 12 (@nil artist))) with 13%nat.
    lia. }
  apply chart_loop_raise.
  - intros k ax_k Hk Hpos. simpl in Hpos |- *.
    assert (k < i)%nat as Hki.
    { apply lookup_lt_Some in Hk. by rewrite Hlen in Hk. }
    rewrite lookup_take_lt in Hk by done.
    rewrite Haxes in Hk by lia. simplify_eq.
    apply Hbefore. lia.
  - rewrite Hlen. lia.
  - by rewrite Hlen.
Qed.

End ChartFacts.

(** C9.  With the 10 colours of [TABLEAU_COLORS], the border rectangle of a
    document is coloured by the colour at the position of its dominant
    topic id, taken as it is.  A document whose dominant topic id is
    between 0 and 9 is drawn, with that colour.  For a dominant topic id
    of 10 or more, which a model of 12 topics can give, the lookup raises
    [IndexError]; nothing catches it, so [sentences_chart] raises it as
    soon as the documents before that one are drawn. *)
Theorem sentences_chart_border_color `{G : Gensim} `{M : Matplotlib}
    (lda_model : lda) (corpus : list bow) (i : nat) (corp_cur : bow)
    (tp : topic_dist) (wt : list (Z * list Z))
    (phi : list (Z * list (Z * Q))) (words : list (string * Z))
    (topic : Z) :
  let mycolors := TABLEAU_COLORS.*2 in
  let corp := py_slice corpus 0 13 in
  length TABLEAU_COLORS = 10%nat →
  py_getitem corp (Z.of_nat i - 1) = Ok corp_cur →
  lda_getitem lda_model corp_cur = PerWord tp wt phi →
  dominant_words (lda_id2word lda_model) wt [] = Ok words →
  dominant_topic tp = Ok topic →
  (0 ≤ topic ≤ 9 →
   ∀ ax, ∃ color ax',
     mycolors !! Z.to_nat topic = Some color ∧
     chart_doc lda_model mycolors corp i ax = Ok ax' ∧
     RectangleBorder color ∈ ax') ∧
  (10 ≤ topic →
   (∀ ax, chart_doc lda_model mycolors corp i ax = Raise IndexError) ∧
   ((1 ≤ i ≤ 12)%nat →
    (∀ j, (1 ≤ j < i)%nat →
       ∃ ax', chart_doc lda_model mycolors corp j [] = Ok ax') →
    sentences_chart lda_model corpus 0 13 = Raise IndexError)).
Proof.
  intros mycolors corp Hcolors Hcur Hinf Hwords Htopic.
  assert (length mycolors = 10%nat) as Hlen.
  { unfold mycolors. by rewrite length_fmap. }
  assert (∀ ax, chart_doc lda_model mycolors corp i ax
          = (color ← py_getitem mycolors topic;
             '(word_pos, ax) ← draw_words mycolors 0 0.2%Q words
                (ax ++ [Text 0.01 0.5
                          ("Doc " +:+ pretty (Z.of_nat i - 1) +:+ ": ")
                          "black"] ++ [RectangleBorder color]);
             Ok (ax ++ [Text word_pos 0.5 ". . ." "black"]))) as Hdoc.
  { intros ax. unfold chart_doc. rewrite Hcur. simpl. rewrite Hinf. simpl.
    rewrite Hwords. simpl. rewrite Htopic. simpl.
    destruct (py_getitem mycolors topic); [|done]. simpl.
    by rewrite <- app_assoc. }
  split.
  - intros Hsmall ax.
    destruct (py_getitem_in_range mycolors topic) as (color & Hcolor & Hget).
    { lia. }
    destruct (draw_words_defined mycolors words 0 0.2%Q
                (ax ++ [Text 0.01 0.5
                          ("Doc " +:+ pretty (Z.of_nat i - 1) +:+ ": ")
                          "black"] ++ [RectangleBorder color]))
      as (word_pos & more & Hdraw).
    { intros Hnil. by rewrite Hnil in Hlen. }
    exists color. eexists. split; [done|]. split.
    + rewrite Hdoc, Hget, bind_Ok. cbv beta. rewrite Hdraw, bind_Ok.
      reflexivity.
    + rewrite !elem_of_app. left. left. right. right.
      constructor.
  - intros Hlarge.
    assert (∀ ax, chart_doc lda_model mycolors corp i ax = Raise IndexError)
      as Hraise.
    { intros ax. rewrite Hdoc, py_getitem_beyond; [done|lia]. }
    split; [done|].
    intros Hi Hbefore. by apply (sentences_chart_raise lda_model corpus i).
Qed.

Lemma sentences_chart_border_color_witness :
  (∃ color ax',
     (@TABLEAU_COLORS Small.matplotlib).*2 !! 7%nat = Some color ∧
     chart_doc (Small.lda12 Small.corpus6)
       (@TABLEAU_COLORS Small.matplotlib).*2
       (py_slice Small.corpus6 0 13) 1 [] = Ok ax' ∧
     RectangleBorder color ∈ ax') ∧
  chart_doc (Small.lda12 Small.corpus6)
    (@TABLEAU_COLORS Small.matplotlib).*2
    (py_slice Small.corpus6 0 13) 2 [] = Raise IndexError ∧
  sentences_chart (M := Small.matplotlib) (Small.lda12 Small.corpus6)
    Small.corpus6 0 13 = Raise IndexError.
Proof.
  pose proof (sentences_chart_border_color (G := Small.gensim)
                (M := Small.matplotlib) (Small.lda12 Small.corpus6)
                Small.corpus6 1 [(0, 2); (1, 1)]
                [(8, 0.25%Q); (7, 0.75%Q)] [(0, [7]); (1, [7])] []
                [("cat", 7); ("dog", 7)] 7
                eq_refl eq_refl eq_refl eq_refl eq_refl) as [Hdrawn _].
  pose proof (sentences_chart_border_color (G := Small.gensim)
                (M := Small.matplotlib) (Small.lda12 Small.corpus6)
                Small.corpus6 2 [(0, 4); (2, 2)]
                [(11, 0.25%Q); (10, 0.75%Q)] [(0, [10]); (2, [10])] []
                [("cat", 10); ("car", 10)] 10
                eq_refl eq_refl eq_refl eq_refl eq_refl) as [_ Hraised].
  split; [|split].
  - apply (Hdrawn ltac:(lia) []).
  - apply (proj1 (Hraised ltac:(lia)) []).
  - apply (proj2 (Hraised ltac:(lia))); [lia|].
    intros j Hj. assert (j = 1%nat) as -> by lia.
    destruct (Hdrawn ltac:(lia) []) as (color & ax' & _ & Hax' & _).
    by exists ax'.
Defined.

(** * Further properties *)

(** ** The matrix: all rows or none *)

Section MatrixFailures.

Context `{G : Gensim}.

Lemma matrix_loop_Ok_iff (lda_model : lda) (docs : list bow)
    (topic_matrix M : list (list Q)) :
  matrix_loop lda_model docs topic_matrix = Ok M ↔
  ∃ rows, M = topic_matrix ++ rows ∧
          Forall2 (λ doc row, topic_row lda_model doc = Ok row) docs rows.
Proof.
  revert topic_matrix. induction docs as [|doc rest IH]; intros acc; simpl.
  - split.
    + intros [= <-]. exists []. split; [by rewrite app_nil_r|constructor].
    + intros (rows & -> & Hrows). apply Forall2_nil_inv_l in Hrows as ->.
      by rewrite app_nil_r.
  - destruct (topic_row lda_model doc) as [row|e] eqn:Hrow; simpl.
    + rewrite IH. split.
      * intros (rows & -> & Hrows). exists (row :: rows).
        split; [by rewrite <- app_assoc|by constructor].
      * intros (rows & -> & Hrows).
        apply Forall2_cons_inv_l in Hrows as (row' & rows' & Hrow' & ? & ->).
        rewrite Hrow in Hrow'. simplify_eq.
        exists rows'. split; [by rewrite <- app_assoc|done].
    + split; [done|].
      intros (rows & _ & Hrows).
      apply Forall2_cons_inv_l in Hrows as (row' & rows' & Hrow' & _).
      by rewrite Hrow in Hrow'.
Qed.

Lemma matrix_loop_raise (lda_model : lda) (before : list bow) (doc : bow)
    (after : list bow) (e : exn) (topic_matrix : list (list Q)) :
  Forall (λ d, ∃ row, topic_row lda_model d = Ok row) before →
  topic_row lda_model doc = Raise e →
  matrix_loop lda_model (before ++ doc :: after) topic_matrix = Raise e.
Proof.
  revert topic_matrix.
  induction before as [|d before IH]; intros acc Hbefore Hraise; simpl.
  - by rewrite Hraise.
  - apply Forall_cons in Hbefore as [[row Hrow] Hbefore].
    rewrite Hrow. simpl. by apply IH.
Qed.

End MatrixFailures.

(** X1.  The matrix is returned exactly when the row of every document can
    be built, and then it is the list of those rows, in order: no row is
    skipped, none is added. *)
Theorem matrix_all_rows_or_none `{G : Gensim} {D : Type}
    (lda_model : lda) (corpus : list bow) (data : D)
    (topic_matrix : list (list Q)) :
  getLDATopicDistMatrix lda_model corpus data = Ok topic_matrix ↔
  Forall2 (λ doc row, topic_row lda_model doc = Ok row) corpus topic_matrix.
Proof.
  unfold getLDATopicDistMatrix. rewrite matrix_loop_Ok_iff. split.
  - by intros (rows & -> & Hrows).
  - intros Hrows. by exists topic_matrix.
Qed.

(** X2.  The first document whose row cannot be built ends the whole
    computation with its exception: the rows built before it are lost. *)
Theorem matrix_first_failure `{G : Gensim} {D : Type}
    (lda_model : lda) (before : list bow) (doc : bow) (after : list bow)
    (data : D) (e : exn) :
  Forall (λ d, ∃ row, topic_row lda_model d = Ok row) before →
  topic_row lda_model doc = Raise e →
  getLDATopicDistMatrix lda_model (before ++ doc :: after) data = Raise e.
Proof. intros Hbefore Hraise. by apply matrix_loop_raise. Qed.

Lemma matrix_first_failure_witness :
  getLDATopicDistMatrix Echo.lda4 ([[(1, 60); (3, 40)]] ++ [(4, 100)] :: [[]])
                        () = Raise IndexError.
Proof.
  apply (matrix_first_failure (G := Echo.gensim)).
  - concrete_Forall ltac:(by eexists; vm_compute).
  - by vm_compute.
Defined.

(** ** Topic ids out of range, repeated, negative *)

Lemma fill_scores_raises (pairs : topic_dist) (row : list Q) :
  Exists (λ p, ¬ (- Z.of_nat (length row) ≤ p.1 < Z.of_nat (length row)))
         pairs →
  fill_scores row pairs = Raise IndexError.
Proof.
  revert row. induction pairs as [|[tp score] rest IH]; intros row Hex.
  - by apply Exists_nil in Hex.
  - simpl. unfold py_setitem, py_index.
    destruct (decide (0 ≤ tp < Z.of_nat (length row))) as [Hin|Hout1].
    + simpl. apply IH. rewrite length_insert.
      apply Exists_cons in Hex as [Hbad|Hex]; [simpl in Hbad; lia|done].
    + destruct (decide (- Z.of_nat (length row) ≤ tp < 0)) as [Hneg|Hout2];
        [|done].
      simpl. apply IH. rewrite length_insert.
      apply Exists_cons in Hex as [Hbad|Hex]; [simpl in Hbad; lia|done].
Qed.

Lemma fill_scores_wraps (pairs : list (Z * Q)) (row : list Q) :
  Forall (λ p, - Z.of_nat (length row) ≤ p.1 < Z.of_nat (length row)) pairs →
  ∃ row', fill_scores row pairs = Ok row' ∧ length row' = length row ∧
    ∀ t, (t < length row)%nat →
      row' !! t =
      match last (filter (λ p, column (length row) p.1 = Z.of_nat t) pairs)
      with
      | Some p => Some p.2
      | None => row !! t
      end.
Proof.
  revert row. induction pairs as [|[tp score] rest IH]; intros row Hin.
  - exists row. by repeat split.
  - apply Forall_cons in Hin as [Htp Hrest]. simpl in Htp.
    set (k := Z.to_nat (column (length row) tp)).
    assert (py_setitem row tp score = Ok (<[k := score]> row)) as Hset.
    { unfold py_setitem, py_index, k, column.
      destruct (decide (0 ≤ tp < Z.of_nat (length row))).
      - by rewrite decide_False by lia.
      - rewrite decide_True by lia. by rewrite decide_True by lia. }
    assert (Z.of_nat k = column (length row) tp ∧ (k < length row)%nat)
      as [Hk Hklt].
    { unfold k, column. case_decide; lia. }
    destruct (IH (<[k := score]> row)) as (row' & Hfill & Hlen & Hcols).
    { by rewrite length_insert. }
    rewrite length_insert in Hlen, Hcols.
    exists row'. split; [|split; [done|]].
    { simpl. rewrite Hset. simpl. exact Hfill. }
    intros t Ht. rewrite (Hcols t Ht), filter_cons. simpl.
    destruct (decide (column (length row) tp = Z.of_nat t)) as [Heq|Hne].
    + rewrite last_cons.
      destruct (last (filter _ rest)); [done|].
      assert (k = t) as -> by lia. by apply list_lookup_insert_eq.
    + destruct (last (filter _ rest)); [done|].
      apply list_lookup_insert_ne. lia.
Qed.

(** X3.  For per-word inference, the row of a document is built exactly
    when every topic id lies in [-K, K), K being the number of topics of
    the model; a single id outside raises [IndexError]. *)
Theorem topic_row_index_error `{G : Gensim} (lda_model : lda) (doc : bow)
    (tp : topic_dist) (wt : list (Z * list Z))
    (phi : list (Z * list (Z * Q))) :
  lda_getitem lda_model doc = PerWord tp wt phi →
  let K := Z.of_nat (lda_num_topics lda_model) in
  ((∃ row, topic_row lda_model doc = Ok row) ↔
   Forall (λ p, - K ≤ p.1 < K) tp) ∧
  (topic_row lda_model doc = Raise IndexError ↔
   Exists (λ p, ¬ (- K ≤ p.1 < K)) tp).
Proof.
  intros Hinf K. unfold topic_row. rewrite Hinf. simpl.
  destruct (decide (Forall (λ p, - K ≤ p.1 < K) tp)) as [Hall|Hnot].
  - destruct (fill_scores_wraps tp (np_zeros (lda_num_topics lda_model)))
      as (row & Hfill & _).
    { by rewrite np_zeros_length. }
    rewrite Hfill. split; split; try done.
    + intros _. by exists row.
    + intros Hex. apply Exists_exists in Hex as (p & Hp & Hbad).
      by apply (proj1 (Forall_forall _ _) Hall) in Hp.
  - apply not_Forall_Exists in Hnot; [|intros p; apply _].
    rewrite fill_scores_raises by (by rewrite np_zeros_length).
    split; split; try done.
    + by intros [row ?].
    + intros Hall. apply Exists_exists in Hnot as (p & Hp & Hbad).
      by apply (proj1 (Forall_forall _ _) Hall) in Hp.
Qed.

Lemma topic_row_index_error_witness :
  ((∃ row, topic_row Echo.lda4 [(1, 60); (4, 40)] = Ok row) ↔
   Forall (λ p, - 4 ≤ p.1 < 4) [(1, Qmake 60 100); (4, Qmake 40 100)]) ∧
  (topic_row Echo.lda4 [(1, 60); (4, 40)] = Raise IndexError ↔
   Exists (λ p, ¬ (- 4 ≤ p.1 < 4)) [(1, Qmake 60 100); (4, Qmake 40 100)]).
Proof.
  apply (topic_row_index_error (G := Echo.gensim) Echo.lda4
           [(1, 60); (4, 40)] _ [(1, [1]); (4, [4])] []).
  reflexivity.
Defined.

(** X4.  With every topic id in [-K, K), column t of the row holds the
    proportion of the last pair written there, a negative id counting
    from the last column, and 0 when no pair is: of two pairs naming one
    topic the later one wins. *)
Theorem topic_row_last_pair_wins `{G : Gensim} (lda_model : lda) (doc : bow)
    (tp : topic_dist) (wt : list (Z * list Z))
    (phi : list (Z * list (Z * Q))) :
  lda_getitem lda_model doc = PerWord tp wt phi →
  Forall (λ p, - Z.of_nat (lda_num_topics lda_model) ≤ p.1
               < Z.of_nat (lda_num_topics lda_model)) tp →
  ∃ row,
    topic_row lda_model doc = Ok row ∧
    length row = lda_num_topics lda_model ∧
    ∀ t, (t < lda_num_topics lda_model)%nat →
      row !! t = Some (last_score (lda_num_topics lda_model) tp t).
Proof.
  intros Hinf Hin. unfold topic_row. rewrite Hinf. simpl.
  set (K := lda_num_topics lda_model) in *.
  destruct (fill_scores_wraps tp (np_zeros K)) as (row & Hfill & Hlen & Hcols).
  { by rewrite np_zeros_length. }
  rewrite np_zeros_length in Hlen, Hcols.
  exists row. split; [done|]. split; [done|].
  intros t Ht. rewrite (Hcols t Ht). unfold last_score.
  destruct (last _); [done|].
  unfold np_zeros. by apply lookup_replicate_2.
Qed.

Lemma topic_row_last_pair_wins_witness :
  ∃ row,
    topic_row Echo.lda4 [(1, 60); (-1, 30); (1, 10)] = Ok row ∧
    length row = 4%nat ∧
    ∀ t, (t < 4)%nat →
      row !! t
      = Some (last_score 4 [(1, Qmake 60 100); (-1, Qmake 30 100);
                            (1, Qmake 10 100)] t).
Proof.
  apply (topic_row_last_pair_wins (G := Echo.gensim) Echo.lda4
           [(1, 60); (-1, 30); (1, 10)] _
           [(1, [1]); (-1, [-1]); (1, [1])] []).
  - reflexivity.
  - concrete_Forall lia.
Defined.

(** ** Documents without a label *)

Lemma getData_loop_result (sentences : list (list string))
    (dats_target : list Z) (range : list nat)
    (data : list (list string)) (target : list Z) :
  Forall (λ i, (i < length sentences)%nat) range →
  (Forall (λ i, (i < length dats_target)%nat)
          (filter (λ i, sentences !! i ≠ Some []) range) →
   ∃ kept labels,
     getData_loop sentences dats_target range data target
     = Ok (data ++ kept, target ++ labels)) ∧
  (Exists (λ i, (length dats_target ≤ i)%nat)
          (filter (λ i, sentences !! i ≠ Some []) range) →
   getData_loop sentences dats_target range data target = Raise IndexError).
Proof.
  revert data target.
  induction range as [|i range IH]; intros data target Hrange.
  - split.
    + intros _. exists [], []. simpl. by rewrite !app_nil_r.
    + intros Hex. by apply Exists_nil in Hex.
  - apply Forall_cons in Hrange as [Hs Hrange].
    apply lookup_lt_is_Some_2 in Hs as [sentence Hs].
    simpl. rewrite (py_getitem_nonneg _ _ _ Hs). simpl.
    rewrite filter_cons.
    destruct (decide (sentence = [])) as [->|Hne].
    + rewrite bool_decide_false by (by intros ?).
      rewrite decide_False by (by rewrite Hs; intros ?).
      by apply IH.
    + rewrite bool_decide_true by done.
      rewrite decide_True by (rewrite Hs; congruence).
      destruct (decide (i < length dats_target)%nat) as [Hl|Hl].
      * apply lookup_lt_is_Some_2 in Hl as [label Hl].
        rewrite (py_getitem_nonneg _ _ _ Hl). simpl.
        destruct (IH (data ++ [sentence]) (target ++ [label]) Hrange)
          as [Hok Hraise].
        split.
        -- intros [_ Hall]%Forall_cons.
           destruct (Hok Hall) as (kept & labels & ->).
           exists (sentence :: kept), (label :: labels).
           by rewrite <- !app_assoc.
        -- intros [Hbad|Hex]%Exists_cons; [|by apply Hraise].
           apply lookup_lt_Some in Hl. lia.
      * rewrite py_getitem_beyond by lia. simpl. split; [|done].
        intros [Hi _]%Forall_cons. lia.
Qed.

(** X5.  [getDataHayle] looks up a label only for a document whose
    tokenization is not empty.  It returns exactly when each of those
    documents has a label at its position, and raises [IndexError] exactly
    when one of them has none; a document that is dropped may lack its
    label. *)
Theorem getDataHayle_needs_labels (G : Gensim) (S : Sheeple)
    (getTrain : bool) :
  let dats := if getTrain then fetch_data.1 else fetch_data.2 in
  let sentences := sent_to_words (Bunch_data dats) in
  ((∃ res, getDataHayle getTrain = Ok res) ↔
   Forall (λ i, (i < length (Bunch_target dats))%nat) (surviving sentences)) ∧
  (getDataHayle getTrain = Raise IndexError ↔
   Exists (λ i, (length (Bunch_target dats) ≤ i)%nat) (surviving sentences)).
Proof.
  intros dats sentences.
  destruct (getData_loop_result sentences (Bunch_target dats)
              (seq 0 (length sentences)) [] []) as [Hok Hraise].
  { apply Forall_forall. intros i Hi. apply elem_of_seq in Hi. lia. }
  fold (surviving sentences) in Hok, Hraise.
  unfold getDataHayle. fold dats. fold sentences.
  destruct (decide (Forall (λ i, (i < length (Bunch_target dats))%nat)
                           (surviving sentences))) as [Hall|Hnot].
  - destruct (Hok Hall) as (kept & labels & ->). simpl.
    split; split; try done.
    + intros _. by eexists.
    + intros Hex. apply Exists_exists in Hex as (i & Hi & Hbad).
      apply (proj1 (Forall_forall _ _) Hall) in Hi. lia.
  - apply not_Forall_Exists in Hnot; [|intros i; apply _].
    assert (Exists (λ i, (length (Bunch_target dats) ≤ i)%nat)
                   (surviving sentences)) as Hex.
    { eapply Exists_impl; [exact Hnot|]. simpl. intros; lia. }
    rewrite (Hraise Hex). simpl. split; split; try done.
    + by intros [res ?].
    + intros Hall. apply Exists_exists in Hex as (i & Hi & Hbad).
      apply (proj1 (Forall_forall _ _) Hall) in Hi. lia.
Qed.

(** ** The sort by proportion and the dominant topic *)

Lemma insert_by_score_perm (x : Z * Q) (l : list (Z * Q)) :
  insert_by_score x l ≡ₚ x :: l.
Proof.
  induction l as [|y l IH]; simpl; [done|].
  destruct (Qle_bool y.2 x.2); [done|].
  rewrite IH. apply Permutation_swap.
Qed.

Lemma insert_by_score_sorted (x : Z * Q) (l : list (Z * Q)) :
  StronglySorted score_ge l → StronglySorted score_ge (insert_by_score x l).
Proof.
  induction l as [|y l IH]; intros Hsorted; simpl.
  - by repeat constructor.
  - apply StronglySorted_inv in Hsorted as [Hl Hy].
    destruct (Qle_bool y.2 x.2) eqn:Hyx.
    + apply Qle_bool_iff in Hyx. constructor; [by constructor|].
      constructor; [done|].
      eapply Forall_impl; [exact Hy|]. unfold score_ge. simpl.
      intros z Hz. by apply (Qle_trans _ y.2).
    + constructor; [by apply IH|].
      rewrite insert_by_score_perm. constructor; [|done].
      unfold score_ge. apply Qlt_le_weak, Qnot_le_lt.
      intros Hle. apply Qle_bool_iff in Hle. congruence.
Qed.

Lemma insert_by_score_filter (q : Q) (x : Z * Q) (l : list (Z * Q)) :
  filter (λ p, (p.2 == q)%Q) (insert_by_score x l : list (Z * Q))
  = filter (λ p, (p.2 == q)%Q) (x :: l).
Proof.
  induction l as [|y l IH]; cbn [insert_by_score]; [done|].
  destruct (Qle_bool y.2 x.2) eqn:Hyx; [done|].
  rewrite (filter_cons _ y), IH, !(filter_cons _ x), (filter_cons _ y).
  destruct (decide (x.2 == q)%Q) as [Hx|Hx]; [|done].
  destruct (decide (y.2 == q)%Q) as [Hy|Hy]; [|done].
  exfalso. assert (Qle_bool y.2 x.2 = true); [|congruence].
  apply Qle_bool_iff. rewrite Hx, Hy. apply Qle_refl.
Qed.

(** X6.  The sort used for the dominant topic rearranges the pairs in
    decreasing order of proportion and keeps pairs of equal proportion in
    the order they had. *)
Theorem sorted_by_score_stable (l : list (Z * Q)) :
  sorted_by_score l ≡ₚ l ∧
  StronglySorted score_ge (sorted_by_score l) ∧
  ∀ q : Q, filter (λ p, (p.2 == q)%Q) (sorted_by_score l : list (Z * Q))
           = filter (λ p, (p.2 == q)%Q) l.
Proof.
  unfold sorted_by_score. induction l as [|x l (Hperm & Hsorted & Hstable)].
  - repeat split; constructor.
  - simpl. split; [|split].
    + by rewrite insert_by_score_perm, Hperm.
    + by apply insert_by_score_sorted.
    + intros q. rewrite insert_by_score_filter, !(filter_cons _ x).
      by rewrite Hstable.
Qed.

Lemma sorted_by_score_head (tp : list (Z * Q)) :
  tp ≠ [] →
  ∃ t p before after rest,
    tp = before ++ (t, p) :: after ∧
    sorted_by_score tp = (t, p) :: rest ∧
    Forall (λ q, (q.2 < p)%Q) before ∧
    Forall (λ q, (q.2 <= p)%Q) after.
Proof.
  induction tp as [|[t0 p0] tp IH]; intros Hne; [done|].
  destruct tp as [|y tp'].
  - exists t0, p0, [], [], []. by repeat split; constructor.
  - destruct IH as (t & p & before & after & rest & Htp & Hsort & Hb & Ha);
      [done|].
    change (sorted_by_score ((t0, p0) :: y :: tp'))
      with (insert_by_score (t0, p0) (sorted_by_score (y :: tp'))).
    rewrite Hsort, Htp. simpl.
    destruct (Qle_bool p p0) eqn:Hpp.
    + apply Qle_bool_iff in Hpp.
      exists t0, p0, [], (before ++ (t, p) :: after), ((t, p) :: rest).
      repeat split; [constructor|].
      apply Forall_app. split; [|constructor].
      * eapply Forall_impl; [exact Hb|]. simpl. intros q Hq.
        apply Qlt_le_weak in Hq. by apply (Qle_trans _ p).
      * done.
      * eapply Forall_impl; [exact Ha|]. simpl. intros q Hq.
        by apply (Qle_trans _ p).
    + exists t, p, ((t0, p0) :: before), after, (insert_by_score (t0, p0) rest).
      repeat split; [|done].
      constructor; [|done]. simpl. apply Qnot_le_lt.
      intros Hle. apply Qle_bool_iff in Hle. congruence.
Qed.

(** X7.  For a document with at least one pair, the dominant topic is the
    topic of the first pair of greatest proportion: every pair before it
    has a smaller proportion, none after it has a greater one. *)
Theorem dominant_topic_first_maximum (tp : topic_dist) :
  tp ≠ [] →
  ∃ t p before after,
    tp = before ++ (t, p) :: after ∧
    dominant_topic tp = Ok t ∧
    Forall (λ q, (q.2 < p)%Q) before ∧
    Forall (λ q, (q.2 <= p)%Q) after.
Proof.
  intros Hne.
  destruct (sorted_by_score_head tp Hne)
    as (t & p & before & after & rest & Htp & Hsort & Hb & Ha).
  exists t, p, before, after. repeat split; try done.
  unfold dominant_topic. by rewrite Hsort.
Qed.

Lemma dominant_topic_first_maximum_witness :
  ∃ t p before after,
    [(3, 0.25%Q); (1, 0.5%Q); (2, 0.5%Q); (0, 0.1%Q)]
      = before ++ (t, p) :: after ∧
    dominant_topic [(3, 0.25%Q); (1, 0.5%Q); (2, 0.5%Q); (0, 0.1%Q)] = Ok t ∧
    Forall (λ q, (q.2 < p)%Q) before ∧
    Forall (λ q, (q.2 <= p)%Q) after.
Proof.
  apply (dominant_topic_first_maximum
           [(3, 0.25%Q); (1, 0.5%Q); (2, 0.5%Q); (0, 0.1%Q)]).
  done.
Defined.

(** ** What a finished chart shows *)

Lemma py_getitem_Ok_lt {A} (l : list A) (i : Z) (x : A) :
  0 ≤ i → py_getitem l i = Ok x → i < Z.of_nat (length l).
Proof.
  intros Hi. unfold py_getitem, py_index.
  destruct (decide (0 ≤ i < Z.of_nat (length l))); [lia|].
  by rewrite decide_False by lia.
Qed.

Lemma py_slice_length {A} (l : list A) (start stop : Z) :
  (length (py_slice l start stop) ≤ length l)%nat.
Proof. unfold py_slice. rewrite length_take, length_drop. lia. Qed.

Section ChartResults.

Context `{G : Gensim} `{M : Matplotlib}.

Lemma chart_doc_Ok_lt (lda_model : lda) (mycolors : list string)
    (corp : list bow) (i : nat) (ax ax' : list artist) :
  (0 < i)%nat →
  chart_doc lda_model mycolors corp i ax = Ok ax' →
  (i ≤ length corp)%nat.
Proof.
  intros Hi. unfold chart_doc.
  destruct (py_getitem corp (Z.of_nat i - 1)) as [corp_cur|e] eqn:Hcur;
    [|done].
  intros _. apply py_getitem_Ok_lt in Hcur; lia.
Qed.

(** A finished loop has drawn every axes object it was given, the one
    numbered 0 excepted, which it leaves as it is. *)
Lemma chart_loop_Ok (lda_model : lda) (mycolors : list string)
    (corp : list bow) (axes : list (list artist)) :
  ∀ (i : nat) (drawn out : list (list artist)),
    chart_loop lda_model mycolors corp i axes drawn = Ok out →
    ∃ more,
      out = drawn ++ more ∧
      length more = length axes ∧
      ∀ k ax, axes !! k = Some ax →
        if decide (0 < i + k)%nat
        then ∃ ax', chart_doc lda_model mycolors corp (i + k) ax = Ok ax' ∧
                    more !! k = Some ax'
        else more !! k = Some ax.
Proof.
  induction axes as [|ax0 axes IH]; intros i drawn out Hloop.
  - simpl in Hloop. simplify_eq. exists []. by rewrite app_nil_r.
  - simpl in Hloop.
    assert (∃ ax0',
              chart_loop lda_model mycolors corp (S i) axes (drawn ++ [ax0'])
              = Ok out ∧
              if decide (0 < i)%nat
              then chart_doc lda_model mycolors corp i ax0 = Ok ax0'
              else ax0' = ax0) as (ax0' & Hrest & Hax0).
    { destruct (decide (0 < i)%nat); [|by exists ax0].
      destruct (chart_doc lda_model mycolors corp i ax0) as [ax0'|e];
        [|done].
      by exists ax0'. }
    destruct (IH _ _ _ Hrest) as (more & -> & Hlen & Hmore).
    exists (ax0' :: more). split; [by rewrite <- app_assoc|].
    split; [simpl; lia|].
    intros [|k] ax Hk.
    + simpl in Hk. simplify_eq. rewrite Nat.add_0_r.
      destruct (decide (0 < i)%nat); [by exists ax0'|by subst].
    + simpl in Hk. specialize (Hmore k ax Hk).
      replace (i + S k)%nat with (S i + k)%nat by lia. exact Hmore.
Qed.

End ChartResults.

(** X8.  A chart that is returned has [end - start] axes, at least two:
    the first holds nothing, and axes i shows document i - 1 of the slice.
    So the slice, and the corpus, hold at least [end - start - 1]
    documents: with the default bounds, a corpus of fewer than 12
    documents gives no chart. *)
Theorem sentences_chart_needs_documents `{G : Gensim} `{M : Matplotlib}
    (lda_model : lda) (corpus : list bow) (start end_ : Z)
    (axes : list (list artist)) :
  sentences_chart lda_model corpus start end_ = Ok axes →
  2 ≤ end_ - start ∧
  Z.of_nat (length axes) = end_ - start ∧
  axes !! 0%nat = Some [AxisOff] ∧
  (∀ i, (1 ≤ i)%nat → Z.of_nat i < end_ - start →
     ∃ ax, axes !! i = Some ax ∧
           chart_doc lda_model TABLEAU_COLORS.*2
                     (py_slice corpus start end_) i [] = Ok ax) ∧
  end_ - start - 1 ≤ Z.of_nat (length (py_slice corpus start end_)) ∧
  end_ - start - 1 ≤ Z.of_nat (length corpus).
Proof.
  unfold sentences_chart, plt_subplots. intros Hchart.
  destruct (decide (end_ - start ≤ 0)) as [|Hpos]; [done|].
  destruct (decide (end_ - start = 1)) as [|Hone]; [done|].
  rewrite bind_Ok in Hchart.
  destruct (Z.to_nat (end_ - start)) as [|n'] eqn:Hrows; [lia|].
  change (alter (λ ax, ax ++ [AxisOff]) 0%nat (replicate (S n') (@nil artist)))
    with ([AxisOff] :: replicate n' (@nil artist)) in Hchart.
  apply chart_loop_Ok in Hchart as (more & Haxes & Hlen & Hmore).
  simpl in Haxes. subst more.
  change (length ([AxisOff] :: replicate n' (@nil artist)))
    with (S (length (replicate n' (@nil artist)))) in Hlen.
  rewrite length_replicate in Hlen.
  assert (∀ i, (1 ≤ i)%nat → Z.of_nat i < end_ - start →
            ∃ ax, axes !! i = Some ax ∧
                  chart_doc lda_model TABLEAU_COLORS.*2
                            (py_slice corpus start end_) i [] = Ok ax)
    as Hdocs.
  { intros [|i] Hi Hlt; [lia|].
    specialize (Hmore (S i) []). simpl in Hmore.
    destruct Hmore as (ax & Hax & Hlook).
    - apply lookup_replicate_2. lia.
    - by exists ax. }
  split; [lia|]. split; [lia|]. split; [|split; [done|]].
  - by apply (Hmore 0%nat [AxisOff]).
  - assert (end_ - start - 1
            ≤ Z.of_nat (length (py_slice corpus start end_))) as Hslice.
    { destruct (Hdocs n') as (ax & _ & Hax); [lia|lia|].
      apply chart_doc_Ok_lt in Hax; lia. }
    split; [done|].
    pose proof (py_slice_length corpus start end_). lia.
Qed.

Lemma sentences_chart_needs_documents_witness :
  ∃ axes,
    sentences_chart (M := Small.matplotlib) (Small.lda12 Small.corpus3)
      [[(0, 2); (1, 1)]; [(0, 1); (2, 2)]] 0 3 = Ok axes ∧
    Z.of_nat (length axes) = 3 - 0 ∧
    axes !! 0%nat = Some [AxisOff] ∧
    3 - 0 - 1 ≤ 2.
Proof.
  eexists. split; [by vm_compute|].
  edestruct (sentences_chart_needs_documents (G := Small.gensim)
               (M := Small.matplotlib) (Small.lda12 Small.corpus3)
               [[(0, 2); (1, 1)]; [(0, 1); (2, 2)]] 0 3)
    as (_ & Hlen & Hfirst & _ & _ & Hcorpus); [by vm_compute|].
  by repeat split.
Defined.

(** ** The words of a document *)

Lemma draw_words_from (mycolors : list string) (words : list (string * Z)) :
  mycolors ≠ [] →
  ∀ (j : nat) (word_pos : Q) (ax : list artist),
  ∃ word_pos' more,
    draw_words mycolors j word_pos words ax = Ok (word_pos', ax ++ more) ∧
    Forall2 (λ w d, d.1 = w.1 ∧
               mycolors !! Z.to_nat (w.2 `mod` Z.of_nat (length mycolors))
               = Some d.2)
            (take (14 - j) words) (drawn_texts more).
Proof.
  intros Hcolors.
  assert (0 < Z.of_nat (length mycolors)) as Hlen.
  { destruct mycolors; [done|]. simpl. lia. }
  induction words as [|[word topics] rest IH]; intros j word_pos ax.
  - exists word_pos, []. split; [by rewrite app_nil_r|].
    rewrite take_nil. constructor.
  - simpl. destruct (decide (j < 14)%nat) as [Hj|Hj].
    + unfold py_mod. rewrite decide_False by lia. rewrite bind_Ok.
      destruct (py_getitem_in_range mycolors
                  (topics `mod` Z.of_nat (length mycolors)))
        as (color & Hcolor & ->).
      { by apply Z.mod_pos_bound. }
      rewrite bind_Ok.
      edestruct (IH (S j)) as (word_pos' & more & -> & Hmore).
      exists word_pos', ([Text word_pos 0.5 word color; AxisOff] ++ more).
      split; [by rewrite <- app_assoc|].
      replace (14 - j)%nat with (S (14 - S j)) by lia.
      simpl. by constructor.
    + edestruct (IH (S j)) as (word_pos' & more & -> & Hmore).
      exists word_pos', more. split; [done|].
      replace (14 - j)%nat with 0%nat by lia.
      replace (14 - S j)%nat with 0%nat in Hmore by lia.
      by rewrite take_0 in *.
Qed.

(** X9.  Whatever the number of words of a document, the chart writes its
    first 14 and no other, in order, the word of topic t in the colour at
    position t modulo the number of colours: colouring the words never
    fails as long as there is a colour. *)
Theorem draw_words_first_fourteen (mycolors : list string)
    (words : list (string * Z)) (word_pos : Q) (ax : list artist) :
  mycolors ≠ [] →
  ∃ word_pos' more,
    draw_words mycolors 0 word_pos words ax = Ok (word_pos', ax ++ more) ∧
    Forall2 (λ w d, d.1 = w.1 ∧
               mycolors !! Z.to_nat (w.2 `mod` Z.of_nat (length mycolors))
               = Some d.2)
            (take 14 words) (drawn_texts more).
Proof. intros Hcolors. by apply (draw_words_from mycolors words Hcolors 0). Qed.

Lemma draw_words_first_fourteen_witness :
  ∃ word_pos' more,
    draw_words ["red"; "green"; "blue"] 0 0.2%Q
      (replicate 15 ("w", 11) ++ [("last", 2)]) [] = Ok (word_pos', [] ++ more) ∧
    Forall2 (λ w d, d.1 = w.1 ∧
               ["red"; "green"; "blue"]
                 !! Z.to_nat (w.2 `mod` Z.of_nat 3) = Some d.2)
            (take 14 (replicate 15 ("w", 11) ++ [("last", 2)]))
            (drawn_texts more).
Proof.
  apply (draw_words_first_fourteen ["red"; "green"; "blue"]
           (replicate 15 ("w", 11) ++ [("last", 2)]) 0.2%Q []).
  done.
Defined.

Section WordLookups.

Context `{G : Gensim}.

Lemma dominant_words_result (id2word : dictionary)
    (wordid_topics : list (Z * list Z)) :
  ∀ acc : list (string * Z),
    (Forall (λ p, p.2 ≠ [] → is_Some (dictionary_getitem id2word p.1))
            wordid_topics →
     ∃ ws, dominant_words id2word wordid_topics acc = Ok (acc ++ ws) ∧
           Forall2 (λ p w, dictionary_getitem id2word p.1 = Some w.1 ∧
                           head p.2 = Some w.2)
                   (filter (λ p, p.2 ≠ []) wordid_topics) ws) ∧
    (Exists (λ p, p.2 ≠ [] ∧ dictionary_getitem id2word p.1 = None)
            wordid_topics →
     dominant_words id2word wordid_topics acc = Raise KeyError).
Proof.
  induction wordid_topics as [|[wd topic] rest IH]; intros acc.
  - split.
    + intros _. exists []. split; [by rewrite app_nil_r|constructor].
    + intros Hex. by apply Exists_nil in Hex.
  - simpl. rewrite filter_cons. simpl.
    destruct topic as [|topic0 topic].
    + rewrite decide_False by (by intros ?).
      destruct (IH acc) as [Hok Hraise]. split.
      * intros [_ Hall]%Forall_cons. by apply Hok.
      * intros [[Hne _]|Hex]%Exists_cons; [done|by apply Hraise].
    + rewrite decide_True by done.
      destruct (dictionary_getitem id2word wd) as [word|] eqn:Hword.
      * destruct (IH (acc ++ [(word, topic0)])) as [Hok Hraise]. split.
        -- intros [_ Hall]%Forall_cons.
           destruct (Hok Hall) as (ws & -> & Hws).
           exists ((word, topic0) :: ws).
           split; [by rewrite <- app_assoc|by constructor].
        -- intros [[_ Hnone]|Hex]%Exists_cons; [|by apply Hraise].
           simpl in Hnone. congruence.
      * split; [|done].
        intros [Hsome _]%Forall_cons. simpl in Hsome.
        destruct Hsome as [w Hw]; [done|]. congruence.
Qed.

End WordLookups.

(** X10.  The words shown for a document are those inference gives a
    non-empty topic list, in order, each paired with the first topic of
    its list; a word without topics is skipped and its id is not looked
    up.  The lookup of a word that has topics but is not in the vocabulary
    raises [KeyError], and nothing else does. *)
Theorem dominant_words_lookups `{G : Gensim} (id2word : dictionary)
    (wordid_topics : list (Z * list Z)) :
  ((∃ ws, dominant_words id2word wordid_topics [] = Ok ws) ↔
   Forall (λ p, p.2 ≠ [] → is_Some (dictionary_getitem id2word p.1))
          wordid_topics) ∧
  (dominant_words id2word wordid_topics [] = Raise KeyError ↔
   Exists (λ p, p.2 ≠ [] ∧ dictionary_getitem id2word p.1 = None)
          wordid_topics) ∧
  (∀ ws, dominant_words id2word wordid_topics [] = Ok ws →
     Forall2 (λ p w, dictionary_getitem id2word p.1 = Some w.1 ∧
                     head p.2 = Some w.2)
             (filter (λ p, p.2 ≠ []) wordid_topics) ws).
Proof.
  destruct (dominant_words_result id2word wordid_topics []) as [Hok Hraise].
  destruct (decide (Forall (λ p, p.2 ≠ [] →
                       is_Some (dictionary_getitem id2word p.1))
                     wordid_topics)) as [Hall|Hnot].
  - destruct (Hok Hall) as (ws & Hrun & Hws). simpl in Hrun.
    rewrite Hrun. split; [|split].
    + split; [done|]. intros _. by exists ws.
    + split; [done|]. intros Hex.
      apply Exists_exists in Hex as (p & Hp & Hne & Hnone).
      destruct (proj1 (Forall_forall _ _) Hall p Hp Hne) as [w Hw].
      congruence.
    + intros ws' [= <-]. done.
  - apply not_Forall_Exists in Hnot; [|intros p; apply _].
    assert (Exists (λ p, p.2 ≠ [] ∧ dictionary_getitem id2word p.1 = None)
                   wordid_topics) as Hex.
    { eapply Exists_impl; [exact Hnot|]. simpl. intros p Hp.
      destruct (decide (p.2 = [])) as [Hnil|Hne].
      - exfalso. apply Hp. by intros ?.
      - split; [done|].
        destruct (dictionary_getitem id2word p.1) eqn:Hw; [|done].
        exfalso. apply Hp. by intros _. }
    rewrite (Hraise Hex). split; [|split].
    + split; [by intros [ws ?]|]. intros Hall.
      apply Exists_exists in Hnot as (p & Hp & Hbad).
      destruct Hbad. by apply (proj1 (Forall_forall _ _) Hall).
    + done.
    + done.
Qed.

(** ** The words of a tagged document *)






(** ** Word counts and weights *)

Lemma Counter_fold (items : list string) (counter : gmap string nat)
    (w : string) :
  Counter_getitem
    (foldl (λ counter w, <[w := S (default 0%nat (counter !! w))]> counter)
           counter items) w
  = (Counter_getitem counter w + length (filter (λ x, x = w) items))%nat.
Proof.
  revert counter. induction items as [|x items IH]; intros counter.
  - simpl. lia.
  - cbn [foldl]. rewrite IH, filter_cons. unfold Counter_getitem.
    destruct (decide (x = w)) as [->|Hne].
    + rewrite lookup_insert_eq. simpl. lia.
    + by rewrite lookup_insert_ne.
Qed.

Lemma Counter_getitem_count (items : list string) (w : string) :
  Counter_getitem (Counter items) w = length (filter (λ x, x = w) items).
Proof.
  unfold Counter. rewrite Counter_fold. unfold Counter_getitem.
  by rewrite lookup_empty.
Qed.

Lemma importance_topic_rows (counter : gmap string nat) (i : Z)
    (topic : list (string * Q)) (out : list importance_row) :
  importance_topic counter i topic out
  = out ++ ((λ p, mkImportanceRow p.1 i p.2 (Counter_getitem counter p.1))
              <$> topic).
Proof.
  revert out. induction topic as [|[w weight] topic IH]; intros out; simpl.
  - by rewrite app_nil_r.
  - by rewrite IH, <- app_assoc.
Qed.

Lemma importance_out_rows (counter : gmap string nat)
    (topics : list (Z * list (string * Q))) (out : list importance_row) :
  importance_out counter topics out
  = out ++ (t ← topics;
            (λ p, mkImportanceRow p.1 t.1 p.2 (Counter_getitem counter p.1))
              <$> t.2).
Proof.
  revert out. induction topics as [|[i topic] topics IH]; intros out; simpl.
  - by rewrite app_nil_r.
  - by rewrite IH, importance_topic_rows, <- app_assoc.
Qed.

(** The loops and the counter against the comprehension. *)
Lemma importance_out_table (topics : list (Z * list (string * Q)))
    (data : list (list string)) :
  importance_out (Counter (concat data)) topics []
  = importance_table topics data.
Proof.
  rewrite importance_out_rows, app_nil_l. unfold importance_table.
  induction topics as [|t topics IH]; [done|].
  rewrite !bind_cons, IH. f_equal.
  apply list_fmap_ext. intros _ p _. simpl. f_equal.
  apply Counter_getitem_count.
Qed.

(** X12.  The rows [makeWordWeightImportanceVisualization] collects are
    one per word of each topic listed by the model, in order, and the count
    of a row is the number of times its word occurs in all the documents
    together, 0 for a word that occurs in none: reading the counter never
    raises. *)
Theorem importance_rows_count (topics : list (Z * list (string * Q)))
    (data : list (list string)) :
  importance_out (Counter (concat data)) topics []
  = importance_table topics data.
Proof. apply importance_out_table. Qed.

Lemma for_each_Ok {A B : Type} (f : A → result B) (l : list A) :
  Forall (λ x, ∃ y, f x = Ok y) l →
  ∃ ys, for_each f l = Ok ys ∧ Forall2 (λ x y, f x = Ok y) l ys.
Proof.
  induction l as [|x l IH]; intros Hall.
  - exists []. by split; [|constructor].
  - apply Forall_cons in Hall as [[y Hy] Hall].
    destruct (IH Hall) as (ys & Hys & Hrel).
    exists (y :: ys). split; [|by constructor].
    simpl. by rewrite Hy, bind_Ok, Hys.
Qed.

Lemma for_each_raise {A B : Type} (f : A → result B) (x : A) (l : list A)
    (e : exn) :
  f x = Raise e → for_each f (x :: l) = Raise e.
Proof. intros Hx. simpl. by rewrite Hx. Qed.

Lemma py_range_lookup (n i : nat) :
  (i < n)%nat → py_range n !! i = Some (Z.of_nat i).
Proof.
  intros Hi. unfold py_range. rewrite list_lookup_fmap.
  by rewrite lookup_seq_lt.
Qed.

(** X13.  With at least one colour, [makeWordWeightImportanceVisualization]
    draws three figures of four axes; the axes at position i of figure j
    is that of topic i + 4j, shows the rows of that topic and no other,
    and takes the colour at position (i + 4j) modulo the number of colours,
    so that no topic id is out of range.  Without a colour it raises
    [ZeroDivisionError]. *)
Theorem word_importance_figures `{R : Reporting} `{M : Matplotlib}
    (lda_model : lda) (data : list (list string)) :
  (TABLEAU_COLORS ≠ [] →
   ∃ figures,
     makeWordWeightImportanceVisualization lda_model data = Ok figures ∧
     length figures = 3%nat ∧
     ∀ j i, (j < 3)%nat → (i < 4)%nat →
       ∃ axes ax,
         figures !! j = Some axes ∧ length axes = 4%nat ∧
         axes !! i = Some ax ∧
         ia_title ax = "Topic: " +:+ pretty (Z.of_nat i + Z.of_nat j * 4) ∧
         TABLEAU_COLORS.*2
           !! Z.to_nat ((Z.of_nat i + Z.of_nat j * 4)
                        `mod` Z.of_nat (length TABLEAU_COLORS))
         = Some (ia_color ax) ∧
         ia_rows ax
         = filter (λ r, topic_id r = Z.of_nat i + Z.of_nat j * 4)
                  (importance_table (show_topics lda_model 12 20) data)) ∧
  (TABLEAU_COLORS = [] →
   makeWordWeightImportanceVisualization lda_model data
   = Raise ZeroDivisionError).
Proof.
  unfold makeWordWeightImportanceVisualization.
  rewrite importance_out_table.
  set (df := importance_table (show_topics lda_model 12 20) data).
  split.
  - intros Hcolors.
    assert (0 < Z.of_nat (length TABLEAU_COLORS.*2)) as Hlen.
    { rewrite length_fmap. destruct TABLEAU_COLORS; [done|]. simpl. lia. }
    assert (∀ idx, ∃ ax,
              importance_axes_at df TABLEAU_COLORS.*2 idx = Ok ax ∧
              ia_title ax = "Topic: " +:+ pretty idx ∧
              TABLEAU_COLORS.*2
                !! Z.to_nat (idx `mod` Z.of_nat (length TABLEAU_COLORS))
              = Some (ia_color ax) ∧
              ia_rows ax = filter (λ r, topic_id r = idx) df) as Hax.
    { intros idx. unfold importance_axes_at, py_mod.
      rewrite decide_False by lia. rewrite bind_Ok.
      destruct (py_getitem_in_range TABLEAU_COLORS.*2
                  (idx `mod` Z.of_nat (length TABLEAU_COLORS.*2)))
        as (color & Hcolor & ->).
      { by apply Z.mod_pos_bound. }
      rewrite bind_Ok. eexists. split; [reflexivity|]. simpl.
      rewrite length_fmap in Hcolor. by repeat split. }
    destruct (for_each_Ok
      (λ j, for_each (λ i, importance_axes_at df TABLEAU_COLORS.*2 (i + j * 4))
                     (py_range 4)) (py_range 3)) as (figures & -> & Hfigs).
    { apply Forall_forall. intros j _.
      destruct (for_each_Ok
        (λ i, importance_axes_at df TABLEAU_COLORS.*2 (i + j * 4))
        (py_range 4)) as (axes & ? & _); [|by exists axes].
      apply Forall_forall. intros i _.
      destruct (Hax (i + j * 4)) as (ax & ? & _). by exists ax. }
    exists figures. split; [done|]. split.
    { by apply Forall2_length in Hfigs. }
    intros j i Hj Hi.
    destruct (Forall2_lookup_l _ _ _ _ _ Hfigs (py_range_lookup 3 j Hj))
      as (axes & Hfig & Haxes).
    destruct (for_each_Ok
      (λ i, importance_axes_at df TABLEAU_COLORS.*2 (i + Z.of_nat j * 4))
      (py_range 4)) as (axes' & Haxes' & Hrel).
    { apply Forall_forall. intros i' _.
      destruct (Hax (i' + Z.of_nat j * 4)) as (ax & ? & _). by exists ax. }
    rewrite Haxes in Haxes'. simplify_eq.
    destruct (Forall2_lookup_l _ _ _ _ _ Hrel (py_range_lookup 4 i Hi))
      as (ax & Hlook & Hrun).
    destruct (Hax (Z.of_nat i + Z.of_nat j * 4))
      as (ax' & Hrun' & Htitle & Hcolor & Hrows).
    rewrite Hrun in Hrun'. simplify_eq.
    exists axes', ax'. repeat split; try done.
    by apply Forall2_length in Hrel.
  - intros Hnone. rewrite Hnone.
    change (py_range 3) with (0 :: (Z.of_nat <$> seq 1 2)).
    apply for_each_raise.
    change (py_range 4) with (0 :: (Z.of_nat <$> seq 1 3)).
    by apply for_each_raise.
Qed.

(** ** The table of dominant topics *)

Section DominantTable.

Context `{R : Reporting}.

Lemma dominant_loop_lines (ldamodel : lda) (rows : list inference)
    (sent_topics_df : list (Z * Q * string)) :
  dominant_loop ldamodel rows sent_topics_df
  = sent_topics_df ++ omap (dominant_line ldamodel) rows.
Proof.
  revert sent_topics_df.
  induction rows as [|row_list rows IH]; intros acc.
  - simpl. by rewrite app_nil_r.
  - cbn [dominant_loop omap list_omap].
    destruct (sorted_by_score (selected_row row_list)) as [|[t p] rest]
      eqn:Hsorted.
    + assert (dominant_line ldamodel row_list = None) as ->
        by (unfold dominant_line; by rewrite Hsorted).
      apply IH.
    + assert (dominant_line ldamodel row_list
              = Some (t, round4 p, py_join ", " (show_topic ldamodel t).*1))
        as -> by (unfold dominant_line; by rewrite Hsorted).
      by rewrite IH, <- app_assoc.
Qed.

Lemma dominant_line_topic (ldamodel : lda) (row_list : inference)
    (line : Z * Q * string) :
  dominant_line ldamodel row_list = Some line →
  dominant_topic (selected_row row_list) = Ok line.1.1 ∧
  line.2 = py_join ", " (show_topic ldamodel line.1.1).*1.
Proof.
  unfold dominant_line, dominant_topic.
  destruct (sorted_by_score (selected_row row_list)) as [|[t p] rest];
    [done|].
  by intros [= <-].
Qed.

Lemma dominant_line_None (ldamodel : lda) (row_list : inference) :
  dominant_line ldamodel row_list = None ↔ selected_row row_list = [].
Proof.
  unfold dominant_line.
  destruct (selected_row row_list) as [|x l] eqn:Hrow; [done|].
  destruct (sorted_by_score_head (x :: l)) as (t & p & _ & _ & rest & _ & -> & _);
    done.
Qed.

Lemma concat_columns_lookup (sent_topics_df : list (Z * Q * string))
    (contents : list (list string)) (j : nat) (row : dominant_row) :
  concat_columns sent_topics_df contents !! j = Some row →
  Document_No row = j ∧
  Dominant_Topic row = (λ r, r.1.1) <$> sent_topics_df !! j ∧
  Keywords row = (λ r, r.2) <$> sent_topics_df !! j ∧
  Text_ row = contents !! j.
Proof.
  unfold concat_columns. rewrite list_lookup_fmap.
  destruct (seq 0 _ !! j) as [i|] eqn:Hi; [|done].
  apply lookup_seq in Hi as [-> _]. by intros [= <-].
Qed.

End DominantTable.

(** The table, line by line. *)
Lemma format_topics_sentences_table `{R : Reporting}
    (ldamodel : lda) (corpus : list bow) (data : list (list string)) :
  lda_apply ldamodel corpus = lda_getitem ldamodel <$> corpus →
  let with_pairs :=
    filter (λ doc, selected_row (lda_getitem ldamodel doc) ≠ []) corpus in
  (with_pairs = [] →
   format_topics_sentences ldamodel corpus data = Raise ValueError) ∧
  (with_pairs ≠ [] →
   ∃ df,
     format_topics_sentences ldamodel corpus data = Ok df ∧
     length df = (length with_pairs `max` length data)%nat ∧
     ∀ j row, df !! j = Some row →
       Document_No row = j ∧
       Text_ row = data !! j ∧
       match with_pairs !! j with
       | Some doc =>
           ∃ t, dominant_topic (selected_row (lda_getitem ldamodel doc))
                = Ok t ∧
                Dominant_Topic row = Some t ∧
                Keywords row
                = Some (py_join ", " (show_topic ldamodel t).*1)
       | None => Dominant_Topic row = None ∧ Keywords row = None
       end).
Proof.
  intros Hlib with_pairs. unfold format_topics_sentences.
  rewrite dominant_loop_lines, Hlib, app_nil_l.
  set (lines := omap (dominant_line ldamodel) (lda_getitem ldamodel <$> corpus)).
  assert (Forall2 (λ doc line,
            dominant_line ldamodel (lda_getitem ldamodel doc) = Some line)
            with_pairs lines) as Hlines.
  { unfold lines, with_pairs. clear. induction corpus as [|doc corpus IH].
    - constructor.
    - rewrite filter_cons. cbn [fmap list_fmap omap list_omap].
      destruct (dominant_line ldamodel (lda_getitem ldamodel doc))
        as [line|] eqn:Hline.
      + rewrite decide_True.
        * by constructor.
        * intros Hnil. apply (dominant_line_None ldamodel) in Hnil.
          congruence.
      + rewrite decide_False; [done|].
        intros Hne. by apply Hne, (dominant_line_None ldamodel). }
  clearbody lines. split.
  - intros Hnone. rewrite Hnone in Hlines.
    by apply Forall2_nil_inv_l in Hlines as ->.
  - intros Hsome.
    assert (match lines with [] => Raise ValueError
            | _ => Ok (concat_columns lines data) end
            = Ok (concat_columns lines data)) as ->.
    { destruct lines; [|done]. by apply Forall2_nil_inv_r in Hlines. }
    eexists. split; [reflexivity|]. split.
    + unfold concat_columns. rewrite length_fmap, length_seq.
      by rewrite (Forall2_length _ _ _ Hlines).
    + intros j row Hrow.
      apply concat_columns_lookup in Hrow as (Hno & Htopic & Hkeys & Htext).
      split; [done|]. split; [done|].
      destruct (with_pairs !! j) as [doc|] eqn:Hdoc.
      * destruct (Forall2_lookup_l _ _ _ _ _ Hlines Hdoc)
          as (line & Hline & Hdom).
        apply dominant_line_topic in Hdom as [Hdom Hwords].
        exists line.1.1. rewrite Htopic, Hkeys, Hline. simpl.
        by rewrite Hwords.
      * assert (lines !! j = None) as Hnone.
        { apply lookup_ge_None. apply lookup_ge_None in Hdoc.
          by rewrite <- (Forall2_length _ _ _ Hlines). }
        by rewrite Htopic, Hkeys, Hnone.
Qed.

(** X14.  The table of dominant topics gets one line per document that
    inference gives a pair, and the lines are then set beside the texts by
    position.  So line j holds the dominant topic and the keywords of the
    j-th document that has a pair, next to text j: after a document
    without pair the topics stand one line too high.  The table has as
    many lines as the longer of the two columns, and none is built
    ([ValueError]) when no document has a pair. *)
Theorem format_topics_sentences_lines `{R : Reporting}
    (ldamodel : lda) (corpus : list bow) (data : list (list string)) :
  lda_apply ldamodel corpus = lda_getitem ldamodel <$> corpus →
  let with_pairs :=
    filter (λ doc, selected_row (lda_getitem ldamodel doc) ≠ []) corpus in
  (with_pairs = [] →
   format_topics_sentences ldamodel corpus data = Raise ValueError) ∧
  (with_pairs ≠ [] →
   ∃ df,
     format_topics_sentences ldamodel corpus data = Ok df ∧
     length df = (length with_pairs `max` length data)%nat ∧
     ∀ j row, df !! j = Some row →
       Document_No row = j ∧
       Text_ row = data !! j ∧
       match with_pairs !! j with
       | Some doc =>
           ∃ t, dominant_topic (selected_row (lda_getitem ldamodel doc))
                = Ok t ∧
                Dominant_Topic row = Some t ∧
                Keywords row
                = Some (py_join ", " (show_topic ldamodel t).*1)
       | None => Dominant_Topic row = None ∧ Keywords row = None
       end).
Proof. apply format_topics_sentences_table. Qed.

Lemma format_topics_sentences_lines_witness :
  ∃ df,
    format_topics_sentences (R := EchoReport.reporting) Echo.lda4
      [[]; [(1, 60); (2, 40)]] [["first"]; ["second"; "text"]] = Ok df ∧
    length df = 2%nat ∧
    ∀ j row, df !! j = Some row →
      Document_No row = j ∧
      Text_ row = [["first"]; ["second"; "text"]] !! j ∧
      match [[(1, 60); (2, 40)]] !! j with
      | Some doc =>
          ∃ t, dominant_topic (selected_row (Echo.infer Echo.lda4 doc)) = Ok t ∧
               Dominant_Topic row = Some t ∧
               Keywords row
               = Some (py_join ", " (EchoReport.topic_words Echo.lda4 t).*1)
      | None => Dominant_Topic row = None ∧ Keywords row = None
      end.
Proof.
  destruct (format_topics_sentences_lines (R := EchoReport.reporting)
              Echo.lda4 [[]; [(1, 60); (2, 40)]]
              [["first"]; ["second"; "text"]] eq_refl) as [_ Hsome].
  apply Hsome. by vm_compute.
Defined.

(** X15.  When every document of a corpus, not empty, has a pair and there
    is one text per document, the table has one line per document: line i
    holds the number i, text i and the dominant topic of document i, the
    topic [sentences_chart] looks the border colour up with. *)
Theorem format_topics_sentences_aligned `{R : Reporting}
    (ldamodel : lda) (corpus : list bow) (data : list (list string)) :
  lda_apply ldamodel corpus = lda_getitem ldamodel <$> corpus →
  corpus ≠ [] →
  Forall (λ doc, selected_row (lda_getitem ldamodel doc) ≠ []) corpus →
  length data = length corpus →
  ∃ df,
    format_topics_sentences ldamodel corpus data = Ok df ∧
    length df = length corpus ∧
    ∀ i doc, corpus !! i = Some doc →
      ∃ row t text,
        df !! i = Some row ∧
        Document_No row = i ∧
        dominant_topic (selected_row (lda_getitem ldamodel doc)) = Ok t ∧
        Dominant_Topic row = Some t ∧
        data !! i = Some text ∧
        Text_ row = Some text.
Proof.
  intros Hlib Hne Hpairs Hlen.
  destruct (format_topics_sentences_table ldamodel corpus data Hlib)
    as [_ Hsome].
  assert (filter (λ doc, selected_row (lda_getitem ldamodel doc) ≠ []) corpus
          = corpus) as Hall.
  { clear -Hpairs. induction corpus as [|doc corpus IH]; [done|].
    apply Forall_cons in Hpairs as [Hdoc Hpairs].
    rewrite filter_cons, decide_True by done. by rewrite IH. }
  rewrite Hall in Hsome.
  destruct (Hsome Hne) as (df & Hrun & Hdf & Hrows).
  exists df. split; [done|]. split; [lia|].
  intros i doc Hdoc.
  destruct (lookup_lt_is_Some_2 df i) as [row Hrow].
  { apply lookup_lt_Some in Hdoc. lia. }
  destruct (lookup_lt_is_Some_2 data i) as [text Htext].
  { apply lookup_lt_Some in Hdoc. lia. }
  destruct (Hrows i row Hrow) as (Hno & Hcol & Htopic).
  rewrite Hdoc in Htopic. destruct Htopic as (t & Hdom & Htop & _).
  exists row, t, text. repeat split; try done. by rewrite Hcol.
Qed.

Lemma format_topics_sentences_aligned_witness :
  ∃ df,
    format_topics_sentences (R := SmallReport.reporting)
      (Small.lda12 Small.corpus6) Small.corpus6
      [["cat"; "cat"; "dog"]; ["cat"; "cat"; "cat"; "cat"; "car"; "car"]]
      = Ok df ∧
    length df = 2%nat ∧
    ∀ i doc, Small.corpus6 !! i = Some doc →
      ∃ row t text,
        df !! i = Some row ∧
        Document_No row = i ∧
        dominant_topic
          (selected_row (Small.infer (Small.lda12 Small.corpus6) doc)) = Ok t ∧
        Dominant_Topic row = Some t ∧
        [["cat"; "cat"; "dog"]; ["cat"; "cat"; "cat"; "cat"; "car"; "car"]] !! i
        = Some text ∧
        Text_ row = Some text.
Proof.
  apply (format_topics_sentences_aligned (R := SmallReport.reporting)
           (Small.lda12 Small.corpus6) Small.corpus6).
  - reflexivity.
  - done.
  - concrete_Forall ltac:(by vm_compute).
  - reflexivity.
Defined.

(** ** Word counts per dominant topic *)

Lemma doc_lens_of_texts (sub : list dominant_row) :
  (Forall (λ r, is_Some (Text_ r)) sub →
   doc_lens_of sub = Ok (omap (λ r, length <$> Text_ r) sub)) ∧
  (Exists (λ r, Text_ r = None) sub → doc_lens_of sub = Raise TypeError).
Proof.
  induction sub as [|r sub [IHok IHraise]].
  - split; [done|]. intros Hex. by apply Exists_nil in Hex.
  - cbn [doc_lens_of omap list_omap].
    destruct (Text_ r) as [d|] eqn:Htext.
    + split.
      * intros [_ Hall]%Forall_cons. by rewrite (IHok Hall).
      * intros [Hnone|Hex]%Exists_cons; [congruence|].
        by rewrite (IHraise Hex).
    + split; [|done].
      intros [[d Hsome] _]%Forall_cons. congruence.
Qed.

Lemma for_each_raise_some {A B : Type} (f : A → result B) (l : list A)
    (e : exn) :
  Forall (λ x, (∃ y, f x = Ok y) ∨ f x = Raise e) l →
  Exists (λ x, f x = Raise e) l →
  for_each f l = Raise e.
Proof.
  induction l as [|x l IH]; intros Hall Hex.
  - by apply Exists_nil in Hex.
  - apply Forall_cons in Hall as [Hx Hall]. simpl.
    destruct Hx as [[y Hy]|Hx]; [|by rewrite Hx].
    rewrite Hy, bind_Ok.
    apply Exists_cons in Hex as [Hx|Hex]; [congruence|].
    by rewrite (IH Hall Hex).
Qed.

Lemma for_each_Ok_or_raise {A B : Type} (f : A → result B) (l : list A)
    (e : exn) :
  Forall (λ x, (∃ y, f x = Ok y) ∨ f x = Raise e) l →
  (∃ ys, for_each f l = Ok ys) ∨ for_each f l = Raise e.
Proof.
  induction l as [|x l IH]; intros Hall.
  - left. by exists [].
  - apply Forall_cons in Hall as [Hx Hall]. simpl.
    destruct Hx as [[y ->] | ->]; [|by right].
    rewrite bind_Ok.
    destruct (IH Hall) as [[ys ->] | ->]; [|by right].
    left. by eexists.
Qed.

(** The figures, axes by axes. *)
Lemma words_per_doc_table `{M : Matplotlib}
    (df : list dominant_row) :
  TABLEAU_COLORS ≠ [] →
  let shown (r : dominant_row) :=
    ∃ idx, 0 ≤ idx < 12 ∧ Dominant_Topic r = Some idx in
  (Forall (λ r, shown r → is_Some (Text_ r)) df →
   ∃ figures,
     makeWordsPerDocVisualization df = Ok figures ∧
     length figures = 2%nat ∧
     ∀ j i, (j < 2)%nat → (i < 6)%nat →
       ∃ axes ax,
         figures !! j = Some axes ∧ length axes = 6%nat ∧
         axes !! i = Some ax ∧
         ha_title ax = "Topic: " +:+ pretty (Z.of_nat i + Z.of_nat j * 6) ∧
         TABLEAU_COLORS.*2
           !! Z.to_nat ((Z.of_nat i + Z.of_nat j * 6)
                        `mod` Z.of_nat (length TABLEAU_COLORS))
         = Some (ha_color ax) ∧
         ha_doc_lens ax
         = omap (λ r, length <$> Text_ r)
             (filter (λ r, Dominant_Topic r
                           = Some (Z.of_nat i + Z.of_nat j * 6)) df) ∧
         ha_density ax = bool_decide (1 < length (ha_doc_lens ax))%nat) ∧
  (Exists (λ r, shown r ∧ Text_ r = None) df →
   makeWordsPerDocVisualization df = Raise TypeError).
Proof.
  intros Hcolors shown. unfold makeWordsPerDocVisualization.
  assert (0 < Z.of_nat (length TABLEAU_COLORS.*2)) as Hlen.
  { rewrite length_fmap. destruct TABLEAU_COLORS; [done|]. simpl. lia. }
  (* one axes object *)
  assert (∀ idx,
    let sub := filter (λ r, Dominant_Topic r = Some idx) df in
    (Forall (λ r, is_Some (Text_ r)) sub →
     ∃ ax,
       histogram_axes_at df TABLEAU_COLORS.*2 idx = Ok ax ∧
       ha_title ax = "Topic: " +:+ pretty idx ∧
       TABLEAU_COLORS.*2
         !! Z.to_nat (idx `mod` Z.of_nat (length TABLEAU_COLORS))
       = Some (ha_color ax) ∧
       ha_doc_lens ax = omap (λ r, length <$> Text_ r) sub ∧
       ha_density ax = bool_decide (1 < length (ha_doc_lens ax))%nat) ∧
    (Exists (λ r, Text_ r = None) sub →
     histogram_axes_at df TABLEAU_COLORS.*2 idx = Raise TypeError)) as Hax.
  { intros idx sub. unfold histogram_axes_at. fold sub.
    destruct (doc_lens_of_texts sub) as [Hok Hraise]. split.
    - intros Hall. rewrite (Hok Hall), bind_Ok.
      unfold py_mod. rewrite decide_False by lia. rewrite bind_Ok.
      destruct (py_getitem_in_range TABLEAU_COLORS.*2
                  (idx `mod` Z.of_nat (length TABLEAU_COLORS.*2)))
        as (color & Hcolor & ->).
      { by apply Z.mod_pos_bound. }
      rewrite bind_Ok. eexists. split; [reflexivity|]. simpl.
      rewrite length_fmap in Hcolor. by repeat split.
    - intros Hex. by rewrite (Hraise Hex). }
  (* the topics drawn are 0 to 11 *)
  assert (∀ j i, j ∈ py_range 2 → i ∈ py_range 6 → 0 ≤ i + j * 6 < 12)
    as Hidx.
  { intros j i Hj Hi. unfold py_range in *.
    apply list_elem_of_fmap in Hj as (j' & -> & Hj').
    apply list_elem_of_fmap in Hi as (i' & -> & Hi').
    apply elem_of_seq in Hj', Hi'. lia. }
  assert (∀ idx, Forall (λ r, shown r → is_Some (Text_ r)) df →
            0 ≤ idx < 12 →
            Forall (λ r, is_Some (Text_ r))
                   (filter (λ r, Dominant_Topic r = Some idx) df)) as Hsub.
  { intros idx Hall Hin. apply Forall_forall. intros r Hr.
    apply list_elem_of_filter in Hr as [Htopic Hr].
    apply (proj1 (Forall_forall _ _) Hall r Hr). by exists idx. }
  split.
  - intros Hall.
    destruct (for_each_Ok
      (λ j, for_each (λ i, histogram_axes_at df TABLEAU_COLORS.*2 (i + j * 6))
                     (py_range 6)) (py_range 2)) as (figures & -> & Hfigs).
    { apply Forall_forall. intros j Hj.
      destruct (for_each_Ok
        (λ i, histogram_axes_at df TABLEAU_COLORS.*2 (i + j * 6))
        (py_range 6)) as (axes & ? & _); [|by exists axes].
      apply Forall_forall. intros i Hi.
      destruct (proj1 (Hax (i + j * 6))) as (ax & ? & _); [|by exists ax].
      apply Hsub; [done|]. by apply Hidx. }
    exists figures. split; [done|]. split.
    { by apply Forall2_length in Hfigs. }
    intros j i Hj Hi.
    destruct (Forall2_lookup_l _ _ _ _ _ Hfigs (py_range_lookup 2 j Hj))
      as (axes & Hfig & Haxes).
    destruct (for_each_Ok
      (λ i, histogram_axes_at df TABLEAU_COLORS.*2 (i + Z.of_nat j * 6))
      (py_range 6)) as (axes' & Haxes' & Hrel).
    { apply Forall_forall. intros i' Hi'.
      destruct (proj1 (Hax (i' + Z.of_nat j * 6))) as (ax & ? & _);
        [|by exists ax].
      apply Hsub; [done|]. apply Hidx; [|done].
      apply list_elem_of_lookup. exists j. by apply py_range_lookup. }
    rewrite Haxes in Haxes'. simplify_eq.
    destruct (Forall2_lookup_l _ _ _ _ _ Hrel (py_range_lookup 6 i Hi))
      as (ax & Hlook & Hrun).
    destruct (proj1 (Hax (Z.of_nat i + Z.of_nat j * 6)))
      as (ax' & Hrun' & Htitle & Hcolor & Hlens & Hdens).
    { apply Hsub; [done|]. lia. }
    rewrite Hrun in Hrun'. simplify_eq.
    exists axes', ax'. repeat split; try done.
    by apply Forall2_length in Hrel.
  - intros Hex.
    apply Exists_exists in Hex as (r & Hr & (idx & Hin & Htopic) & Hnone).
    (* every axes object is drawn or raises TypeError *)
    assert (∀ idx', (∃ ax, histogram_axes_at df TABLEAU_COLORS.*2 idx' = Ok ax)
                    ∨ histogram_axes_at df TABLEAU_COLORS.*2 idx'
                      = Raise TypeError) as Hone.
    { intros idx'.
      destruct (decide (Forall (λ r, is_Some (Text_ r))
                  (filter (λ r, Dominant_Topic r = Some idx') df)))
        as [Hall|Hnot].
      - left. destruct (proj1 (Hax idx') Hall) as (ax & ? & _). by exists ax.
      - right. apply (proj2 (Hax idx')).
        apply not_Forall_Exists in Hnot; [|intros x; apply _].
        eapply Exists_impl; [exact Hnot|]. simpl. intros x Hx.
        destruct (Text_ x); [|done]. by destruct Hx. }
    assert (histogram_axes_at df TABLEAU_COLORS.*2 idx = Raise TypeError)
      as Hbad.
    { apply (proj2 (Hax idx)). apply Exists_exists. exists r.
      split; [|done]. by apply list_elem_of_filter. }
    assert (∀ j, (∃ axes, for_each
                   (λ i, histogram_axes_at df TABLEAU_COLORS.*2 (i + j * 6))
                   (py_range 6) = Ok axes)
                 ∨ for_each
                     (λ i, histogram_axes_at df TABLEAU_COLORS.*2 (i + j * 6))
                     (py_range 6) = Raise TypeError) as Hfig.
    { intros j. apply for_each_Ok_or_raise.
      apply Forall_forall. intros i _. apply Hone. }
    apply for_each_raise_some.
    + apply Forall_forall. intros j _. apply Hfig.
    + apply Exists_exists. exists (idx `div` 6). split.
      * unfold py_range. apply list_elem_of_fmap.
        exists (Z.to_nat (idx `div` 6)). split.
        -- rewrite Z2Nat.id; [done|]. apply Z.div_pos; lia.
        -- apply elem_of_seq.
           assert (idx `div` 6 < 2) by (apply Z.div_lt_upper_bound; lia).
           assert (0 ≤ idx `div` 6) by (apply Z.div_pos; lia). lia.
      * apply for_each_raise_some.
        -- apply Forall_forall. intros i _. apply Hone.
        -- apply Exists_exists. exists (idx `mod` 6). split.
           ++ unfold py_range. apply list_elem_of_fmap.
              exists (Z.to_nat (idx `mod` 6)).
              pose proof (Z.mod_pos_bound idx 6 ltac:(lia)). split.
              ** rewrite Z2Nat.id; lia.
              ** apply elem_of_seq. lia.
           ++ replace (idx `mod` 6 + idx `div` 6 * 6) with idx; [done|].
              pose proof (Z.div_mod idx 6 ltac:(lia)). lia.
Qed.

(** X16.  With at least one colour, [makeWordsPerDocVisualization] draws
    two figures of six axes when every line whose dominant topic is one of
    0 to 11 has its text.  The axes at position i of figure j is that of
    topic i + 6j: its histogram counts the words of the texts of the lines
    of that topic, in order, and of no other line, its colour is the one at
    position (i + 6j) modulo the number of colours, and the density is
    drawn when there are two texts or more.  A line of one of these topics
    without text makes the whole drawing raise [TypeError]. *)
Theorem words_per_doc_figures `{M : Matplotlib}
    (df : list dominant_row) :
  TABLEAU_COLORS ≠ [] →
  let shown (r : dominant_row) :=
    ∃ idx, 0 ≤ idx < 12 ∧ Dominant_Topic r = Some idx in
  (Forall (λ r, shown r → is_Some (Text_ r)) df →
   ∃ figures,
     makeWordsPerDocVisualization df = Ok figures ∧
     length figures = 2%nat ∧
     ∀ j i, (j < 2)%nat → (i < 6)%nat →
       ∃ axes ax,
         figures !! j = Some axes ∧ length axes = 6%nat ∧
         axes !! i = Some ax ∧
         ha_title ax = "Topic: " +:+ pretty (Z.of_nat i + Z.of_nat j * 6) ∧
         TABLEAU_COLORS.*2
           !! Z.to_nat ((Z.of_nat i + Z.of_nat j * 6)
                        `mod` Z.of_nat (length TABLEAU_COLORS))
         = Some (ha_color ax) ∧
         ha_doc_lens ax
         = omap (λ r, length <$> Text_ r)
             (filter (λ r, Dominant_Topic r
                           = Some (Z.of_nat i + Z.of_nat j * 6)) df) ∧
         ha_density ax = bool_decide (1 < length (ha_doc_lens ax))%nat) ∧
  (Exists (λ r, shown r ∧ Text_ r = None) df →
   makeWordsPerDocVisualization df = Raise TypeError).
Proof. apply words_per_doc_table. Qed.

Lemma words_per_doc_figures_witness :
  let df := [ mkDominantRow 0 (Some 7) (Some 0.75%Q) (Some "cat, dog")
                            (Some ["a"; "b"; "c"]);
              mkDominantRow 1 (Some 10) (Some 0.5%Q) (Some "car")
                            (Some ["d"]);
              mkDominantRow 2 None None None (Some ["e"; "f"]);
              mkDominantRow 3 (Some 12) (Some 1%Q) (Some "") None ] in
  ∃ figures,
    makeWordsPerDocVisualization (M := Small.matplotlib) df = Ok figures ∧
    length figures = 2%nat ∧
    ∀ j i, (j < 2)%nat → (i < 6)%nat →
      ∃ axes ax,
        figures !! j = Some axes ∧ length axes = 6%nat ∧
        axes !! i = Some ax ∧
        ha_title ax = "Topic: " +:+ pretty (Z.of_nat i + Z.of_nat j * 6) ∧
        (@TABLEAU_COLORS Small.matplotlib).*2
          !! Z.to_nat ((Z.of_nat i + Z.of_nat j * 6) `mod` Z.of_nat 10)
        = Some (ha_color ax) ∧
        ha_doc_lens ax
        = omap (λ r, length <$> Text_ r)
            (filter (λ r, Dominant_Topic r
                          = Some (Z.of_nat i + Z.of_nat j * 6)) df) ∧
        ha_density ax = bool_decide (1 < length (ha_doc_lens ax))%nat.
Proof.
  intros df.
  destruct (words_per_doc_figures (M := Small.matplotlib) df) as [Hdrawn _].
  - done.
  - apply Hdrawn. unfold df.
    concrete_Forall ltac:(first [ by (intros _; eexists)
                                | intros (idx & Hin & Htopic);
                                  simplify_eq; lia ]).
Defined.

Lemma word_importance_figures_witness :
  ∃ figures,
    makeWordWeightImportanceVisualization (R := SmallReport.reporting)
      (M := Small.matplotlib) (Small.lda12 Small.corpus6)
      [["cat"; "dog"; "cat"]; ["car"]] = Ok figures ∧
    length figures = 3%nat ∧
    ∀ j i, (j < 3)%nat → (i < 4)%nat →
      ∃ axes ax,
        figures !! j = Some axes ∧ length axes = 4%nat ∧
        axes !! i = Some ax ∧
        ia_title ax = "Topic: " +:+ pretty (Z.of_nat i + Z.of_nat j * 4) ∧
        (@TABLEAU_COLORS Small.matplotlib).*2
          !! Z.to_nat ((Z.of_nat i + Z.of_nat j * 4) `mod` Z.of_nat 10)
        = Some (ia_color ax) ∧
        ia_rows ax
        = filter (λ r, topic_id r = Z.of_nat i + Z.of_nat j * 4)
            (importance_table
               (SmallReport.listed_topics (Small.lda12 Small.corpus6) 12 20)
               [["cat"; "dog"; "cat"]; ["car"]]).
Proof.
  destruct (word_importance_figures (R := SmallReport.reporting)
              (M := Small.matplotlib) (Small.lda12 Small.corpus6)
              [["cat"; "dog"; "cat"]; ["car"]]) as [Hdrawn _].
  by apply Hdrawn.
Defined.

(** ** Word clouds *)

Lemma for_each_first_raise {A B : Type} (f : A → result B)
    (before : list A) (x : A) (after : list A) (e : exn) :
  Forall (λ y, ∃ z, f y = Ok z) before →
  f x = Raise e →
  for_each f (before ++ x :: after) = Raise e.
Proof.
  intros Hbefore Hx. induction Hbefore as [|y before [z Hy] _ IH]; simpl.
  - by rewrite Hx.
  - by rewrite Hy, bind_Ok, IH.
Qed.

Lemma py_range_split (n m : nat) :
  (m < n)%nat →
  py_range n
  = py_range m ++ Z.of_nat m :: (Z.of_nat <$> seq (S m) (n - S m)).
Proof.
  intros Hm. unfold py_range.
  replace n with (m + S (n - S m))%nat at 1 by lia.
  by rewrite seq_app, fmap_app.
Qed.

Lemma elem_of_py_range (n : nat) (k : Z) :
  k ∈ py_range n → ∃ i, k = Z.of_nat i ∧ (i < n)%nat.
Proof.
  unfold py_range. intros (i & -> & Hi)%list_elem_of_fmap.
  apply elem_of_seq in Hi. exists i. split; [done|lia].
Qed.

(** A loop over rows and columns: every cell drawn, or stopped at the
    first cell that raises. *)
Lemma grid_Ok {B : Type} (g : Z → Z → result B) (rows cols : nat) :
  (∀ j i, (j < rows)%nat → (i < cols)%nat →
     ∃ y, g (Z.of_nat j) (Z.of_nat i) = Ok y) →
  ∃ figures,
    for_each (λ j, for_each (g j) (py_range cols)) (py_range rows)
    = Ok figures ∧
    length figures = rows ∧
    ∀ j i, (j < rows)%nat → (i < cols)%nat →
      ∃ axes y,
        figures !! j = Some axes ∧ length axes = cols ∧
        axes !! i = Some y ∧ g (Z.of_nat j) (Z.of_nat i) = Ok y.
Proof.
  intros Hcells.
  assert (∀ j, (j < rows)%nat →
            ∃ axes, for_each (g (Z.of_nat j)) (py_range cols) = Ok axes ∧
                    Forall2 (λ i y, g (Z.of_nat j) i = Ok y)
                            (py_range cols) axes) as Hrow.
  { intros j Hj. apply for_each_Ok. apply Forall_forall. intros k Hk.
    apply elem_of_py_range in Hk as (i & -> & Hi). by apply Hcells. }
  destruct (for_each_Ok (λ j, for_each (g j) (py_range cols)) (py_range rows))
    as (figures & Hrun & Hfigs).
  { apply Forall_forall. intros k Hk.
    apply elem_of_py_range in Hk as (j & -> & Hj).
    destruct (Hrow j Hj) as (axes & ? & _). by exists axes. }
  exists figures. split; [done|]. split.
  { apply Forall2_length in Hfigs. rewrite <- Hfigs.
    unfold py_range. by rewrite length_fmap, length_seq. }
  intros j i Hj Hi.
  destruct (Forall2_lookup_l _ _ _ _ _ Hfigs (py_range_lookup rows j Hj))
    as (axes & Hfig & Haxes).
  destruct (Hrow j Hj) as (axes' & Haxes' & Hrel).
  rewrite Haxes in Haxes'. simplify_eq.
  destruct (Forall2_lookup_l _ _ _ _ _ Hrel (py_range_lookup cols i Hi))
    as (y & Hlook & Hy).
  exists axes', y. repeat split; try done.
  apply Forall2_length in Hrel. rewrite <- Hrel.
  unfold py_range. by rewrite length_fmap, length_seq.
Qed.

Lemma grid_first_raise {B : Type} (g : Z → Z → result B) (rows cols : nat)
    (j i : nat) (e : exn) :
  (j < rows)%nat → (i < cols)%nat →
  (∀ j' i', (j' < rows)%nat → (i' < cols)%nat →
     (j' < j)%nat ∨ (j' = j ∧ (i' < i)%nat) →
     ∃ y, g (Z.of_nat j') (Z.of_nat i') = Ok y) →
  g (Z.of_nat j) (Z.of_nat i) = Raise e →
  for_each (λ j, for_each (g j) (py_range cols)) (py_range rows) = Raise e.
Proof.
  intros Hj Hi Hbefore Hcell.
  rewrite (py_range_split rows j Hj).
  apply for_each_first_raise.
  - apply Forall_forall. intros k Hk.
    apply elem_of_py_range in Hk as (j' & -> & Hj').
    destruct (for_each_Ok (g (Z.of_nat j')) (py_range cols))
      as (axes & ? & _); [|by exists axes].
    apply Forall_forall. intros k Hk.
    apply elem_of_py_range in Hk as (i' & -> & Hi').
    apply Hbefore; [lia|done|by left].
  - rewrite (py_range_split cols i Hi).
    apply for_each_first_raise; [|done].
    apply Forall_forall. intros k Hk.
    apply elem_of_py_range in Hk as (i' & -> & Hi').
    apply Hbefore; [done|lia|by right].
Qed.

Lemma dict_set_not_nil (d : list (string * Q)) (k : string) (v : Q) :
  dict_set d k v ≠ [].
Proof. destruct d as [|[k' v'] d]; simpl; [done|]. by destruct (decide _). Qed.

(** [dict(pairs)] is empty only for no pair. *)
Lemma py_dict_nil (pairs : list (string * Q)) :
  py_dict pairs = [] ↔ pairs = [].
Proof.
  split; [|by intros ->].
  assert (∀ (rest : list (string * Q)) d,
            d ≠ [] → foldl (λ d p, dict_set d p.1 p.2) d rest ≠ []) as Hkeeps.
  { induction rest as [|p rest IH]; intros d Hd; [done|].
    simpl. apply IH, dict_set_not_nil. }
  destruct pairs as [|p pairs]; [done|].
  unfold py_dict. simpl. intros Hnil.
  by apply Hkeeps in Hnil.
Qed.

(** One cloud: the four ways the body of the loop can end. *)
Lemma cloud_axes_at_cases `{W : WordCloudLib}
    (topics : list (Z * list (string * Q))) (cols : list string)
    (words_in_cloud : nat) (i : Z) (k : nat) :
  match topics !! k with
  | None =>
      cloud_axes_at topics cols words_in_cloud i (Z.of_nat k)
      = Raise IndexError
  | Some topic =>
      if decide (topic.2 = []) then
        cloud_axes_at topics cols words_in_cloud i (Z.of_nat k)
        = Raise ValueError
      else
        cloud_axes_at topics cols words_in_cloud i (Z.of_nat k)
        = image ← cloud_layout words_in_cloud (py_dict topic.2)
                               (py_getitem cols i);
          Ok (mkCloudAxes ("Topic " +:+ pretty (Z.of_nat k)) image)
  end.
Proof.
  unfold cloud_axes_at.
  destruct (topics !! k) as [topic|] eqn:Htopic.
  - rewrite (py_getitem_nonneg _ _ _ Htopic), bind_Ok.
    unfold generate_from_frequencies.
    destruct (decide (topic.2 = [])) as [Hnone|Hsome].
    + by rewrite (proj2 (py_dict_nil _) Hnone).
    + destruct (py_dict topic.2) eqn:Hdict; [|done].
      destruct Hsome. by apply py_dict_nil.
  - apply lookup_ge_None in Htopic.
    by rewrite (py_getitem_beyond topics) by lia.
Qed.

(** X17.  [makeWordCloudVisualization] asks the model for 12 topics and
    draws three figures of four clouds, in the order of the topics.  The
    cloud at position i of figure j is laid out from the words of the
    topic listed at position i + 4j, but in the colour at position i, the
    place in the figure: the topics at positions i, i + 4 and i + 8 share a
    colour.  The function returns when each of the 12 clouds is laid out.
    It stops at the first cloud that is not: with [IndexError] when the
    model lists no topic at that position, with [ValueError] when the topic
    lists no word, as it does when no word is asked for, and with the
    exception of the layout otherwise. *)
Theorem word_cloud_figures `{R : Reporting} `{M : Matplotlib}
    `{W : WordCloudLib} (lda_model : lda) (words_in_cloud : nat) :
  let topics := show_topics lda_model 12 words_in_cloud in
  let cols := TABLEAU_COLORS.*2 in
  let drawn (j i : nat) (image : cloud_image) :=
    ∃ topic,
      topics !! (i + 4 * j)%nat = Some topic ∧ topic.2 ≠ [] ∧
      cloud_layout words_in_cloud (py_dict topic.2)
                   (py_getitem cols (Z.of_nat i)) = Ok image in
  ((∀ j i, (j < 3)%nat → (i < 4)%nat → ∃ image, drawn j i image) →
   ∃ figures,
     makeWordCloudVisualization lda_model words_in_cloud = Ok figures ∧
     length figures = 3%nat ∧
     ∀ j i, (j < 3)%nat → (i < 4)%nat →
       ∃ axes cloud,
         figures !! j = Some axes ∧ length axes = 4%nat ∧
         axes !! i = Some cloud ∧
         ca_title cloud = "Topic " +:+ pretty (Z.of_nat i + Z.of_nat j * 4) ∧
         drawn j i (ca_image cloud)) ∧
  (∀ j i, (j < 3)%nat → (i < 4)%nat →
     (∀ j' i', (j' < 3)%nat → (i' < 4)%nat →
        (i' + 4 * j' < i + 4 * j)%nat → ∃ image, drawn j' i' image) →
     (topics !! (i + 4 * j)%nat = None →
      makeWordCloudVisualization lda_model words_in_cloud
      = Raise IndexError) ∧
     (∀ topic, topics !! (i + 4 * j)%nat = Some topic → topic.2 = [] →
        makeWordCloudVisualization lda_model words_in_cloud
        = Raise ValueError) ∧
     (∀ topic e, topics !! (i + 4 * j)%nat = Some topic → topic.2 ≠ [] →
        cloud_layout words_in_cloud (py_dict topic.2)
                     (py_getitem cols (Z.of_nat i)) = Raise e →
        makeWordCloudVisualization lda_model words_in_cloud = Raise e)).
Proof.
  intros topics cols drawn.
  set (g := λ j i : Z, cloud_axes_at topics cols words_in_cloud i (i + j * 4)).
  assert (makeWordCloudVisualization lda_model words_in_cloud
          = for_each (λ j, for_each (g j) (py_range 4)) (py_range 3))
    as -> by reflexivity.
  assert (∀ j i : nat,
            g (Z.of_nat j) (Z.of_nat i)
            = cloud_axes_at topics cols words_in_cloud (Z.of_nat i)
                            (Z.of_nat (i + 4 * j))) as Hg.
  { intros j i. unfold g. f_equal. lia. }
  assert (∀ j i image, drawn j i image →
            g (Z.of_nat j) (Z.of_nat i)
            = Ok (mkCloudAxes
                    ("Topic " +:+ pretty (Z.of_nat i + Z.of_nat j * 4))
                    image)) as Hdrawn.
  { intros j i image (topic & Htopic & Hwords & Hlayout).
    rewrite Hg.
    pose proof (cloud_axes_at_cases topics cols words_in_cloud (Z.of_nat i)
                  (i + 4 * j)) as Hcases.
    rewrite Htopic, decide_False in Hcases by done.
    rewrite Hcases, Hlayout, bind_Ok.
    by replace (Z.of_nat (i + 4 * j)) with (Z.of_nat i + Z.of_nat j * 4)
      by lia. }
  split.
  - intros Hall.
    destruct (grid_Ok g 3 4) as (figures & Hrun & Hlen & Hcells).
    { intros j i Hj Hi. destruct (Hall j i Hj Hi) as [image Himage].
      rewrite (Hdrawn j i image Himage). by eexists. }
    exists figures. split; [done|]. split; [done|].
    intros j i Hj Hi.
    destruct (Hcells j i Hj Hi) as (axes & cloud & Hfig & Haxes & Hax & Hcell).
    destruct (Hall j i Hj Hi) as [image Himage].
    rewrite (Hdrawn j i image Himage) in Hcell. injection Hcell as <-.
    by eexists axes, _.
  - intros j i Hj Hi Hbefore.
    assert (∀ e, g (Z.of_nat j) (Z.of_nat i) = Raise e →
              for_each (λ j, for_each (g j) (py_range 4)) (py_range 3)
              = Raise e) as Hstop.
    { intros e Hcell. apply (grid_first_raise g 3 4 j i e); try done.
      intros j' i' Hj' Hi' Horder.
      destruct (Hbefore j' i' Hj' Hi' ltac:(lia)) as [image Himage].
      rewrite (Hdrawn j' i' image Himage). by eexists. }
    pose proof (cloud_axes_at_cases topics cols words_in_cloud (Z.of_nat i)
                  (i + 4 * j)) as Hcases.
    split; [|split].
    + intros Hnone. apply Hstop. rewrite Hg. by rewrite Hnone in Hcases.
    + intros topic Htopic Hwords. apply Hstop. rewrite Hg.
      by rewrite Htopic, decide_True in Hcases.
    + intros topic e Htopic Hwords Hlayout. apply Hstop. rewrite Hg.
      rewrite Htopic, decide_False in Hcases by done.
      by rewrite Hcases, Hlayout.
Qed.

Lemma word_cloud_figures_witness :
  (∃ figures,
     makeWordCloudVisualization (R := SmallReport.reporting)
       (M := Small.matplotlib) (W := SmallCloud.wordcloud)
       SmallCloud.lda_wide 2 = Ok figures ∧
     length figures = 3%nat ∧
     ∃ axes cloud,
       figures !! 1%nat = Some axes ∧ axes !! 2%nat = Some cloud ∧
       ca_title cloud = "Topic 6" ∧
       ca_image cloud = ("#2ca02c", ["gnu"; "hen"])) ∧
  makeWordCloudVisualization (R := SmallReport.reporting)
    (M := Small.matplotlib) (W := SmallCloud.wordcloud)
    SmallCloud.lda_five 2 = Raise IndexError ∧
  makeWordCloudVisualization (R := SmallReport.reporting)
    (M := Small.matplotlib) (W := SmallCloud.wordcloud)
    (Small.lda12 Small.corpus6) 2 = Raise ValueError ∧
  makeWordCloudVisualization (R := SmallReport.reporting)
    (M := Small.matplotlib) (W := SmallCloud.wordcloud)
    SmallCloud.lda_wide 0 = Raise ValueError.
Proof.
  assert (∀ (P : nat → nat → Prop),
            (∀ j i, (j < 3)%nat → (i < 4)%nat → P j i)
            ↔ (P 0 0 ∧ P 0 1 ∧ P 0 2 ∧ P 0 3)%nat
              ∧ (P 1 0 ∧ P 1 1 ∧ P 1 2 ∧ P 1 3)%nat
              ∧ (P 2 0 ∧ P 2 1 ∧ P 2 2 ∧ P 2 3)%nat) as Hgrid.
  { intros P. split.
    - intros H. repeat split; apply H; lia.
    - intros H j i Hj Hi.
      destruct j as [|[|[|j]]]; [| | |lia];
        (destruct i as [|[|[|[|i]]]]; [| | | |lia]); tauto. }
  split; [|split; [|split]].
  - destruct (word_cloud_figures (R := SmallReport.reporting)
                (M := Small.matplotlib) (W := SmallCloud.wordcloud)
                SmallCloud.lda_wide 2) as [Hdrawn _].
    destruct Hdrawn as (figures & Hrun & Hlen & Hcells).
    + apply Hgrid.
      repeat split; (eexists; eexists; split; [reflexivity|];
                     split; [discriminate|reflexivity]).
    + exists figures. split; [done|]. split; [done|].
      destruct (Hcells 1%nat 2%nat ltac:(lia) ltac:(lia))
        as (axes & cloud & Hfig & _ & Hax & Htitle & Himage).
      exists axes, cloud. split; [done|]. split; [done|]. split; [done|].
      destruct Himage as (topic & Htopic & _ & Hlayout).
      vm_compute in Htopic. injection Htopic as <-.
      vm_compute in Hlayout. by injection Hlayout.
  - destruct (word_cloud_figures (R := SmallReport.reporting)
                (M := Small.matplotlib) (W := SmallCloud.wordcloud)
                SmallCloud.lda_five 2) as [_ Hstops].
    destruct (Hstops 1%nat 1%nat ltac:(lia) ltac:(lia)) as (Hnone & _ & _).
    + intros j' i' Hj' Hi' Horder.
      destruct j' as [|[|[|j']]]; destruct i' as [|[|[|[|i']]]]; try lia;
        (eexists; eexists; split; [reflexivity|];
         split; [discriminate|reflexivity]).
    + by apply Hnone.
  - destruct (word_cloud_figures (R := SmallReport.reporting)
                (M := Small.matplotlib) (W := SmallCloud.wordcloud)
                (Small.lda12 Small.corpus6) 2) as [_ Hstops].
    destruct (Hstops 0%nat 3%nat ltac:(lia) ltac:(lia)) as (_ & Hnoword & _).
    + intros j' i' Hj' Hi' Horder.
      destruct j' as [|[|[|j']]]; destruct i' as [|[|[|[|i']]]]; try lia;
        (eexists; eexists; split; [reflexivity|];
         split; [discriminate|reflexivity]).
    + by eapply Hnoword.
  - destruct (word_cloud_figures (R := SmallReport.reporting)
                (M := Small.matplotlib) (W := SmallCloud.wordcloud)
                SmallCloud.lda_wide 0) as [_ Hstops].
    destruct (Hstops 0%nat 0%nat ltac:(lia) ltac:(lia)) as (_ & Hnoword & _).
    + intros j' i' Hj' Hi' Horder. lia.
    + by eapply Hnoword.
Defined.

(** ** The matrices and the labels of the script *)

Lemma getDataHayle_defined (G : Gensim) (S : Sheeple) (getTrain : bool) :
  let dats := if getTrain then fetch_data.1 else fetch_data.2 in
  (length (Bunch_data dats) ≤ length (Bunch_target dats))%nat →
  ∃ data target,
    getDataHayle getTrain = Ok (data, create_new_labels target) ∧
    length data = length target ∧
    length data = length (surviving (sent_to_words (Bunch_data dats))) ∧
    Forall (λ sentence, sentence ≠ []) data.
Proof.
  intros dats Hlen.
  destruct (getData_loop_lockstep (sent_to_words (Bunch_data dats))
              (Bunch_target dats)
              (seq 0 (length (sent_to_words (Bunch_data dats)))) [] [])
    as (data & target & Hloop & Hdata & Htarget).
  { apply Forall_forall. intros i Hi. apply elem_of_seq in Hi.
    unfold sent_to_words in *. rewrite length_fmap in *. lia. }
  fold (surviving (sent_to_words (Bunch_data dats))) in Hdata, Htarget.
  exists data, target. split; [|split; [|split]].
  - unfold getDataHayle. fold dats. by rewrite Hloop.
  - apply Forall2_length in Hdata, Htarget. congruence.
  - symmetry. by eapply Forall2_length.
  - apply Forall_forall. intros sentence Hin.
    apply list_elem_of_lookup in Hin as [j Hj].
    destruct (Forall2_lookup_r _ _ _ _ _ Hdata Hj) as (i & _ & _ & Hne).
    done.
Qed.

(** The documents [getDataHayle] keeps have a term as soon as there is
    one of them. *)
Lemma no_terms_kept (data : list (list string)) :
  Forall (λ sentence, sentence ≠ []) data →
  no_terms data ↔ data = [].
Proof.
  intros Hdata. unfold no_terms. split; [|by intros ->].
  destruct Hdata as [|sentence data Hne _]; [done|].
  simpl. intros Hnil. by apply app_eq_nil in Hnil as [? _].
Qed.

(** X18.  When each document of the two splits has a label, the label
    remapping keeps the number of labels and inference stays in range on
    the corpora of the models built, the script reaches the calls of
    [cluster] and [train_] exactly when each split has a document with a
    token, and then with matrices that have one row per label, [mat] for
    [target] and [matTest] for [targetTest], and per surviving document.
    When all the documents of a split are filtered out, the script ends in
    [buildModel] with the [ValueError] of the trainer. *)
Theorem main_features_aligned (G : Gensim) (S : Sheeple)
    (e e_test : entropy) :
  let train := sent_to_words (Bunch_data fetch_data.1) in
  let test := sent_to_words (Bunch_data fetch_data.2) in
  (length (Bunch_data fetch_data.1) ≤ length (Bunch_target fetch_data.1))%nat →
  (length (Bunch_data fetch_data.2) ≤ length (Bunch_target fetch_data.2))%nat →
  (∀ target, length (create_new_labels target) = length target) →
  (∀ e' texts lda_model corpus id2word,
     buildModel e' texts = Ok (lda_model, corpus, id2word) →
     ∀ doc, doc ∈ corpus → inference_in_range lda_model doc) →
  (surviving train ≠ [] → surviving test ≠ [] →
   ∃ mat matTest target targetTest,
     main_features e e_test = Ok (mat, matTest, target, targetTest) ∧
     length mat = length target ∧
     length matTest = length targetTest ∧
     length mat = length (surviving train) ∧
     length matTest = length (surviving test)) ∧
  (surviving train = [] ∨ surviving test = [] →
   main_features e e_test = Raise ValueError).
Proof.
  intros train test Htrain Htest Hremap Hlib.
  destruct (getDataHayle_defined G S true Htrain)
    as (data & target & Hdata & Hlen & Hkept & Hwords).
  destruct (getDataHayle_defined G S false Htest)
    as (dataTest & targetTest & HdataTest & HlenTest & HkeptTest & HwordsTest).
  simpl in Hkept, HkeptTest. fold train in Hkept. fold test in HkeptTest.
  assert (∀ e' texts, ¬ no_terms texts →
            ∃ lda_model corpus id2word,
              buildModel e' texts = Ok (lda_model, corpus, id2word) ∧
              length corpus = length texts) as Hbuilt.
  { intros e' texts Hsome. eexists _, _, _. split.
    - unfold buildModel. rewrite decide_False by done. reflexivity.
    - by rewrite length_fmap. }
  assert (∀ e' texts, no_terms texts →
            buildModel e' texts = Raise ValueError) as Hrefused.
  { intros e' texts Hnone. unfold buildModel. by rewrite decide_True. }
  assert (no_terms data ↔ surviving train = []) as Hnone.
  { rewrite (no_terms_kept data Hwords).
    rewrite <- !length_zero_iff_nil. by rewrite Hkept. }
  assert (no_terms dataTest ↔ surviving test = []) as HnoneTest.
  { rewrite (no_terms_kept dataTest HwordsTest).
    rewrite <- !length_zero_iff_nil. by rewrite HkeptTest. }
  unfold main_features. rewrite Hdata, bind_Ok, HdataTest, bind_Ok.
  split.
  - intros Hsome HsomeTest.
    destruct (Hbuilt e data) as (lda_model & corpus & id2word & Hmodel & Hdocs).
    { by rewrite Hnone. }
    destruct (Hbuilt e_test dataTest)
      as (lda_model_test & corpus_test & id2word_test & HmodelTest & HdocsTest).
    { by rewrite HnoneTest. }
    destruct (matrix_defined lda_model corpus data
                (Hlib e data lda_model corpus id2word Hmodel))
      as (mat & Hmat & Hrows).
    destruct (matrix_defined lda_model_test corpus_test dataTest
                (Hlib e_test dataTest lda_model_test corpus_test id2word_test
                      HmodelTest))
      as (matTest & HmatTest & HrowsTest).
    apply Forall2_length in Hrows, HrowsTest.
    exists mat, matTest, (create_new_labels target),
           (create_new_labels targetTest).
    split; [|split; [|split; [|split]]].
    + rewrite Hmodel, bind_Ok, HmodelTest, bind_Ok.
      by rewrite Hmat, bind_Ok, HmatTest.
    + rewrite Hremap. congruence.
    + rewrite Hremap. congruence.
    + congruence.
    + congruence.
  - intros [Hempty|Hempty].
    + by rewrite (Hrefused e data (proj2 Hnone Hempty)).
    + destruct (decide (no_terms data)) as [Hno|Hsome].
      * by rewrite (Hrefused e data Hno).
      * destruct (Hbuilt e data Hsome)
          as (lda_model & corpus & id2word & Hmodel & _).
        rewrite Hmodel, bind_Ok.
        by rewrite (Hrefused e_test dataTest (proj2 HnoneTest Hempty)).
Qed.

Lemma small_inference_in_range (e : Z) (texts : list (list string))
    (lda_model : Small.model) (corpus : list bow) (id2word : list string)
    (doc : bow) :
  buildModel (G := Small.gensim) e texts = Ok (lda_model, corpus, id2word) →
  inference_in_range (G := Small.gensim) lda_model doc.
Proof.
  unfold buildModel. destruct (decide (no_terms texts)); [done|].
  simpl. intros [= <- _ _].
  unfold inference_in_range. simpl. unfold Small.infer. simpl.
  eexists _, _, _. split; [reflexivity|].
  concrete_Forall ltac:(apply Z.mod_pos_bound; lia).
Qed.

Lemma main_features_aligned_witness :
  (∃ mat matTest target targetTest,
     main_features (G := Small.gensim) (S := Small.sheeple) 0 1
       = Ok (mat, matTest, target, targetTest) ∧
     length mat = length target ∧
     length matTest = length targetTest ∧
     length mat = 2%nat ∧
     length matTest = 1%nat) ∧
  main_features (G := Small.gensim) (S := Small.sheeple_blank_test) 0 1
  = Raise ValueError.
Proof.
  split.
  - destruct (main_features_aligned Small.gensim Small.sheeple 0 1)
      as [Hreached _].
    + simpl. lia.
    + simpl. lia.
    + intros target. apply length_fmap.
    + intros e' texts lda_model corpus id2word Hmodel doc _.
      by apply (small_inference_in_range e' texts lda_model corpus id2word).
    + apply Hreached; by vm_compute.
  - destruct (main_features_aligned Small.gensim Small.sheeple_blank_test 0 1)
      as [_ Hrefused].
    + simpl. lia.
    + simpl. lia.
    + intros target. apply length_fmap.
    + intros e' texts lda_model corpus id2word Hmodel doc _.
      by apply (small_inference_in_range e' texts lda_model corpus id2word).
    + apply Hrefused. right. by vm_compute.
Defined.

(** ** From the corpus to the histograms *)

Lemma doc_lens_by_topic (idx : Z) (docs : list (Z * list string))
    (df : list dominant_row) :
  Forall2 (λ d row, Dominant_Topic row = Some d.1 ∧ Text_ row = Some d.2)
          docs df →
  omap (λ r, length <$> Text_ r)
       (filter (λ r, Dominant_Topic r = Some idx) df)
  = length <$> (filter (λ d, d.1 = idx) docs).*2.
Proof.
  induction 1 as [|d row docs df [Htopic Htext] _ IH]; [done|].
  rewrite !filter_cons, Htopic.
  destruct (decide (d.1 = idx)) as [->|Hne].
  - rewrite decide_True by done.
    cbn [omap list_omap fmap list_fmap]. rewrite Htext. simpl.
    f_equal. exact IH.
  - rewrite decide_False by congruence. exact IH.
Qed.

(** X19.  Drawn from the table of a corpus, not empty, in which every
    document has a pair and a text, the histogram of topic t counts the
    tokens of the documents whose dominant topic is t, in the order of the
    corpus, and of no other document. *)
Theorem words_per_doc_of_corpus `{R : Reporting} `{M : Matplotlib}
    (ldamodel : lda) (corpus : list bow) (data : list (list string))
    (topics : list Z) :
  lda_apply ldamodel corpus = lda_getitem ldamodel <$> corpus →
  TABLEAU_COLORS ≠ [] →
  corpus ≠ [] →
  Forall2 (λ doc t, dominant_topic (selected_row (lda_getitem ldamodel doc))
                    = Ok t) corpus topics →
  length data = length corpus →
  ∃ df figures,
    format_topics_sentences ldamodel corpus data = Ok df ∧
    makeWordsPerDocVisualization df = Ok figures ∧
    ∀ j i, (j < 2)%nat → (i < 6)%nat →
      ∃ axes ax,
        figures !! j = Some axes ∧ axes !! i = Some ax ∧
        ha_doc_lens ax
        = length <$> (filter (λ d, d.1 = Z.of_nat i + Z.of_nat j * 6)
                             (zip topics data)).*2.
Proof.
  intros Hlib Hcolors Hne Htopics Hlen.
  destruct (format_topics_sentences_table ldamodel corpus data Hlib)
    as [_ Hsome].
  assert (filter (λ doc, selected_row (lda_getitem ldamodel doc) ≠ []) corpus
          = corpus) as Hall.
  { clear -Htopics. induction Htopics as [|doc t corpus topics Ht _ IH];
      [done|].
    rewrite filter_cons, decide_True.
    - by rewrite IH.
    - destruct (selected_row (lda_getitem ldamodel doc)); [|done].
      by vm_compute in Ht. }
  rewrite Hall in Hsome.
  destruct (Hsome Hne) as (df & Hrun & Hdf & Hrows).
  assert (length topics = length corpus) as Hlt.
  { symmetry. by eapply Forall2_length. }
  assert (Forall2 (λ d row, Dominant_Topic row = Some d.1 ∧
                            Text_ row = Some d.2) (zip topics data) df)
    as Hzip.
  { apply Forall2_same_length_lookup_2.
    - rewrite length_zip. lia.
    - intros k [t text] row Hk Hrow.
      apply lookup_zip_Some in Hk as [Ht Htext]. simpl in *.
      destruct (Hrows k row Hrow) as (_ & Hcol & Hdom).
      destruct (corpus !! k) as [doc|] eqn:Hdoc.
      + destruct Hdom as (t' & Hdom & Htop & _).
        destruct (Forall2_lookup_l _ _ _ _ _ Htopics Hdoc)
          as (t'' & Ht'' & Hdom').
        rewrite Hdom in Hdom'. simplify_eq.
        split; [done|]. by rewrite Hcol.
      + apply lookup_ge_None in Hdoc. apply lookup_lt_Some in Ht. lia. }
  destruct (words_per_doc_table df Hcolors) as [Hdrawn _].
  destruct Hdrawn as (figures & Hfig & _ & Haxes).
  { apply Forall_forall. intros row Hrow _.
    apply list_elem_of_lookup in Hrow as [k Hk].
    destruct (Forall2_lookup_r _ _ _ _ _ Hzip Hk) as (d & _ & _ & Htext).
    by eexists. }
  exists df, figures. split; [done|]. split; [done|].
  intros j i Hj Hi.
  destruct (Haxes j i Hj Hi) as (axes & ax & Hf & _ & Ha & _ & _ & Hlens & _).
  exists axes, ax. split; [done|]. split; [done|].
  rewrite Hlens. by apply doc_lens_by_topic.
Qed.

Lemma words_per_doc_of_corpus_witness :
  ∃ df figures,
    format_topics_sentences (R := SmallReport.reporting)
      (Small.lda12 Small.corpus6) Small.corpus6
      [["cat"; "cat"; "dog"]; ["cat"; "cat"; "cat"; "cat"; "car"; "car"]]
      = Ok df ∧
    makeWordsPerDocVisualization (M := Small.matplotlib) df = Ok figures ∧
    ∀ j i, (j < 2)%nat → (i < 6)%nat →
      ∃ axes ax,
        figures !! j = Some axes ∧ axes !! i = Some ax ∧
        ha_doc_lens ax
        = length <$> (filter (λ d, d.1 = Z.of_nat i + Z.of_nat j * 6)
                        (zip [7; 10]
                           [["cat"; "cat"; "dog"];
                            ["cat"; "cat"; "cat"; "cat"; "car"; "car"]])).*2.
Proof.
  apply (words_per_doc_of_corpus (R := SmallReport.reporting)
           (M := Small.matplotlib) (Small.lda12 Small.corpus6) Small.corpus6
           [["cat"; "cat"; "dog"]; ["cat"; "cat"; "cat"; "cat"; "car"; "car"]]
           [7; 10]).
  - reflexivity.
  - done.
  - done.
  - repeat (apply List.Forall2_cons; [by vm_compute|]). apply List.Forall2_nil.
  - reflexivity.
Defined.

(** ** When the chart is drawn *)

Lemma py_getitem_Ok_iff {A} (l : list A) (i : Z) :
  (∃ x, py_getitem l i = Ok x) ↔
  - Z.of_nat (length l) ≤ i < Z.of_nat (length l).
Proof.
  unfold py_getitem, py_index. split.
  - intros [x Hx]. repeat case_decide; (lia || done).
  - intros Hi. destruct (decide (0 ≤ i < Z.of_nat (length l))) as [Hin|Hout].
    + destruct (lookup_lt_is_Some_2 l (Z.to_nat i)) as [x ->]; [lia|].
      by exists x.
    + rewrite decide_True by lia.
      destruct (lookup_lt_is_Some_2 l (Z.to_nat (i + Z.of_nat (length l))))
        as [x ->]; [lia|].
      by exists x.
Qed.

Lemma py_getitem_nat_lookup {A} (l : list A) (k : nat) (x : A) :
  py_getitem l (Z.of_nat k) = Ok x ↔ l !! k = Some x.
Proof.
  split; [|apply py_getitem_nonneg].
  unfold py_getitem, py_index. intros Hx.
  destruct (decide (0 ≤ Z.of_nat k < Z.of_nat (length l))).
  - rewrite Nat2Z.id in Hx. by destruct (l !! k); simplify_eq.
  - by rewrite decide_False in Hx by lia.
Qed.

Lemma py_slice_default_lookup {A} (l : list A) (k : nat) :
  (k < 13)%nat → py_slice l 0 13 !! k = l !! k.
Proof.
  intros Hk. unfold py_slice.
  rewrite !decide_False by lia.
  replace (Z.to_nat (0 `min` Z.of_nat (length l))) with 0%nat by lia.
  rewrite drop_0.
  destruct (decide (k < length l)%nat) as [Hlt|Hge].
  - apply lookup_take_lt. lia.
  - rewrite lookup_take_ge by lia. symmetry. apply lookup_ge_None. lia.
Qed.

Section ChartSuccess.

Context `{G : Gensim}.

(** Whether a document is drawn does not depend on what its axes object
    already holds. *)
Lemma chart_doc_Ok_iff (lda_model : lda) (mycolors : list string)
    (corp : list bow) (i : nat) (ax : list artist) :
  mycolors ≠ [] → (0 < i)%nat →
  (∃ ax', chart_doc lda_model mycolors corp i ax = Ok ax') ↔
  ∃ doc, corp !! (i - 1)%nat = Some doc ∧
         chartable lda_model (length mycolors) doc.
Proof.
  intros Hcolors Hi. unfold chart_doc.
  replace (Z.of_nat i - 1) with (Z.of_nat (i - 1)) by lia.
  destruct (corp !! (i - 1)%nat) as [doc|] eqn:Hdoc.
  2:{ split; [|by intros (doc & ? & _)].
      intros [ax' Hrun].
      destruct (py_getitem corp (Z.of_nat (i - 1))) as [doc|] eqn:Hget;
        [|done].
      apply py_getitem_nat_lookup in Hget. congruence. }
  rewrite (py_getitem_nonneg _ _ _ Hdoc), bind_Ok.
  destruct (lda_getitem lda_model doc) as [tp wt phi|l] eqn:Hinf.
  2:{ split.
      - intros [ax' Hrun]. cbn [unpack_inference] in Hrun.
        by destruct (decide (length l = 3%nat)).
      - intros (doc' & [= <-] & tp & wt & phi & t & Hinf' & _). congruence. }
  cbn [unpack_inference]. rewrite bind_Ok.
  destruct (dominant_words_result (lda_id2word lda_model) wt [])
    as [Hwords Hkey].
  destruct (decide (Forall (λ p, p.2 ≠ [] →
              is_Some (dictionary_getitem (lda_id2word lda_model) p.1)) wt))
    as [Hall|Hnot].
  2:{ split.
      - intros [ax' Hrun]. rewrite Hkey in Hrun; [done|].
        apply not_Forall_Exists in Hnot; [|intros p; apply _].
        eapply Exists_impl; [exact Hnot|]. simpl. intros p Hp.
        destruct (decide (p.2 = [])) as [Hnil|Hne];
          [exfalso; apply Hp; by intros ?|].
        split; [done|].
        destruct (dictionary_getitem (lda_id2word lda_model) p.1); [|done].
        exfalso. apply Hp. by intros _.
      - intros (doc' & [= <-] & tp' & wt' & phi' & t & Hinf' & Hall' & _).
        rewrite Hinf in Hinf'. by simplify_eq. }
  destruct (Hwords Hall) as (words & -> & _). rewrite bind_Ok.
  destruct (dominant_topic tp) as [t|e] eqn:Htopic.
  2:{ split; [by intros [ax' ?]|].
      intros (doc' & [= <-] & tp' & wt' & phi' & t & Hinf' & _ & Ht & _).
      rewrite Hinf in Hinf'. simplify_eq. congruence. }
  rewrite bind_Ok.
  destruct (decide (- Z.of_nat (length mycolors) ≤ t
                    < Z.of_nat (length mycolors))) as [Hin|Hout].
  - destruct (proj2 (py_getitem_Ok_iff mycolors t) Hin) as [color ->].
    rewrite bind_Ok.
    edestruct (draw_words_from mycolors ([] ++ words) Hcolors 0)
      as (word_pos & more & -> & _).
    rewrite bind_Ok. split; [|by eexists].
    intros _. exists doc. split; [done|]. by exists tp, wt, phi, t.
  - split.
    + intros [ax' Hrun].
      destruct (py_getitem mycolors t) as [color|] eqn:Hget; [|done].
      destruct Hout. apply py_getitem_Ok_iff. by exists color.
    + intros (doc' & [= <-] & tp' & wt' & phi' & t' & Hinf' & _ & Ht & Hin).
      rewrite Hinf in Hinf'. simplify_eq. rewrite Htopic in Ht. by simplify_eq.
Qed.

Lemma chart_loop_defined (lda_model : lda) (mycolors : list string)
    (corp : list bow) (axes : list (list artist)) :
  ∀ (i : nat) (drawn : list (list artist)),
    (∀ k ax, axes !! k = Some ax → (0 < i + k)%nat →
       ∃ ax', chart_doc lda_model mycolors corp (i + k) ax = Ok ax') →
    ∃ out, chart_loop lda_model mycolors corp i axes drawn = Ok out.
Proof.
  induction axes as [|ax0 axes IH]; intros i drawn Hdocs.
  - by exists drawn.
  - simpl.
    assert (∀ drawn', ∃ out,
              chart_loop lda_model mycolors corp (S i) axes drawn' = Ok out)
      as Hrest.
    { intros drawn'. apply IH. intros k ax Hk Hpos.
      replace (S i + k)%nat with (i + S k)%nat by lia.
      apply Hdocs; [done|lia]. }
    destruct (decide (0 < i)%nat) as [Hi|Hi]; [|apply Hrest].
    destruct (Hdocs 0%nat ax0 eq_refl) as [ax' Hax']; [lia|].
    rewrite Nat.add_0_r in Hax'. rewrite Hax', bind_Ok. apply Hrest.
Qed.

End ChartSuccess.

(** X20.  With at least one colour and the default bounds, the chart is
    drawn exactly when the corpus has 12 documents or more and each of the
    first 12 can be drawn: inference gives it the per-word triple, every
    word with a topic is in the vocabulary, and its dominant topic is a
    position of the colour list. *)
Theorem sentences_chart_drawn_iff `{G : Gensim} `{M : Matplotlib}
    (lda_model : lda) (corpus : list bow) :
  TABLEAU_COLORS ≠ [] →
  (∃ axes, sentences_chart lda_model corpus 0 13 = Ok axes) ↔
  (12 ≤ length corpus)%nat ∧
  ∀ k doc, (k < 12)%nat → corpus !! k = Some doc →
    chartable lda_model (length TABLEAU_COLORS) doc.
Proof.
  intros Hcolors.
  assert (TABLEAU_COLORS.*2 ≠ []) as Hcols.
  { intros Hnil. apply fmap_nil_inv in Hnil. done. }
  assert (length TABLEAU_COLORS.*2 = length TABLEAU_COLORS) as Hlen
    by apply length_fmap.
  unfold sentences_chart.
  change (plt_subplots (13 - 0)) with (Ok (replicate 13 (@nil artist))).
  rewrite bind_Ok.
  change (alter (λ ax, ax ++ [AxisOff]) 0%nat (replicate 13 (@nil artist)))
    with ([AxisOff] :: replicate 12 (@nil artist)).
  split.
  - intros [axes Hrun].
    apply chart_loop_Ok in Hrun as (more & _ & _ & Hmore).
    assert (∀ k, (k < 12)%nat →
              ∃ doc, py_slice corpus 0 13 !! k = Some doc ∧
                     chartable lda_model (length TABLEAU_COLORS) doc)
      as Hdocs.
    { intros k Hk. pose proof (Hmore (S k) []) as Hdrawn.
      rewrite decide_True in Hdrawn by lia.
      destruct Hdrawn as (ax' & Hax' & _).
      { change (replicate 12 (@nil artist) !! k = Some []).
        apply lookup_replicate_2. lia. }
      change (0 + S k)%nat with (S k) in Hax'.
      destruct (proj1 (chart_doc_Ok_iff lda_model TABLEAU_COLORS.*2
                         (py_slice corpus 0 13) (S k) [] Hcols ltac:(lia)))
        as (doc & Hdoc & Hchart); [by exists ax'|].
      exists doc. rewrite Hlen in Hchart. split; [|done].
      by replace (S k - 1)%nat with k in Hdoc by lia. }
    split.
    + destruct (Hdocs 11%nat) as (doc & Hdoc & _); [lia|].
      rewrite py_slice_default_lookup in Hdoc by lia.
      apply lookup_lt_Some in Hdoc. lia.
    + intros k doc Hk Hdoc.
      destruct (Hdocs k Hk) as (doc' & Hdoc' & Hchart).
      rewrite py_slice_default_lookup in Hdoc' by lia. congruence.
  - intros [Hmany Hdocs].
    apply chart_loop_defined. intros k ax Hk Hpos. simpl in Hpos |- *.
    destruct k as [|k]; [lia|].
    assert (k < 12)%nat as Hlt.
    { pose proof (lookup_lt_Some _ _ _ Hk) as Hk'.
      change (length ([AxisOff] :: replicate 12 (@nil artist)))
        with 13%nat in Hk'. lia. }
    apply chart_doc_Ok_iff; [done|lia|].
    destruct (lookup_lt_is_Some_2 corpus k) as [doc Hdoc]; [lia|].
    exists doc. split.
    + replace (S k - 1)%nat with k by lia.
      by rewrite py_slice_default_lookup by lia.
    + rewrite Hlen. by apply (Hdocs k).
Qed.

Lemma sentences_chart_drawn_iff_witness :
  (∃ axes,
     sentences_chart (M := Small.matplotlib) (Small.lda12 Small.corpus3)
       (replicate 12 [(0, 2); (1, 1)]) 0 13 = Ok axes) ↔
  (12 ≤ length (replicate 12 [(0, 2); (1, 1)]))%nat ∧
  ∀ k doc, (k < 12)%nat →
    replicate 12 [(0, 2); (1, 1)] !! k = Some doc →
    chartable (Small.lda12 Small.corpus3)
              (length (@TABLEAU_COLORS Small.matplotlib)) doc.
Proof.
  apply (sentences_chart_drawn_iff (G := Small.gensim)
           (M := Small.matplotlib) (Small.lda12 Small.corpus3)
           (replicate 12 [(0, 2); (1, 1)])).
  done.
Defined.
